(** * pytorch_pfn_extras.utils.comparer: a shallow embedding

    The module drives several training or evaluation engines side by side,
    captures the outputs of each at every comparison point through a handler
    wrapper, and compares them.  Python objects are embedded as records,
    dictionaries as insertion-ordered association lists, and the statements
    of each method as computations in a state-and-exception monad whose state
    survives a raised exception, as the attributes of a Python object do. *)

From Stdlib Require Import String List ZArith Bool Arith Lia Floats.

#[local] Set Warnings "-inexact-float,-register-all".
Import ListNotations.
Open Scope string_scope.
Open Scope list_scope.

Set Implicit Arguments.

(** ** Exceptions *)

(** The exception classes the module raises or lets through.  [SystemExit]
    and [KeyboardInterrupt] derive from [BaseException] only: an
    [except Exception] clause does not catch them. *)
Inductive exn : Type :=
| ValueError (msg : string)
| KeyError (key : string)
| IndexError
| AttributeError (attr : string)
| TypeError (msg : string)
| AssertionError (msg : string)
| BrokenBarrierError
| NotImplementedError
| OtherException (cls : string)
| SystemExit
| KeyboardInterrupt.

(** [isinstance(e, Exception)]. *)
Definition is_Exception (e : exn) : bool :=
  match e with
  | SystemExit | KeyboardInterrupt => false
  | _ => true
  end.

Inductive result (A : Type) : Type :=
| Ok (a : A)
| Raise (e : exn).
Arguments Ok {A} a.
Arguments Raise {A} e.

Definition is_Ok {A} (r : result A) : bool :=
  match r with Ok _ => true | Raise _ => false end.

(** ** Python dictionaries

    [dict] and [OrderedDict] keep their keys in insertion order, and
    assigning to a key that is present keeps its position. *)
Module PyDict.
Section Dict.
Variable V : Type.

Definition t := list (string * V).

Definition keys (d : t) : list string := map fst d.

Fixpoint get (k : string) (d : t) : option V :=
  match d with
  | [] => None
  | (k', v) :: d' => if String.eqb k k' then Some v else get k d'
  end.

Definition mem (k : string) (d : t) : bool :=
  match get k d with Some _ => true | None => false end.

(** [d[k] = v] *)
Fixpoint set (k : string) (v : V) (d : t) : t :=
  match d with
  | [] => [(k, v)]
  | (k', v') :: d' =>
      if String.eqb k k' then (k', v) :: d' else (k', v') :: set k v d'
  end.

(** [d.update(e)] *)
Definition update (d e : t) : t :=
  fold_left (fun acc kv => set (fst kv) (snd kv) acc) e d.

(** [d[k]], raising [KeyError] *)
Definition getitem (k : string) (d : t) : result V :=
  match get k d with
  | Some v => Ok v
  | None => Raise (KeyError k)
  end.

(** [{key: src[key] for key in ks}], evaluated left to right. *)
Fixpoint comprehension (ks : list string) (src : t) (acc : t) : result t :=
  match ks with
  | [] => Ok acc
  | k :: ks' =>
      match getitem k src with
      | Ok v => comprehension ks' src (set k v acc)
      | Raise e => Raise e
      end
  end.
End Dict.

(** The key order of a dictionary after [d[k] = v], on the list of keys. *)
Definition insert_key (k : string) (ks : list string) : list string :=
  if existsb (String.eqb k) ks then ks else ks ++ [k].

Definition insert_keys (new ks : list string) : list string :=
  fold_left (fun acc k => insert_key k acc) new ks.
End PyDict.

Definition pydict (V : Type) : Type := PyDict.t V.

(** ** The default comparison function (lines 66-93) *)

Section DefaultComparer.
Variable Tensor : Type.

(** A Python number as it is written in the source: [0] is an [int],
    [1e-07] a [float]. *)
Inductive pynum : Type :=
| PyInt (z : Z)
| PyFloat (f : float).

(** The keyword call of [torch.testing.assert_allclose]. *)
Record allclose_call : Type := {
  actual : Tensor;
  expected : Tensor;
  rtol : pynum;
  atol : pynum;
  equal_nan : bool;
  msg : string
}.

(** [torch] is an external library: the tensor methods and the assertion
    are taken as given.  The assertion returns [None] when it passes and
    the exception it raises otherwise. *)
Variable cpu : Tensor -> Tensor.
Variable detach : Tensor -> Tensor.
Variable assert_allclose : allclose_call -> option exn.

Definition compare_fn_t : Type :=
  string -> string -> string -> Tensor -> Tensor -> option exn.

(** [msg or f" comparing {backend1} and {backend2} in {name}"]: [None] and
    the empty string are both falsy. *)
Definition err_msg (msg : option string) (backend1 backend2 name : string)
  : string :=
  match msg with
  | Some (String c s) => String c s
  | _ =>
    (" comparing " ++ backend1 ++ " and " ++ backend2 ++ " in " ++ name)%string
  end.

(** A keyword argument left out takes the default of the signature
    [(rtol=1e-07, atol=0, equal_nan=True, msg=None)]. *)
Definition get_default_comparer
    (rtol : option pynum) (atol : option pynum)
    (equal_nan : option bool) (msg : option string) : compare_fn_t :=
  let rtol := match rtol with Some r => r | None => PyFloat 1e-07 end in
  let atol := match atol with Some a => a | None => PyInt 0 end in
  let equal_nan := match equal_nan with Some b => b | None => true end in
  fun backend1 backend2 name val1 val2 =>
    assert_allclose
      {| actual := detach (cpu val1);
         expected := detach (cpu val2);
         rtol := rtol;
         atol := atol;
         equal_nan := equal_nan;
         msg := err_msg msg backend1 backend2 name |}.

Definition _default_comparer : compare_fn_t :=
  get_default_comparer None None None None.
End DefaultComparer.

(** ** Objects of the comparer module *)

(** [type(engine)]: the two supported classes, or any other class. *)
Inductive engine_type : Type :=
| Trainer
| Evaluator
| OtherType (cls : string).

Definition engine_type_eqb (a b : engine_type) : bool :=
  match a, b with
  | Trainer, Trainer => true
  | Evaluator, Evaluator => true
  | OtherType x, OtherType y => String.eqb x y
  | _, _ => false
  end.

(** The attributes [_output_keys] and [_param_keys]: [True], [False], or a
    sequence of keys (of patterns, for the parameters). *)
Inductive key_sel : Type :=
| SelTrue
| SelFalse
| SelKeys (ks : list string).

(** The constructor arguments [outputs] and [params]. *)
Inductive keys_arg : Type :=
| ArgBool (b : bool)
| ArgStr (s : string)
| ArgSeq (ks : list string).

(** [(x,) if isinstance(x, str) else x] *)
Definition keys_of_arg (a : keys_arg) : key_sel :=
  match a with
  | ArgStr s => SelKeys [s]
  | ArgBool true => SelTrue
  | ArgBool false => SelFalse
  | ArgSeq ks => SelKeys ks
  end.

(** [threading.Barrier]: the number of parties and the broken flag that
    [abort] sets and [wait] tests.  Blocking belongs to the scheduler. *)
Record Barrier : Type := {
  parties : nat;
  broken : bool
}.

(** [threading.Semaphore(value)].  The operations of a thread on it are
    recorded as events; its counter only decides how long [acquire] blocks. *)
Record Semaphore : Type := {
  sem_value : nat
}.

(** The wrapper installed in the handler slot of an engine (lines 17-22).
    The callback [_save_outs_cb] is the bound method
    [Comparer._compare_targets]; it is a parameter of the methods below. *)
Record _ComparableHandler (H : Type) : Type := {
  _handler : H;
  name : string;
  iteration : Z
}.

Definition set_handler {H} (w : _ComparableHandler H) (h : H)
  : _ComparableHandler H :=
  {| _handler := h; name := name w; iteration := iteration w |}.

Definition incr_iteration {H} (w : _ComparableHandler H)
  : _ComparableHandler H :=
  {| _handler := _handler w; name := name w;
     iteration := (iteration w + 1)%Z |}.

(** ** The Comparer and its world *)

Section Comparer.
(** Tensors, opaque Python values (run arguments, batches, loaders, hook
    results), user handlers and manager objects are external. *)
Variable Tensor : Type.
Variable Val : Type.
Variable py_None : Val.
Variable UserHandler : Type.
Variable Manager : Type.

(** The state of everything outside the Comparer: managers, trigger
    internals, wrapped handlers, the engines' own data. *)
Variable Ext : Type.
Variable manager_iteration : Manager -> Ext -> Z.

(** The trigger module is external: [get_trigger] builds a trigger object
    from its specification, and calling the object may update its state. *)
Variable Trigger : Type.

Inductive trigger_spec : Type :=
| SpecInterval (period : Z) (unit : string)
| SpecTrigger (t : Trigger).

Variable get_trigger : trigger_spec -> Trigger.

(** [re.match(pattern, s) is not None] *)
Variable re_match : string -> string -> bool.

(** The handler slot of an engine: a user handler, possibly wrapped. *)
Inductive handler_obj : Type :=
| Plain (h : UserHandler)
| Comparable (w : _ComparableHandler handler_obj).

(** [model.state_dict()] *)
Record Model : Type := {
  state_dict : pydict Tensor
}.

(** An engine as the Comparer sees it: its class, the [manager] attribute
    when it has one, its models and its handler slot. *)
Record Engine : Type := {
  engine_class : engine_type;
  manager : option Manager;
  models : pydict Model;
  handler : handler_obj
}.

(** The local subclass of [manager_module._ManagerProxy] (lines 178-181):
    every attribute is the manager's, except [iteration]. *)
Record _ManagerProxy : Type := {
  _manager : Manager
}.

Definition _ManagerProxy_iteration (p : _ManagerProxy) (e : Ext) : Z :=
  (manager_iteration (_manager p) e + 1)%Z.

Variable trigger_call : Trigger -> _ManagerProxy -> Ext -> result bool * Ext.

Definition target_set : Type := pydict Tensor.

Record Comparer : Type := {
  _engine_type : option engine_type;
  _engines : pydict (Engine * list Val * Val);
  _compare_fn : compare_fn_t Tensor;
  _targets : pydict target_set;
  _output_keys : key_sel;
  _param_keys : key_sel;
  _preprocessed_keys : option (list string);
  _finalized : bool;
  _concurrency : option nat;
  _barrier : option Barrier;
  _semaphore : option Semaphore;
  _trigger : Trigger
}.

(** What a thread does that its peers can observe.  [EvCompareOuts] marks
    the entry into [_compare_outs]. *)
Inductive Event : Type :=
| EvTrigger (p : _ManagerProxy)
| EvCompareOuts
| EvCompareFn (backend1 backend2 val_name : string) (out1 out2 : Tensor)
| EvLockAcquire
| EvLockRelease
| EvSemAcquire
| EvSemRelease
| EvBarrierWait
| EvBarrierAbort.

Record World : Type := {
  self : Comparer;
  ext : Ext
}.

(** A computation returns or raises, leaves a world behind in both cases,
    and emits events in order. *)
Definition M (A : Type) : Type := World -> result A * World * list Event.

(** The three components of a run. *)
Definition world_of {A} (x : result A * World * list Event) : World :=
snd (fst x).

Definition result_of {A} (x : result A * World * list Event) : result A :=
fst (fst x).

Definition events_of {A} (x : result A * World * list Event) : list Event :=
snd x.

Definition ret {A} (a : A) : M A := fun w => (Ok a, w, []).

Definition raise {A} (e : exn) : M A := fun w => (Raise e, w, []).

Definition bind {A B} (c : M A) (k : A -> M B) : M B :=
  fun w =>
    match c w with
    | (Ok a, w1, ev1) =>
        match k a w1 with
        | (r, w2, ev2) => (r, w2, ev1 ++ ev2)
        end
    | (Raise e, w1, ev1) => (Raise e, w1, ev1)
    end.

Notation "x <- c ;; k" := (bind c (fun x => k))
  (at level 100, c at next level, right associativity).
Notation "c ;;; k" := (bind c (fun _ => k))
  (at level 100, right associativity).

Definition emit (e : Event) : M unit := fun w => (Ok tt, w, [e]).

Definition get_self : M Comparer := fun w => (Ok (self w), w, []).

Definition modify (f : Comparer -> Comparer) : M unit :=
  fun w => (Ok tt, {| self := f (self w); ext := ext w |}, []).

Definition lift {A} (r : result A) : M A := fun w => (r, w, []).

(** [for x in l: body(x)] *)
Fixpoint for_ {A} (l : list A) (body : A -> M unit) : M unit :=
  match l with
  | [] => ret tt
  | x :: l' => body x ;;; for_ l' body
  end.

(** [try: body  finally: fin] *)
Definition try_finally {A} (body : M A) (fin : M unit) : M A :=
  fun w =>
    match body w with
    | (r, w1, ev1) =>
        match fin w1 with
        | (Ok _, w2, ev2) => (r, w2, ev1 ++ ev2)
        | (Raise e, w2, ev2) => (Raise e, w2, ev1 ++ ev2)
        end
    end.

(** [try: body  except Exception: handler; raise] *)
Definition try_except_Exception {A} (body : M A) (handler : M unit) : M A :=
  fun w =>
    match body w with
    | (Ok a, w1, ev1) => (Ok a, w1, ev1)
    | (Raise e, w1, ev1) =>
        if is_Exception e then
          match handler w1 with
          | (Ok _, w2, ev2) => (Raise e, w2, ev1 ++ ev2)
          | (Raise e', w2, ev2) => (Raise e', w2, ev1 ++ ev2)
          end
        else (Raise e, w1, ev1)
    end.

(** [with self._report_lock: body] *)
Definition with_report_lock {A} (body : M A) : M A :=
  emit EvLockAcquire ;;; try_finally body (emit EvLockRelease).

(** *** Field updates *)

Definition set_engine_type (t : option engine_type) (c : Comparer) :=
  {| _engine_type := t; _engines := _engines c;
     _compare_fn := _compare_fn c; _targets := _targets c;
     _output_keys := _output_keys c; _param_keys := _param_keys c;
     _preprocessed_keys := _preprocessed_keys c;
     _finalized := _finalized c; _concurrency := _concurrency c;
     _barrier := _barrier c; _semaphore := _semaphore c;
     _trigger := _trigger c |}.

Definition set_engines (e : pydict (Engine * list Val * Val)) (c : Comparer) :=
  {| _engine_type := _engine_type c; _engines := e;
     _compare_fn := _compare_fn c; _targets := _targets c;
     _output_keys := _output_keys c; _param_keys := _param_keys c;
     _preprocessed_keys := _preprocessed_keys c;
     _finalized := _finalized c; _concurrency := _concurrency c;
     _barrier := _barrier c; _semaphore := _semaphore c;
     _trigger := _trigger c |}.

Definition set_targets (t : pydict target_set) (c : Comparer) :=
  {| _engine_type := _engine_type c; _engines := _engines c;
     _compare_fn := _compare_fn c; _targets := t;
     _output_keys := _output_keys c; _param_keys := _param_keys c;
     _preprocessed_keys := _preprocessed_keys c;
     _finalized := _finalized c; _concurrency := _concurrency c;
     _barrier := _barrier c; _semaphore := _semaphore c;
     _trigger := _trigger c |}.

Definition set_output_keys (k : key_sel) (c : Comparer) :=
  {| _engine_type := _engine_type c; _engines := _engines c;
     _compare_fn := _compare_fn c; _targets := _targets c;
     _output_keys := k; _param_keys := _param_keys c;
     _preprocessed_keys := _preprocessed_keys c;
     _finalized := _finalized c; _concurrency := _concurrency c;
     _barrier := _barrier c; _semaphore := _semaphore c;
     _trigger := _trigger c |}.

Definition set_preprocessed_keys (k : option (list string)) (c : Comparer) :=
  {| _engine_type := _engine_type c; _engines := _engines c;
     _compare_fn := _compare_fn c; _targets := _targets c;
     _output_keys := _output_keys c; _param_keys := _param_keys c;
     _preprocessed_keys := k;
     _finalized := _finalized c; _concurrency := _concurrency c;
     _barrier := _barrier c; _semaphore := _semaphore c;
     _trigger := _trigger c |}.

Definition set_finalized (b : bool) (c : Comparer) :=
  {| _engine_type := _engine_type c; _engines := _engines c;
     _compare_fn := _compare_fn c; _targets := _targets c;
     _output_keys := _output_keys c; _param_keys := _param_keys c;
     _preprocessed_keys := _preprocessed_keys c;
     _finalized := b; _concurrency := _concurrency c;
     _barrier := _barrier c; _semaphore := _semaphore c;
     _trigger := _trigger c |}.

Definition set_barrier (b : option Barrier) (c : Comparer) :=
  {| _engine_type := _engine_type c; _engines := _engines c;
     _compare_fn := _compare_fn c; _targets := _targets c;
     _output_keys := _output_keys c; _param_keys := _param_keys c;
     _preprocessed_keys := _preprocessed_keys c;
     _finalized := _finalized c; _concurrency := _concurrency c;
     _barrier := b; _semaphore := _semaphore c;
     _trigger := _trigger c |}.

Definition set_semaphore (s : option Semaphore) (c : Comparer) :=
  {| _engine_type := _engine_type c; _engines := _engines c;
     _compare_fn := _compare_fn c; _targets := _targets c;
     _output_keys := _output_keys c; _param_keys := _param_keys c;
     _preprocessed_keys := _preprocessed_keys c;
     _finalized := _finalized c; _concurrency := _concurrency c;
     _barrier := _barrier c; _semaphore := s;
     _trigger := _trigger c |}.

(** *** The synchronisation primitives

    A method of an attribute that is still [None] raises
    [AttributeError]. *)

Definition semaphore_acquire : M unit :=
  c <- get_self ;;
  match _semaphore c with
  | None => raise (AttributeError "acquire")
  | Some _ => emit EvSemAcquire
  end.

Definition semaphore_release : M unit :=
  c <- get_self ;;
  match _semaphore c with
  | None => raise (AttributeError "release")
  | Some _ => emit EvSemRelease
  end.

Definition barrier_wait : M unit :=
  c <- get_self ;;
  match _barrier c with
  | None => raise (AttributeError "wait")
  | Some b =>
      emit EvBarrierWait ;;;
      if broken b then raise BrokenBarrierError else ret tt
  end.

Definition barrier_abort : M unit :=
  c <- get_self ;;
  match _barrier c with
  | None => raise (AttributeError "abort")
  | Some b =>
      emit EvBarrierAbort ;;;
      modify (set_barrier (Some {| parties := parties b; broken := true |}))
  end.


(** *** Construction (lines 98-124) *)

(** Keyword arguments are passed explicitly; the defaults of the signature
    are [trigger=None], [compare_fn=_default_comparer], [concurrency=None],
    [outputs=True] and [params=False]. *)
Definition __init__ (trigger : option trigger_spec)
    (compare_fn : compare_fn_t Tensor) (concurrency : option nat)
    (outputs params : keys_arg) : Comparer :=
  {| _engine_type :=
       match trigger with None => None | Some _ => Some Trainer end;
     _engines := [];
     _compare_fn := compare_fn;
     _targets := [];
     _output_keys := keys_of_arg outputs;
     _param_keys := keys_of_arg params;
     _preprocessed_keys := None;
     _finalized := false;
     _concurrency := concurrency;
     _barrier := None;
     _semaphore := None;
     _trigger :=
       match trigger with
       | None => get_trigger (SpecInterval 1 "epoch")
       | Some t => get_trigger t
       end |}.

(** *** Key resolution (lines 126-142) *)

(** Iterating over an attribute that still holds a boolean is a
    [TypeError]. *)
Definition iter_keys (sel : key_sel) : result (list string) :=
  match sel with
  | SelKeys ks => Ok ks
  | _ => Raise (TypeError "'bool' object is not iterable")
  end.

(** The inner loop over [sdict.keys()] for one pattern: the keys appended
    and the [matched] flag. *)
Fixpoint scan_keys (tc_k : string) (sd_keys : list string)
    (preprocessed_keys : list string) (matched : bool)
  : list string * bool :=
  match sd_keys with
  | [] => (preprocessed_keys, matched)
  | sd_k :: rest =>
      if re_match tc_k sd_k
      then scan_keys tc_k rest (preprocessed_keys ++ [sd_k]) true
      else scan_keys tc_k rest preprocessed_keys matched
  end.

Fixpoint scan_patterns (patterns : list string) (sd_keys : list string)
    (preprocessed_keys : list string) : result (list string) :=
  match patterns with
  | [] => Ok preprocessed_keys
  | tc_k :: rest =>
      match scan_keys tc_k sd_keys preprocessed_keys false with
      | (acc, true) => scan_patterns rest sd_keys acc
      | (_, false) =>
          Raise (ValueError
                   ("didnt find a match for " ++ tc_k ++ " in the model")%string)
      end
  end.

Definition _preprocess_keys (c : Comparer) (model : Model)
  : result (list string) :=
  match _param_keys c with
  | SelFalse => Ok []
  | SelTrue => Ok (PyDict.keys (state_dict model))
  | SelKeys patterns =>
      scan_patterns patterns (PyDict.keys (state_dict model)) []
  end.

(** *** Capture of one Target Set (lines 144-160) *)

Definition _add_target {H} (handle : _ComparableHandler H)
    (models : pydict Model) (outputs : pydict Tensor) : M unit :=
  let targets : target_set := [] in
  c <- get_self ;;
  match _output_keys c with
  | SelTrue => modify (set_output_keys (SelKeys (PyDict.keys outputs)))
  | SelFalse => modify (set_output_keys (SelKeys []))
  | SelKeys _ => ret tt
  end ;;;
  c <- get_self ;;
  match _preprocessed_keys c with
  | None =>
      main <- lift (PyDict.getitem "main" models) ;;
      ks <- lift (_preprocess_keys c main) ;;
      modify (set_preprocessed_keys (Some ks))
  | Some _ => ret tt
  end ;;;
  c <- get_self ;;
  output_keys <- lift (iter_keys (_output_keys c)) ;;
  selected <- lift (PyDict.comprehension output_keys outputs []) ;;
  let targets := PyDict.update targets selected in
  preprocessed_keys <-
    lift (match _preprocessed_keys c with
          | Some ks => Ok ks
          | None => Raise (TypeError "object of type 'NoneType' has no len()")
          end) ;;
  targets <-
    (if (0 <? length preprocessed_keys)%nat then
       main <- lift (PyDict.getitem "main" models) ;;
       let sdict := state_dict main in
       params <- lift (PyDict.comprehension preprocessed_keys sdict []) ;;
       ret (PyDict.update targets params)
     else ret targets) ;;
  modify (fun c => set_targets (PyDict.set (name handle) targets (_targets c)) c).

(** *** Lines 162-164 *)
Definition _assert_incompatible_trigger (condition : bool) : M unit :=
  if negb condition
  then raise (ValueError "Engines have different triggers.")
  else ret tt.

(** *** The comparison round (lines 166-173) *)

Definition call_compare_fn (backend1 backend2 val_name : string)
    (out1 out2 : Tensor) : M unit :=
  emit (EvCompareFn backend1 backend2 val_name out1 out2) ;;;
  c <- get_self ;;
  match _compare_fn c backend1 backend2 val_name out1 out2 with
  | None => ret tt
  | Some e => raise e
  end.

Definition _compare_outs : M unit :=
  emit EvCompareOuts ;;;
  c <- get_self ;;
  let names := PyDict.keys (_engines c) in
  backend1 <- lift (match names with
                    | [] => Raise IndexError
                    | n :: _ => Ok n
                    end) ;;
  for_ (tl names) (fun backend2 =>
    c <- get_self ;;
    reference <- lift (PyDict.getitem backend1 (_targets c)) ;;
    for_ (PyDict.keys reference) (fun val_name =>
      c <- get_self ;;
      t1 <- lift (PyDict.getitem backend1 (_targets c)) ;;
      out1 <- lift (PyDict.getitem val_name t1) ;;
      t2 <- lift (PyDict.getitem backend2 (_targets c)) ;;
      out2 <- lift (PyDict.getitem val_name t2) ;;
      call_compare_fn backend1 backend2 val_name out1 out2)).

(** *** The post-step callback (lines 175-199) *)

Definition call_trigger (manager : _ManagerProxy) : M bool :=
  fun w =>
    match trigger_call (_trigger (self w)) manager (ext w) with
    | (r, e) => (r, {| self := self w; ext := e |}, [EvTrigger manager])
    end.

(** The block under [self._report_lock] (lines 188-194). *)
Definition capture {H} (handle : _ComparableHandler H)
    (models : pydict Model) (outputs : pydict Tensor) : M unit :=
  with_report_lock
    (_add_target handle models outputs ;;;
     c <- get_self ;;
     (if (length (PyDict.keys (_targets c))
           =? length (PyDict.keys (_engines c)))%nat
      then _compare_outs ;;; modify (set_targets [])
      else ret tt) ;;;
     c <- get_self ;;
     _assert_incompatible_trigger (negb (_finalized c))).

(** Lines 196-199. *)
Definition synchronize : M unit :=
  semaphore_release ;;;
  barrier_wait ;;;
  semaphore_acquire.

Definition _compare_targets {H} (handle : _ComparableHandler H)
    (models : pydict Model) (batch_idx : Z) (outputs : pydict Tensor)
  : M Val :=
  c <- get_self ;;
  entry <- lift (PyDict.getitem (name handle) (_engines c)) ;;
  let engine := fst (fst entry) in
  proceed <- match manager engine with
             | Some m => call_trigger {| _manager := m |}
             | None => ret true
             end ;;
  if negb proceed then ret py_None
  else
    capture handle models outputs ;;;
    synchronize ;;;
    ret py_None.

(** *** Registration (lines 201-216) *)

(** [str(type_engine)] and [str(engine)], as the messages print them. *)
Definition str_type (t : engine_type) : string :=
  match t with
  | Trainer => "<class 'pytorch_pfn_extras.training._trainer.Trainer'>"
  | Evaluator => "<class 'pytorch_pfn_extras.training._evaluator.Evaluator'>"
  | OtherType cls => ("<class '" ++ cls ++ "'>")%string
  end.

Variable str_engine : Engine -> string.

(** [type_engine in (_trainer.Trainer, _evaluator.Evaluator)] *)
Definition supported (t : engine_type) : bool :=
  engine_type_eqb t Trainer || engine_type_eqb t Evaluator.

(** The engine with its handler slot replaced by the wrapper (line 216).
    The tuple stored at line 215 refers to the same object. *)
Definition wrap_handler (nm : string) (engine : Engine) : Engine :=
  {| engine_class := engine_class engine;
     manager := manager engine;
     models := models engine;
     handler := Comparable {| _handler := handler engine;
                              name := nm;
                              iteration := 0 |} |}.

Definition add_engine (nm : string) (engine : Engine) (args : list Val)
    (kwargs : Val) : M unit :=
  let type_engine := engine_class engine in
  if negb (supported type_engine) then
    raise (ValueError
             ("Engine type " ++ str_type type_engine ++ " is not supported")%string)
  else
    c <- get_self ;;
    match _engine_type c with
    | None => modify (set_engine_type (Some type_engine))
    | Some t =>
        if negb (engine_type_eqb type_engine t)
        then raise (ValueError "All the engines must be of the same type")
        else ret tt
    end ;;;
    c <- get_self ;;
    if PyDict.mem nm (_engines c) then
      raise (ValueError
               ("Engine " ++ str_engine engine ++ " already registered")%string)
    else
      modify (fun c =>
        set_engines
          (PyDict.set nm (wrap_handler nm engine, args, kwargs) (_engines c)) c).

(** *** The worker of one engine (lines 218-229) *)

(** The call of [engine.run] on the stored arguments: the engine is
    external; its run calls the hooks of its handler and may do anything to
    the world. *)
Variable engine_run : Engine -> list Val -> Val -> M unit.

(** The block under [self._report_lock] (lines 222-224). *)
Definition finalize : M unit :=
  with_report_lock
    (modify (set_finalized true) ;;;
     c <- get_self ;;
     _assert_incompatible_trigger (length (_targets c) =? 0)%nat).

Definition run_engine (engine : Engine) (args : list Val) (kwargs : Val)
  : M unit :=
  try_finally
    (try_except_Exception
       (semaphore_acquire ;;;
        engine_run engine args kwargs ;;;
        finalize)
       barrier_abort)
    semaphore_release.

(** Lines 231-232 and 252-253. *)
Definition dump : M unit := raise NotImplementedError.
Definition compare_with_dump : M unit := raise NotImplementedError.

(** *** [compare], lines 241-244

    The creation of the barrier and of the semaphore.  The thread pool that
    follows runs [run_engine] once per registered engine, concurrently. *)
Definition compare_setup : M unit :=
  c <- get_self ;;
  let n_workers := length (_engines c) in
  modify (set_barrier (Some {| parties := n_workers; broken := false |})) ;;;
  modify (set_semaphore
            (Some {| sem_value := match _concurrency c with
                                  | None => n_workers
                                  | Some k => k
                                  end |})).

(** ** The handler wrapper (lines 17-63) *)

(** A method of a handler object of type [H]: it runs in the world and may
    update the handler itself. *)
Definition meth (H A : Type) : Type :=
  H -> World -> result A * World * list Event * H.

(** The hooks of [BaseHandler] that the wrapper overrides. *)
Class BaseHandler (H : Type) : Type := {
  convert_batch : Val -> meth H Val;
  train_setup : Engine -> Val -> meth H Val;
  train_epoch_begin : Engine -> Val -> meth H Val;
  train_epoch_end : Engine -> meth H Val;
  train_validation_begin : Engine -> meth H Val;
  train_validation_end : Engine -> Engine -> meth H Val;
  train_step : Engine -> Z -> Val -> Val -> meth H Val;
  train_post_step : Engine -> Z -> Val -> pydict Tensor -> meth H Val;
  eval_loop_begin : Engine -> meth H Val;
  eval_step : Engine -> Z -> Val -> Val -> meth H Val;
  eval_loop_end : Engine -> meth H Val;
  eval_post_step : Engine -> Z -> Val -> pydict Tensor -> meth H Val
}.

Section Wrapper.
Context {H : Type} `{BaseHandler H}.

(** [self._save_outs_cb] *)
Variable _save_outs_cb :
  _ComparableHandler H -> pydict Model -> Z -> pydict Tensor -> M Val.

(** [return self._handler.m(...)] *)
Definition delegate {A} (m : meth H A) : meth (_ComparableHandler H) A :=
  fun this w =>
    match m (_handler this) w with
    | (r, w1, ev, h) => (r, w1, ev, set_handler this h)
    end.

(** Lines 45-48 and 60-63: [self._handler.m(...)], [self.iteration += 1],
    [return self._save_outs_cb(self, engine.models, batch_idx, outputs)]. *)
Definition post_step (m : meth H Val) (engine : Engine) (batch_idx : Z)
    (outputs : pydict Tensor) : meth (_ComparableHandler H) Val :=
  fun this w =>
    match m (_handler this) w with
    | (Raise e, w1, ev1, h) => (Raise e, w1, ev1, set_handler this h)
    | (Ok _, w1, ev1, h) =>
        let this := incr_iteration (set_handler this h) in
        match _save_outs_cb this (models engine) batch_idx outputs w1 with
        | (r, w2, ev2) => (r, w2, ev1 ++ ev2, this)
        end
    end.

#[export] Instance ComparableHandler_BaseHandler
  : BaseHandler (_ComparableHandler H) := {
  convert_batch args := delegate (convert_batch args);
  train_setup trainer loader := delegate (train_setup trainer loader);
  train_epoch_begin trainer loader :=
    delegate (train_epoch_begin trainer loader);
  train_epoch_end trainer := delegate (train_epoch_end trainer);
  train_validation_begin evaluator :=
    delegate (train_validation_begin evaluator);
  train_validation_end trainer evaluator :=
    delegate (train_validation_end trainer evaluator);
  train_step trainer batch_idx batch complete_fn :=
    delegate (train_step trainer batch_idx batch complete_fn);
  train_post_step trainer batch_idx batch outputs :=
    post_step (train_post_step trainer batch_idx batch outputs)
      trainer batch_idx outputs;
  eval_loop_begin evaluator := delegate (eval_loop_begin evaluator);
  eval_step evaluator batch_idx batch complete_fn :=
    delegate (eval_step evaluator batch_idx batch complete_fn);
  eval_loop_end evaluator := delegate (eval_loop_end evaluator);
  eval_post_step evaluator batch_idx batch outputs :=
    post_step (eval_post_step evaluator batch_idx batch outputs)
      evaluator batch_idx outputs
}.

(** The hook [outer] of the wrapper does what the hook [inner] of the
    wrapped handler does, returns what it returns, and keeps the name and
    the iteration counter of the wrapper. *)
Definition forwards {A} (outer : meth (_ComparableHandler H) A)
    (inner : meth H A) : Prop :=
  forall this w,
    match inner (_handler this) w with
    | (r, w1, ev, h) =>
        outer this w
        = (r, w1, ev,
           {| _handler := h; name := name this;
              iteration := iteration this |})
    end.

(** The post-step hook [outer] of the wrapper first runs the hook [inner] of
    the wrapped handler; when that returns, it adds one to the iteration
    counter and returns what the callback returns on the wrapper, the models
    of the engine, the batch index and the outputs. *)
Definition forwards_then_calls_back
    (outer : meth (_ComparableHandler H) Val) (inner : meth H Val)
    (engine : Engine) (batch_idx : Z) (outputs : pydict Tensor) : Prop :=
  forall this w,
    match inner (_handler this) w with
    | (Raise e, w1, ev1, h) =>
        outer this w
        = (Raise e, w1, ev1,
           {| _handler := h; name := name this;
              iteration := iteration this |})
    | (Ok _, w1, ev1, h) =>
        let this' := {| _handler := h; name := name this;
                        iteration := (iteration this + 1)%Z |} in
        let y := _save_outs_cb this' (models engine) batch_idx outputs w1 in
        outer this w = (result_of y, world_of y, ev1 ++ events_of y, this')
    end.
End Wrapper.

(** ** Reachable worlds and the invariant of the Target Set collection *)

(** The keys of the Target Set that [_add_target] builds from the resolved
    output keys and parameter keys, in dictionary order. *)
Definition target_keys (output_keys preprocessed_keys : list string)
  : list string :=
  let base := PyDict.insert_keys (PyDict.insert_keys output_keys []) [] in
  if (0 <? length preprocessed_keys)%nat
  then PyDict.insert_keys (PyDict.insert_keys preprocessed_keys []) base
  else base.

Record consistent (c : Comparer) : Prop := {
  engines_nodup : NoDup (PyDict.keys (_engines c));
  targets_nodup : NoDup (PyDict.keys (_targets c));
  targets_registered :
    incl (PyDict.keys (_targets c)) (PyDict.keys (_engines c));
  targets_same_keys :
    forall n T, In (n, T) (_targets c) ->
    exists oks pks,
      _output_keys c = SelKeys oks /\
      _preprocessed_keys c = Some pks /\
      PyDict.keys T = target_keys oks pks
}.

(** One step of the Comparer: a call of a public method, a callback from a
    wrapped handler, one of the blocks of a worker, or a move of the
    outside world. *)
Inductive step : World -> World -> Prop :=
| step_add_engine nm engine args kwargs w :
    step w (world_of (add_engine nm engine args kwargs w))
| step_compare_setup w :
    step w (world_of (compare_setup w))
| step_compare_targets H (handle : _ComparableHandler H)
    models batch_idx outputs w :
    step w (world_of (_compare_targets handle models batch_idx outputs w))
| step_finalize w :
    step w (world_of (finalize w))
| step_barrier_abort w :
    step w (world_of (barrier_abort w))
| step_ext w e :
    step w {| self := self w; ext := e |}.

Inductive steps : World -> World -> Prop :=
| steps_refl w : steps w w
| steps_step w1 w2 w3 : steps w1 w2 -> step w2 w3 -> steps w1 w3.

Definition initial (w : World) : Prop :=
  exists trigger compare_fn concurrency outputs params e,
    w = {| self := __init__ trigger compare_fn concurrency outputs params;
           ext := e |}.

Definition reachable (w : World) : Prop :=
  exists w0, initial w0 /\ steps w0 w.

(** The key selections [o] and [p] extend those of [c]: a selection that is
    already resolved in [c] stays what it is. *)
Definition refines_sel (c : Comparer) (o : key_sel)
    (p : option (list string)) : Prop :=
  (forall oks, _output_keys c = SelKeys oks -> o = SelKeys oks) /\
  (forall pks, _preprocessed_keys c = Some pks -> p = Some pks).

(** The call of the Comparison Function that one iteration of the inner loop
    of [_compare_outs] makes, and the calls of a whole round. *)
Definition compare_event (c : Comparer) (backend1 backend2 val_name : string)
  : list Event :=
  match PyDict.get backend1 (_targets c), PyDict.get backend2 (_targets c) with
  | Some t1, Some t2 =>
      match PyDict.get val_name t1, PyDict.get val_name t2 with
      | Some out1, Some out2 =>
          [EvCompareFn backend1 backend2 val_name out1 out2]
      | _, _ => []
      end
  | _, _ => []
  end.

Definition round_calls (c : Comparer) : list Event :=
  match PyDict.keys (_engines c) with
  | [] => []
  | backend1 :: others =>
      match PyDict.get backend1 (_targets c) with
      | Some t1 =>
          flat_map (fun backend2 =>
                      flat_map (compare_event c backend1 backend2)
                        (PyDict.keys t1))
            others
      | None => []
      end
  end.

(** The error of [_assert_incompatible_trigger], the world with the
    Target Set collection reset (line 193), and the test of line 190. *)
Definition trigger_mismatch : exn :=
  ValueError "Engines have different triggers.".

Definition cleared (w : World) : World :=
  {| self := set_targets [] (self w); ext := ext w |}.

Definition full (w : World) : bool :=
  (length (PyDict.keys (_targets (self w)))
   =? length (PyDict.keys (_engines (self w))))%nat.

(** What a capture may change of the Comparer: the Target Set collection
    and the two key selections. *)
Definition capture_frame (c c' : Comparer) : Prop :=
  exists T o p,
    c' = set_targets T (set_preprocessed_keys p (set_output_keys o c)).

(** The world after [self._barrier.abort()] on the barrier [b]. *)
Definition aborted (b : Barrier) (w : World) : World :=
  {| self := set_barrier (Some {| parties := parties b; broken := true |})
               (self w);
     ext := ext w |}.

(** No call of the Comparison Function in the round raises. *)
Definition round_passes (c : Comparer) (backend1 : string)
    (others : list string) : Prop :=
  forall backend2 val_name t1 t2 out1 out2,
    In backend2 others ->
    PyDict.get backend1 (_targets c) = Some t1 ->
    PyDict.get backend2 (_targets c) = Some t2 ->
    PyDict.get val_name t1 = Some out1 ->
    PyDict.get val_name t2 = Some out2 ->
    _compare_fn c backend1 backend2 val_name out1 out2 = None.

(** Every event that [c] emits satisfies [P]. *)
Definition emits (P : Event -> Prop) {A} (c : M A) : Prop :=
  forall w, Forall P (events_of (c w)).

Definition not_trigger (ev : Event) : Prop :=
  match ev with
  | EvTrigger _ => False
  | _ => True
  end.

(** The error of line 140. *)
Definition no_match_error (tc_k : string) : exn :=
  ValueError ("didnt find a match for " ++ tc_k ++ " in the model")%string.

(** A computation that leaves the world as it found it. *)
Definition pure_world {A} (c : M A) : Prop :=
  forall w, world_of (c w) = w.

(** Every engine has a Target Set, and the sets of the other engines have
    the keys of the first one. *)
Definition round_ready (c : Comparer) (backend1 : string)
    (others : list string) (t1 : target_set) : Prop :=
  PyDict.keys (_engines c) = backend1 :: others /\
  PyDict.get backend1 (_targets c) = Some t1 /\
  forall backend2, In backend2 others ->
    exists t2, PyDict.get backend2 (_targets c) = Some t2 /\
               forall k, In k (PyDict.keys t1) -> In k (PyDict.keys t2).


(** The calls among [calls] that are made, in order, when the Comparison
    Function is [fn]: up to and including the first one that raises. *)
Fixpoint run_calls (fn : compare_fn_t Tensor) (calls : list Event)
  : result unit * list Event :=
  match calls with
  | [] => (Ok tt, [])
  | EvCompareFn b1 b2 k v1 v2 :: rest =>
      match fn b1 b2 k v1 v2 with
      | Some e => (Raise e, [EvCompareFn b1 b2 k v1 v2])
      | None =>
          (fst (run_calls fn rest),
           EvCompareFn b1 b2 k v1 v2 :: snd (run_calls fn rest))
      end
  | ev :: rest => (fst (run_calls fn rest), ev :: snd (run_calls fn rest))
  end.

(** The call [ev] of the Comparison Function [fn] returns: it does not
    raise. *)
Definition call_passes (fn : compare_fn_t Tensor) (ev : Event) : Prop :=
  match ev with
  | EvCompareFn b1 b2 k v1 v2 => fn b1 b2 k v1 v2 = None
  | _ => True
  end.

(** What an event does to the counter of the semaphore, and the net effect
    of a list of events: releases minus acquisitions. *)
Definition sem_delta (ev : Event) : Z :=
  match ev with
  | EvSemRelease => 1
  | EvSemAcquire => -1
  | _ => 0
  end.

Definition sem_balance (evs : list Event) : Z :=
  fold_right (fun ev z => (sem_delta ev + z)%Z) 0%Z evs.

(** Every registered engine is of the accepted kind, one of the two
    supported classes. *)
Definition same_kind (c : Comparer) : Prop :=
  forall nm entry,
    In (nm, entry) (_engines c) ->
    _engine_type c = Some (engine_class (fst (fst entry))) /\
    supported (engine_class (fst (fst entry))) = true.

(** The handler slot of every registered engine holds the wrapper that
    carries the name the engine is registered under. *)
Definition named_wrappers (c : Comparer) : Prop :=
  forall nm entry,
    In (nm, entry) (_engines c) ->
    exists h, handler (fst (fst entry)) = Comparable h /\ name h = nm.

(** ** Facts about dictionaries *)

Section DictFacts.
Variable V : Type.
Implicit Types (d : pydict V) (k : string) (v : V).

Lemma mem_keys k d :
  PyDict.mem k d = existsb (String.eqb k) (PyDict.keys d).
Proof.
  unfold PyDict.mem.
  induction d as [|[k' v'] d IH]; simpl; [reflexivity|].
  destruct (String.eqb k k'); [reflexivity|exact IH].
Qed.

Lemma existsb_eqb_In k (ks : list string) :
  existsb (String.eqb k) ks = true <-> In k ks.
Proof.
  rewrite existsb_exists. split.
  - intros [x [Hin Heq]]. apply String.eqb_eq in Heq. now subst.
  - intros Hin. exists k. split; [assumption|apply String.eqb_refl].
Qed.

Lemma mem_In k d : PyDict.mem k d = true <-> In k (PyDict.keys d).
Proof. rewrite mem_keys. apply existsb_eqb_In. Qed.

Lemma get_Some_In k v d : PyDict.get k d = Some v -> In (k, v) d.
Proof.
  induction d as [|[k' v'] d IH]; simpl; [discriminate|].
  destruct (String.eqb k k') eqn:E.
  - apply String.eqb_eq in E. intros [= ->]. subst. now left.
  - intros Hg. right. now apply IH.
Qed.

Lemma In_keys_get k d :
  In k (PyDict.keys d) -> exists v, PyDict.get k d = Some v.
Proof.
  induction d as [|[k' v'] d IH]; simpl; [contradiction|].
  intros Hin. destruct (String.eqb k k') eqn:E; [now exists v'|].
  destruct Hin as [->|Hin]; [now rewrite String.eqb_refl in E|now apply IH].
Qed.

Lemma get_In_keys k v d : PyDict.get k d = Some v -> In k (PyDict.keys d).
Proof.
  intros Hg. apply get_Some_In in Hg.
  change k with (fst (k, v)). now apply in_map.
Qed.

Lemma In_get_nodup k v d :
  NoDup (PyDict.keys d) -> In (k, v) d -> PyDict.get k d = Some v.
Proof.
  induction d as [|[k' v'] d IH]; simpl; [contradiction|].
  intros Hnd Hin. inversion Hnd as [|? ? Hnotin Hnd']; subst.
  destruct Hin as [[= -> ->]|Hin]; [now rewrite String.eqb_refl|].
  destruct (String.eqb k k') eqn:E; [|now apply IH].
  apply String.eqb_eq in E. subst. exfalso. apply Hnotin.
  change k' with (fst (k', v)). now apply in_map.
Qed.

Lemma keys_set k v d :
  PyDict.keys (PyDict.set k v d) = PyDict.insert_key k (PyDict.keys d).
Proof.
  unfold PyDict.insert_key.
  induction d as [|[k' v'] d IH]; simpl; [reflexivity|].
  destruct (String.eqb k k'); simpl; [reflexivity|].
  rewrite IH. now destruct (existsb (String.eqb k) (PyDict.keys d)).
Qed.

Lemma get_set_same k v d : PyDict.get k (PyDict.set k v d) = Some v.
Proof.
  induction d as [|[k' v'] d IH]; simpl; [now rewrite String.eqb_refl|].
  destruct (String.eqb k k') eqn:E; simpl; now rewrite E.
Qed.

Lemma get_set_other k k' v d :
  k' <> k -> PyDict.get k' (PyDict.set k v d) = PyDict.get k' d.
Proof.
  intros Hne. induction d as [|[k0 v0] d IH]; simpl.
  - destruct (String.eqb k' k) eqn:E; [|reflexivity].
    apply String.eqb_eq in E. contradiction.
  - destruct (String.eqb k k0) eqn:E; simpl.
    + apply String.eqb_eq in E. subst k0.
      destruct (String.eqb k' k) eqn:E'; [|reflexivity].
      apply String.eqb_eq in E'. contradiction.
    + now rewrite IH.
Qed.

Lemma In_set k v d n x :
  In (n, x) (PyDict.set k v d) -> (n = k /\ x = v) \/ In (n, x) d.
Proof.
  induction d as [|[k0 v0] d IH]; simpl.
  - intros [[= <- <-]|[]]. now left.
  - destruct (String.eqb k k0) eqn:E; simpl.
    + apply String.eqb_eq in E. subst k0.
      intros [[= <- <-]|Hin]; [now left|right; now right].
    + intros [Heq|Hin]; [right; now left|].
      destruct (IH Hin) as [?|?]; [now left|right; now right].
Qed.

Lemma insert_key_In k ks x :
  In x (PyDict.insert_key k ks) <-> x = k \/ In x ks.
Proof.
  unfold PyDict.insert_key.
  destruct (existsb (String.eqb k) ks) eqn:E.
  - apply existsb_eqb_In in E. split; [now right|].
    intros [->|?]; assumption.
  - rewrite in_app_iff. simpl. intuition.
Qed.

Lemma insert_key_nodup k ks : NoDup ks -> NoDup (PyDict.insert_key k ks).
Proof.
  unfold PyDict.insert_key. intros Hnd.
  destruct (existsb (String.eqb k) ks) eqn:E; [assumption|].
  assert (Hnotin : ~ In k ks).
  { intros Hin. apply existsb_eqb_In in Hin. congruence. }
  clear E. induction Hnd as [|x l Hx Hnd IH]; simpl.
  - constructor; [intros []|constructor].
  - constructor.
    + rewrite in_app_iff. simpl. intros [?|[->|[]]]; [contradiction|].
      apply Hnotin. now left.
    + apply IH. intros Hin. apply Hnotin. now right.
Qed.

Lemma insert_key_length k ks :
  length (PyDict.insert_key k ks)
  = if existsb (String.eqb k) ks then length ks else S (length ks).
Proof.
  unfold PyDict.insert_key.
  destruct (existsb (String.eqb k) ks); [reflexivity|].
  rewrite length_app. simpl. lia.
Qed.

Lemma comprehension_keys (ks : list string) (src acc res : pydict V) :
  PyDict.comprehension ks src acc = Ok res ->
  PyDict.keys res = PyDict.insert_keys ks (PyDict.keys acc).
Proof.
  revert acc. induction ks as [|k ks IH]; simpl; intros acc.
  - now intros [= ->].
  - destruct (PyDict.getitem k src) as [v|e]; [|discriminate].
    intros Hc. rewrite (IH _ Hc), keys_set. reflexivity.
Qed.

Lemma update_keys (d e : pydict V) :
  PyDict.keys (PyDict.update d e)
  = PyDict.insert_keys (PyDict.keys e) (PyDict.keys d).
Proof.
  unfold PyDict.update, PyDict.insert_keys. revert d.
  induction e as [|[k v] e IH]; simpl; intros d; [reflexivity|].
  now rewrite IH, keys_set.
Qed.
End DictFacts.

(** ** Symbolic execution of computations *)

Lemma bind_ret {A B} (a : A) (k : A -> M B) w : bind (ret a) k w = k a w.
Proof. unfold bind, ret. now destruct (k a w) as [[r w2] ev2]. Qed.

Lemma bind_raise {A B} (e : exn) (k : A -> M B) w :
  bind (raise e) k w = (Raise e, w, []).
Proof. reflexivity. Qed.

Lemma bind_get_self {B} (k : Comparer -> M B) w :
  bind get_self k w = k (self w) w.
Proof. unfold bind, get_self. now destruct (k (self w) w) as [[r w2] ev2]. Qed.

Lemma bind_lift_Ok {A B} (a : A) (k : A -> M B) w :
  bind (lift (Ok a)) k w = k a w.
Proof. unfold bind, lift. now destruct (k a w) as [[r w2] ev2]. Qed.

Lemma bind_lift_Raise {A B} (e : exn) (k : A -> M B) w :
  bind (lift (Raise e)) k w = (Raise e, w, []).
Proof. reflexivity. Qed.

Lemma bind_modify {B} (f : Comparer -> Comparer) (k : unit -> M B) w :
  bind (modify f) k w = k tt {| self := f (self w); ext := ext w |}.
Proof.
  unfold bind, modify.
  now destruct (k tt {| self := f (self w); ext := ext w |}) as [[r w2] ev2].
Qed.

Lemma bind_emit {B} (e : Event) (k : unit -> M B) w :
  bind (emit e) k w
  = (result_of (k tt w), world_of (k tt w), e :: events_of (k tt w)).
Proof. unfold bind, emit. now destruct (k tt w) as [[r w2] ev2]. Qed.

Lemma bind_assoc {A B C} (c : M A) (k : A -> M B) (k' : B -> M C) w :
  bind (bind c k) k' w = bind c (fun a => bind (k a) k') w.
Proof.
  unfold bind. destruct (c w) as [[[a|e] w1] ev1]; [|reflexivity].
  destruct (k a w1) as [[[b|e] w2] ev2]; [|reflexivity].
  destruct (k' b w2) as [[r w3] ev3]. now rewrite app_assoc.
Qed.

Lemma run_eta {A} (x : result A * World * list Event) :
  x = (result_of x, world_of x, events_of x).
Proof. now destruct x as [[r w] ev]. Qed.

Lemma world_eta (w : World) : {| self := self w; ext := ext w |} = w.
Proof. now destruct w. Qed.

Ltac fields :=
  cbn [self ext _engine_type _engines _compare_fn _targets _output_keys
       _param_keys _preprocessed_keys _finalized _concurrency _barrier
       _semaphore _trigger set_engine_type set_engines set_targets
       set_output_keys set_preprocessed_keys set_finalized set_barrier
       set_semaphore iter_keys world_of result_of events_of fst snd] in *.

Ltac mstep_in H :=
  first
    [ rewrite bind_get_self in H
    | rewrite bind_ret in H
    | rewrite bind_raise in H
    | rewrite bind_lift_Ok in H
    | rewrite bind_lift_Raise in H
    | rewrite bind_modify in H
    | rewrite bind_assoc in H ];
  cbn beta iota in H.

Ltac mrun H := repeat (mstep_in H; fields).

Ltac mstep :=
  first
    [ rewrite bind_get_self
    | rewrite bind_ret
    | rewrite bind_raise
    | rewrite bind_lift_Ok
    | rewrite bind_lift_Raise
    | rewrite bind_modify
    | rewrite bind_assoc ];
  cbn beta iota.

Ltac msimpl := repeat (mstep; fields).

Ltac mcase H :=
  match type of H with
  | bind (lift ?x) _ _ = _ => destruct x eqn:?
  | context [match ?x with _ => _ end] => destruct x eqn:?
  end.

Lemma keys_update_outputs (oks : list string) (a outputs : pydict Tensor) :
  PyDict.comprehension oks outputs [] = Ok a ->
  PyDict.keys (PyDict.update (V:=Tensor) [] a)
  = PyDict.insert_keys (PyDict.insert_keys oks []) [].
Proof.
  intros Ha. now rewrite update_keys, (comprehension_keys _ _ _ Ha).
Qed.

Lemma keys_update_params (oks pks : list string)
    (a a1 outputs sdict : pydict Tensor) :
  PyDict.comprehension oks outputs [] = Ok a ->
  PyDict.comprehension pks sdict [] = Ok a1 ->
  PyDict.keys (PyDict.update (PyDict.update [] a) a1)
  = PyDict.insert_keys (PyDict.insert_keys pks [])
      (PyDict.insert_keys (PyDict.insert_keys oks []) []).
Proof.
  intros Ha Ha1.
  now rewrite !update_keys, (comprehension_keys _ _ _ Ha),
    (comprehension_keys _ _ _ Ha1).
Qed.

Lemma _add_target_spec {H} (handle : _ComparableHandler H)
    (ms : pydict Model) (outputs : pydict Tensor) w r w1 ev :
  _add_target handle ms outputs w = (r, w1, ev) ->
  exists o p,
    refines_sel (self w) o p /\ ev = [] /\ ext w1 = ext w /\
    let c' := set_preprocessed_keys p (set_output_keys o (self w)) in
    match r with
    | Raise _ => self w1 = c'
    | Ok _ =>
        exists oks pks T,
          o = SelKeys oks /\ p = Some pks /\
          PyDict.keys T = target_keys oks pks /\
          self w1 = set_targets
                      (PyDict.set (name handle) T (_targets (self w))) c'
    end.
Proof.
  unfold _add_target. intros Hrun. mrun Hrun.
  repeat (mcase Hrun; mrun Hrun).
  all: unfold modify, ret in Hrun; fields.
  all: injection Hrun as Hr Hw Hev.
  all: exists (_output_keys (self w1)), (_preprocessed_keys (self w1)).
  all: subst r w1 ev.
  all: destruct w as [c x]; destruct c; fields; subst.
  all: unfold refines_sel; fields.
  all: repeat split; try congruence.
  all: repeat match goal with
             | E : Ok _ = Ok _ |- _ => injection E as <-
             | E : Some _ = Some _ |- _ => injection E as <-
             end.
  all: do 3 eexists; split; [reflexivity|]; split; [reflexivity|];
    split; [|reflexivity].
  all: unfold target_keys;
    match goal with E : (0 <? _)%nat = _ |- _ => rewrite E end.
  all: first [ eapply keys_update_params; eassumption
             | eapply keys_update_outputs; eassumption ].
Qed.

(** ** The comparison round *)

Lemma for_ok {A} (l : list A) (body : A -> M unit) (f : A -> list Event) w :
  (forall x, In x l -> body x w = (Ok tt, w, f x)) ->
  for_ l body w = (Ok tt, w, flat_map f l).
Proof.
  induction l as [|x l IH]; intros Hbody; simpl; [reflexivity|].
  unfold bind. rewrite (Hbody x (or_introl eq_refl)).
  rewrite IH; [reflexivity|]. intros y Hy. apply Hbody. now right.
Qed.

Lemma flat_map_singletons {A B} (f : A -> list B) (l : list A) :
  (forall x, In x l -> length (f x) = 1) ->
  length (flat_map f l) = length l.
Proof.
  induction l as [|x l IH]; intros Hf; simpl; [reflexivity|].
  rewrite length_app, (Hf x (or_introl eq_refl)), IH; [reflexivity|].
  intros y Hy. apply Hf. now right.
Qed.

Lemma flat_map_const_length {A B} (f : A -> list B) (l : list A) (n : nat) :
  (forall x, In x l -> length (f x) = n) ->
  length (flat_map f l) = length l * n.
Proof.
  induction l as [|x l IH]; intros Hf; simpl; [reflexivity|].
  rewrite length_app, (Hf x (or_introl eq_refl)), IH; [lia|].
  intros y Hy. apply Hf. now right.
Qed.

Lemma call_compare_fn_ok backend1 backend2 val_name out1 out2 w :
  _compare_fn (self w) backend1 backend2 val_name out1 out2 = None ->
  call_compare_fn backend1 backend2 val_name out1 out2 w
  = (Ok tt, w, [EvCompareFn backend1 backend2 val_name out1 out2]).
Proof.
  intros Hfn. unfold call_compare_fn. rewrite bind_emit. msimpl.
  now rewrite Hfn.
Qed.

(** The statements of one iteration of the inner loop. *)
Lemma compare_one_ok backend1 backend2 val_name t1 t2 out1 out2 w :
  PyDict.get backend1 (_targets (self w)) = Some t1 ->
  PyDict.get backend2 (_targets (self w)) = Some t2 ->
  PyDict.get val_name t1 = Some out1 ->
  PyDict.get val_name t2 = Some out2 ->
  _compare_fn (self w) backend1 backend2 val_name out1 out2 = None ->
  (c <- get_self ;;
   t1 <- lift (PyDict.getitem backend1 (_targets c)) ;;
   out1 <- lift (PyDict.getitem val_name t1) ;;
   t2 <- lift (PyDict.getitem backend2 (_targets c)) ;;
   out2 <- lift (PyDict.getitem val_name t2) ;;
   call_compare_fn backend1 backend2 val_name out1 out2) w
  = (Ok tt, w, compare_event (self w) backend1 backend2 val_name).
Proof.
  intros H1 H2 Ho1 Ho2 Hfn. unfold compare_event, PyDict.getitem.
  msimpl. rewrite H1. msimpl. rewrite Ho1. msimpl. rewrite H2. msimpl.
  rewrite Ho2. msimpl. now apply call_compare_fn_ok.
Qed.

Lemma compare_event_ready c backend1 others t1 backend2 val_name :
  round_ready c backend1 others t1 ->
  In backend2 others -> In val_name (PyDict.keys t1) ->
  exists t2 out1 out2,
    PyDict.get backend2 (_targets c) = Some t2 /\
    PyDict.get val_name t1 = Some out1 /\
    PyDict.get val_name t2 = Some out2 /\
    compare_event c backend1 backend2 val_name
    = [EvCompareFn backend1 backend2 val_name out1 out2].
Proof.
  intros (_ & Hg1 & Hothers) Hb2 Hk.
  destruct (Hothers _ Hb2) as (t2 & Hg2 & Hsub).
  destruct (In_keys_get _ _ Hk) as [out1 Ho1].
  destruct (In_keys_get _ _ (Hsub _ Hk)) as [out2 Ho2].
  exists t2, out1, out2. unfold compare_event.
  now rewrite Hg1, Hg2, Ho1, Ho2.
Qed.

Lemma _compare_outs_ok w backend1 others t1 :
  round_ready (self w) backend1 others t1 ->
  round_passes (self w) backend1 others ->
  _compare_outs w = (Ok tt, w, EvCompareOuts :: round_calls (self w)).
Proof.
  intros Hready Hfn. pose proof Hready as (Hnames & Hg1 & Hothers).
  unfold _compare_outs, round_calls. rewrite bind_emit. msimpl.
  rewrite Hnames. msimpl. rewrite Hg1. cbn [tl].
  rewrite (for_ok _ _
             (fun backend2 =>
                flat_map (compare_event (self w) backend1 backend2)
                  (PyDict.keys t1))); [reflexivity|].
  intros backend2 Hb2. msimpl. unfold PyDict.getitem at 1. rewrite Hg1.
  msimpl. apply for_ok. intros val_name Hk.
  destruct (compare_event_ready _ _ Hready Hb2 Hk)
    as (t2 & out1 & out2 & Hg2 & Ho1 & Ho2 & _).
  eapply compare_one_ok; eauto.
Qed.

Lemma round_calls_length c backend1 others t1 :
  round_ready c backend1 others t1 ->
  length (round_calls c)
  = (length (PyDict.keys (_engines c)) - 1) * length (PyDict.keys t1).
Proof.
  intros Hready. pose proof Hready as (Hnames & Hg1 & _).
  unfold round_calls. rewrite Hnames, Hg1. cbn [length].
  rewrite Nat.sub_succ, Nat.sub_0_r.
  apply flat_map_const_length. intros backend2 Hb2.
  apply flat_map_singletons. intros k Hk.
  destruct (compare_event_ready _ _ Hready Hb2 Hk)
    as (t2 & out1 & out2 & _ & _ & _ & ->).
  reflexivity.
Qed.

Lemma round_calls_shape c backend1 others t1 :
  round_ready c backend1 others t1 ->
  Forall (fun ev =>
            exists backend2 val_name t2 out1 out2,
              ev = EvCompareFn backend1 backend2 val_name out1 out2 /\
              In backend2 others /\
              PyDict.get val_name t1 = Some out1 /\
              PyDict.get backend2 (_targets c) = Some t2 /\
              PyDict.get val_name t2 = Some out2)
         (round_calls c).
Proof.
  intros Hready. pose proof Hready as (Hnames & Hg1 & _).
  unfold round_calls. rewrite Hnames, Hg1.
  apply Forall_forall. intros ev Hev.
  apply in_flat_map in Hev. destruct Hev as (backend2 & Hb2 & Hev).
  apply in_flat_map in Hev. destruct Hev as (k & Hk & Hev).
  destruct (compare_event_ready _ _ Hready Hb2 Hk)
    as (t2 & out1 & out2 & Hg2 & Ho1 & Ho2 & Heq).
  rewrite Heq in Hev. destruct Hev as [<-|[]].
  now exists backend2, k, t2, out1, out2.
Qed.

Lemma round_calls_cover c backend1 others t1 backend2 val_name :
  round_ready c backend1 others t1 ->
  In backend2 others -> In val_name (PyDict.keys t1) ->
  exists out1 out2,
    In (EvCompareFn backend1 backend2 val_name out1 out2) (round_calls c).
Proof.
  intros Hready Hb2 Hk. pose proof Hready as (Hnames & Hg1 & _).
  destruct (compare_event_ready _ _ Hready Hb2 Hk)
    as (t2 & out1 & out2 & _ & _ & _ & Heq).
  exists out1, out2. unfold round_calls. rewrite Hnames, Hg1.
  apply in_flat_map. exists backend2. split; [assumption|].
  apply in_flat_map. exists val_name. split; [assumption|].
  rewrite Heq. now left.
Qed.

Lemma consistent_round_ready c backend1 others :
  consistent c ->
  PyDict.keys (_engines c) = backend1 :: others ->
  (forall n, In n (PyDict.keys (_engines c)) ->
             In n (PyDict.keys (_targets c))) ->
  exists t1, round_ready c backend1 others t1.
Proof.
  intros Hc Hnames Hall.
  assert (Hkeys : forall n, In n (backend1 :: others) ->
            exists t, PyDict.get n (_targets c) = Some t).
  { intros n Hn. apply In_keys_get, Hall. now rewrite Hnames. }
  destruct (Hkeys backend1 (or_introl eq_refl)) as [t1 Hg1].
  exists t1. split; [assumption|]. split; [assumption|].
  intros backend2 Hb2.
  destruct (Hkeys backend2 (or_intror Hb2)) as [t2 Hg2].
  exists t2. split; [assumption|].
  destruct (targets_same_keys Hc _ _ (get_Some_In _ _ Hg1))
    as (oks & pks & Ho & Hp & Hk1).
  destruct (targets_same_keys Hc _ _ (get_Some_In _ _ Hg2))
    as (oks' & pks' & Ho' & Hp' & Hk2).
  rewrite Ho in Ho'. rewrite Hp in Hp'.
  injection Ho' as <-. injection Hp' as <-.
  intros k. now rewrite Hk1, Hk2.
Qed.

(** ** Computations that leave the world as it is *)

Lemma pure_ret {A} (a : A) : pure_world (ret a).
Proof. now intros w. Qed.

Lemma pure_raise {A} (e : exn) : pure_world (raise (A:=A) e).
Proof. now intros w. Qed.

Lemma pure_lift {A} (r : result A) : pure_world (lift r).
Proof. now intros w. Qed.

Lemma pure_emit (e : Event) : pure_world (emit e).
Proof. now intros w. Qed.

Lemma pure_get_self : pure_world get_self.
Proof. now intros w. Qed.

Lemma pure_bind {A B} (c : M A) (k : A -> M B) :
  pure_world c -> (forall a, pure_world (k a)) -> pure_world (bind c k).
Proof.
  intros Hc Hk w. unfold bind. specialize (Hc w).
  destruct (c w) as [[[a|e] w1] ev1]; cbn in Hc; subst w1; [|reflexivity].
  specialize (Hk a w). now destruct (k a w) as [[r w2] ev2].
Qed.

Lemma pure_for {A} (l : list A) (body : A -> M unit) :
  (forall x, pure_world (body x)) -> pure_world (for_ l body).
Proof.
  intros Hbody. induction l as [|x l IH]; simpl; [apply pure_ret|].
  apply pure_bind; [apply Hbody|intros _; exact IH].
Qed.

Lemma pure_call_compare_fn b1 b2 k v1 v2 :
  pure_world (call_compare_fn b1 b2 k v1 v2).
Proof.
  unfold call_compare_fn.
  apply pure_bind; [apply pure_emit|intros _].
  apply pure_bind; [apply pure_get_self|intros c].
  destruct (_compare_fn c b1 b2 k v1 v2); [apply pure_raise|apply pure_ret].
Qed.

Create HintDb pure.

#[local] Hint Resolve pure_ret pure_raise pure_lift pure_emit pure_get_self
  pure_call_compare_fn : pure.

Ltac pure_tac :=
  repeat first
    [ solve [auto with pure]
    | apply pure_for; intro
    | apply pure_bind; [|intro] ].

Lemma pure__compare_outs : pure_world _compare_outs.
Proof. unfold _compare_outs. pure_tac. Qed.

Lemma pure__assert_incompatible_trigger b :
  pure_world (_assert_incompatible_trigger b).
Proof.
  unfold _assert_incompatible_trigger. destruct (negb b); auto with pure.
Qed.

Lemma pure_semaphore_acquire : pure_world semaphore_acquire.
Proof.
  unfold semaphore_acquire. apply pure_bind; [auto with pure|intros c].
  destruct (_semaphore c); auto with pure.
Qed.

Lemma pure_semaphore_release : pure_world semaphore_release.
Proof.
  unfold semaphore_release. apply pure_bind; [auto with pure|intros c].
  destruct (_semaphore c); auto with pure.
Qed.

Lemma pure_barrier_wait : pure_world barrier_wait.
Proof.
  unfold barrier_wait. apply pure_bind; [auto with pure|intros c].
  destruct (_barrier c) as [b|]; [|auto with pure].
  apply pure_bind; [auto with pure|intros _].
  destruct (broken b); auto with pure.
Qed.

Lemma pure_synchronize : pure_world synchronize.
Proof.
  unfold synchronize.
  apply pure_bind; [apply pure_semaphore_release|intros _].
  apply pure_bind; [apply pure_barrier_wait|intros _].
  apply pure_semaphore_acquire.
Qed.


(** ** The locked blocks *)

Lemma with_report_lock_run {A} (body : M A) w :
  with_report_lock body w
  = (result_of (body w), world_of (body w),
     EvLockAcquire :: events_of (body w) ++ [EvLockRelease]).
Proof.
  unfold with_report_lock. rewrite bind_emit. unfold try_finally, emit.
  now destruct (body w) as [[[a|e] w1] ev1].
Qed.

Lemma _add_target_events {H} (handle : _ComparableHandler H) ms outputs w :
  events_of (_add_target handle ms outputs w) = [].
Proof.
  destruct (_add_target handle ms outputs w) as [[r w1] ev] eqn:Hrun.
  now destruct (_add_target_spec _ _ _ _ Hrun) as (o & p & _ & -> & _).
Qed.

Lemma _assert_run (b : bool) w :
  _assert_incompatible_trigger b w
  = (if b then Ok tt else Raise trigger_mismatch, w, []).
Proof. unfold _assert_incompatible_trigger. now destruct b. Qed.

Lemma bind_run {A B} (c : M A) (k : A -> M B) w :
  bind c k w
  = match result_of (c w) with
    | Ok a =>
        let y := k a (world_of (c w)) in
        (result_of y, world_of y, events_of (c w) ++ events_of y)
    | Raise e => (Raise e, world_of (c w), events_of (c w))
    end.
Proof.
  unfold bind. destruct (c w) as [[[a|e] w1] ev1]; [|reflexivity].
  cbn [result_of world_of events_of fst snd].
  now destruct (k a w1) as [[r w2] ev2].
Qed.

Lemma capture_run {H} (handle : _ComparableHandler H) ms outputs w :
  capture handle ms outputs w
  = let x := _add_target handle ms outputs w in
    let w1 := world_of x in
    match result_of x with
    | Raise e => (Raise e, w1, [EvLockAcquire; EvLockRelease])
    | Ok _ =>
        if full w1 then
          let y := _compare_outs w1 in
          match result_of y with
          | Raise e =>
              (Raise e, w1, EvLockAcquire :: events_of y ++ [EvLockRelease])
          | Ok _ =>
              (if _finalized (self w1) then Raise trigger_mismatch else Ok tt,
               cleared w1,
               EvLockAcquire :: events_of y ++ [EvLockRelease])
          end
        else
          (if _finalized (self w1) then Raise trigger_mismatch else Ok tt,
           w1, [EvLockAcquire; EvLockRelease])
    end.
Proof.
  unfold capture. rewrite with_report_lock_run. cbv zeta.
  set (body := bind (_add_target handle ms outputs) _).
  assert (Hbody : body w
    = match result_of (_add_target handle ms outputs w) with
      | Raise e => (Raise e, world_of (_add_target handle ms outputs w), [])
      | Ok _ =>
          let w1 := world_of (_add_target handle ms outputs w) in
          if full w1 then
            match result_of (_compare_outs w1) with
            | Raise e => (Raise e, w1, events_of (_compare_outs w1))
            | Ok _ =>
                (if _finalized (self w1) then Raise trigger_mismatch
                 else Ok tt,
                 cleared w1, events_of (_compare_outs w1))
            end
          else
            (if _finalized (self w1) then Raise trigger_mismatch else Ok tt,
             w1, [])
      end).
  { subst body. rewrite bind_run, _add_target_events.
    destruct (result_of (_add_target handle ms outputs w)) as [[]|e];
      [|reflexivity].
    cbv zeta. set (w1 := world_of (_add_target handle ms outputs w)).
    rewrite bind_get_self. cbn beta. fold (full w1).
    destruct (full w1).
    - rewrite bind_assoc, bind_run, pure__compare_outs.
      destruct (result_of (_compare_outs w1)) as [[]|e]; [|reflexivity].
      cbv zeta. rewrite bind_modify, bind_get_self, _assert_run. fields.
      destruct (_finalized (self w1)); cbn; now rewrite app_nil_r.
    - msimpl. rewrite _assert_run. now destruct (_finalized (self w1)). }
  rewrite Hbody. clear Hbody body.
  destruct (result_of (_add_target handle ms outputs w)) as [[]|e];
    [|reflexivity].
  cbv zeta. destruct (full _); [|now destruct (_finalized _)].
  destruct (result_of (_compare_outs _)) as [[]|e]; [|reflexivity].
  now destruct (_finalized _).
Qed.

(** ** Registration *)

Lemma engine_type_eqb_eq a b : engine_type_eqb a b = true <-> a = b.
Proof.
  destruct a, b; simpl; split; try congruence; try reflexivity.
  - intros E. apply String.eqb_eq in E. now subst.
  - intros [= ->]. apply String.eqb_refl.
Qed.

Lemma supported_iff t : supported t = true <-> t = Trainer \/ t = Evaluator.
Proof.
  unfold supported. rewrite orb_true_iff, !engine_type_eqb_eq. reflexivity.
Qed.

Lemma add_engine_run nm engine args kwargs w :
  add_engine nm engine args kwargs w
  = let cls := engine_class engine in
    if negb (supported cls) then
      (Raise (ValueError
                ("Engine type " ++ str_type cls ++ " is not supported")%string),
       w, [])
    else
      let accepted :=
        match _engine_type (self w) with None => cls | Some t => t end in
      if negb (engine_type_eqb cls accepted) then
        (Raise (ValueError "All the engines must be of the same type"), w, [])
      else
        let w1 := {| self := set_engine_type (Some accepted) (self w);
                     ext := ext w |} in
        if PyDict.mem nm (_engines (self w)) then
          (Raise (ValueError
                    ("Engine " ++ str_engine engine
                     ++ " already registered")%string),
           w1, [])
        else
          (Ok tt,
           {| self := set_engines
                        (PyDict.set nm (wrap_handler nm engine, args, kwargs)
                           (_engines (self w)))
                        (self w1);
              ext := ext w |}, []).
Proof.
  unfold add_engine. cbv zeta.
  destruct (negb (supported (engine_class engine))); [reflexivity|].
  msimpl. destruct (_engine_type (self w)) as [t|] eqn:Et; msimpl.
  - destruct (negb (engine_type_eqb (engine_class engine) t)); msimpl;
      [reflexivity|].
    assert (Hid : set_engine_type (Some t) (self w) = self w).
    { destruct w as [c x]; destruct c; fields. now subst. }
    rewrite Hid, world_eta.
    destruct (PyDict.mem nm (_engines (self w))); reflexivity.
  - assert (Hrefl : engine_type_eqb (engine_class engine) (engine_class engine)
                    = true) by now apply engine_type_eqb_eq.
    rewrite Hrefl. cbn [negb].
    destruct (PyDict.mem nm (_engines (self w))); reflexivity.
Qed.

(** ** The post-step callback *)

Lemma _compare_targets_run {H} (handle : _ComparableHandler H) ms idx
    outputs w :
  _compare_targets handle ms idx outputs w
  = match PyDict.get (name handle) (_engines (self w)) with
    | None => (Raise (KeyError (name handle)), w, [])
    | Some entry =>
        let rest := capture handle ms outputs ;;; synchronize ;;; ret py_None in
        match manager (fst (fst entry)) with
        | None => rest w
        | Some m =>
            let p := {| _manager := m |} in
            let t := trigger_call (_trigger (self w)) p (ext w) in
            let w0 := {| self := self w; ext := snd t |} in
            match fst t with
            | Raise e => (Raise e, w0, [EvTrigger p])
            | Ok false => (Ok py_None, w0, [EvTrigger p])
            | Ok true =>
                (result_of (rest w0), world_of (rest w0),
                 EvTrigger p :: events_of (rest w0))
            end
        end
    end.
Proof.
  unfold _compare_targets, PyDict.getitem. msimpl.
  destruct (PyDict.get (name handle) (_engines (self w))) as [entry|];
    msimpl; [|reflexivity].
  cbv zeta. destruct (manager (fst (fst entry))) as [m|]; msimpl;
    [|reflexivity].
  rewrite bind_run. unfold call_trigger.
  destruct (trigger_call (_trigger (self w)) {| _manager := m |} (ext w))
    as [[[|]|e] x]; reflexivity.
Qed.

(** ** Preservation of the invariant *)

Lemma consistent_frame c c' :
  _engines c' = _engines c -> _targets c' = _targets c ->
  _output_keys c' = _output_keys c ->
  _preprocessed_keys c' = _preprocessed_keys c ->
  consistent c -> consistent c'.
Proof.
  intros He Ht Ho Hp [H1 H2 H3 H4].
  split; rewrite ?He, ?Ht, ?Ho, ?Hp; assumption.
Qed.

Lemma consistent_refine c o p :
  consistent c -> refines_sel c o p ->
  consistent (set_preprocessed_keys p (set_output_keys o c)).
Proof.
  intros [H1 H2 H3 H4] [Ho Hp]. split; fields; try assumption.
  intros n T Hin. destruct (H4 n T Hin) as (oks & pks & Eo & Ep & Ek).
  exists oks, pks. auto.
Qed.

Lemma consistent_store c n T oks pks :
  consistent c ->
  _output_keys c = SelKeys oks -> _preprocessed_keys c = Some pks ->
  PyDict.keys T = target_keys oks pks ->
  In n (PyDict.keys (_engines c)) ->
  consistent (set_targets (PyDict.set n T (_targets c)) c).
Proof.
  intros [H1 H2 H3 H4] Eo Ep Ek Hn. split; fields.
  - assumption.
  - rewrite keys_set. now apply insert_key_nodup.
  - rewrite keys_set. intros x Hx. apply insert_key_In in Hx.
    destruct Hx as [->|Hx]; [assumption|now apply H3].
  - intros n' T' Hin. apply In_set in Hin.
    destruct Hin as [[-> ->]|Hin]; [now exists oks, pks|].
    eapply H4; eassumption.
Qed.

Lemma consistent_cleared c : consistent c -> consistent (set_targets [] c).
Proof.
  intros [H1 H2 H3 H4]. split; fields.
  - assumption.
  - constructor.
  - intros x [].
  - intros n T [].
Qed.

Lemma _add_target_consistent {H} (handle : _ComparableHandler H) ms outputs w :
  consistent (self w) ->
  In (name handle) (PyDict.keys (_engines (self w))) ->
  consistent (self (world_of (_add_target handle ms outputs w))).
Proof.
  intros Hc Hn.
  destruct (_add_target handle ms outputs w) as [[r w1] ev] eqn:Hrun.
  destruct (_add_target_spec _ _ _ _ Hrun) as (o & p & Href & _ & _ & Hself).
  cbn [world_of fst snd]. cbv zeta in Hself.
  pose proof (consistent_refine Hc Href) as Hc'.
  destruct r as [[]|e]; [|now rewrite Hself].
  destruct Hself as (oks & pks & T & -> & -> & Ek & ->).
  change (_targets (self w))
    with (_targets (set_preprocessed_keys (Some pks)
                      (set_output_keys (SelKeys oks) (self w)))).
  now apply consistent_store with (oks := oks) (pks := pks).
Qed.

Lemma _add_target_engines {H} (handle : _ComparableHandler H) ms outputs w :
  _engines (self (world_of (_add_target handle ms outputs w)))
  = _engines (self w).
Proof.
  destruct (_add_target handle ms outputs w) as [[r w1] ev] eqn:Hrun.
  destruct (_add_target_spec _ _ _ _ Hrun) as (o & p & _ & _ & _ & Hself).
  cbn [world_of fst snd]. cbv zeta in Hself.
  destruct r as [[]|e]; [|now rewrite Hself].
  destruct Hself as (oks & pks & T & _ & _ & _ & ->). reflexivity.
Qed.

Lemma capture_world {H} (handle : _ComparableHandler H) ms outputs w :
  let w1 := world_of (_add_target handle ms outputs w) in
  world_of (capture handle ms outputs w) = w1 \/
  world_of (capture handle ms outputs w) = cleared w1.
Proof.
  rewrite capture_run. cbv zeta.
  destruct (result_of _); [|now left].
  destruct (full _); [|now left].
  destruct (result_of _); [now right|now left].
Qed.

Lemma capture_consistent {H} (handle : _ComparableHandler H) ms outputs w :
  consistent (self w) ->
  In (name handle) (PyDict.keys (_engines (self w))) ->
  consistent (self (world_of (capture handle ms outputs w))).
Proof.
  intros Hc Hn.
  pose proof (_add_target_consistent handle ms outputs w Hc Hn) as Hc1.
  destruct (capture_world handle ms outputs w) as [-> | ->];
    [assumption|now apply consistent_cleared].
Qed.

Lemma rest_world {H} (handle : _ComparableHandler H) ms outputs w :
  world_of ((capture handle ms outputs ;;; synchronize ;;; ret py_None) w)
  = world_of (capture handle ms outputs w).
Proof.
  rewrite bind_run.
  destruct (result_of (capture handle ms outputs w)); [|reflexivity].
  cbv zeta. cbn [world_of fst snd]. fold (world_of (A:=Val)).
  rewrite bind_run, pure_synchronize.
  now destruct (result_of (synchronize _)).
Qed.

Lemma _compare_targets_consistent {H} (handle : _ComparableHandler H) ms idx
    outputs w :
  consistent (self w) ->
  consistent (self (world_of (_compare_targets handle ms idx outputs w))).
Proof.
  intros Hc. rewrite _compare_targets_run.
  destruct (PyDict.get (name handle) (_engines (self w))) as [entry|] eqn:Hg;
    [|assumption].
  apply get_In_keys in Hg. cbv zeta.
  destruct (manager (fst (fst entry))) as [m|].
  - destruct (trigger_call _ _ _) as [[[|]|e] x]; cbn [fst snd world_of];
      try assumption.
    fold (world_of (A:=Val)). rewrite rest_world.
    now apply capture_consistent.
  - rewrite rest_world. now apply capture_consistent.
Qed.

Lemma finalize_run w :
  finalize w
  = (if (length (_targets (self w)) =? 0)%nat then Ok tt
     else Raise trigger_mismatch,
     {| self := set_finalized true (self w); ext := ext w |},
     [EvLockAcquire; EvLockRelease]).
Proof.
  unfold finalize. rewrite with_report_lock_run. msimpl.
  rewrite _assert_run. reflexivity.
Qed.

Lemma barrier_abort_run w :
  barrier_abort w
  = match _barrier (self w) with
    | None => (Raise (AttributeError "abort"), w, [])
    | Some b =>
        (Ok tt,
         {| self := set_barrier
                      (Some {| parties := parties b; broken := true |})
                      (self w);
            ext := ext w |},
         [EvBarrierAbort])
    end.
Proof.
  unfold barrier_abort. msimpl.
  destruct (_barrier (self w)) as [b|]; [|reflexivity].
  rewrite bind_emit. reflexivity.
Qed.

Lemma compare_setup_run w :
  compare_setup w
  = (Ok tt,
     {| self :=
          set_semaphore
            (Some {| sem_value :=
                       match _concurrency (self w) with
                       | None => length (_engines (self w))
                       | Some k => k
                       end |})
            (set_barrier
               (Some {| parties := length (_engines (self w));
                        broken := false |})
               (self w));
        ext := ext w |}, []).
Proof. unfold compare_setup. msimpl. reflexivity. Qed.

Lemma add_engine_consistent nm engine args kwargs w :
  consistent (self w) ->
  consistent (self (world_of (add_engine nm engine args kwargs w))).
Proof.
  intros Hc. rewrite add_engine_run. cbv zeta.
  destruct (negb (supported _)); [assumption|].
  destruct (negb (engine_type_eqb _ _)); [assumption|].
  destruct (PyDict.mem nm (_engines (self w))) eqn:Hmem;
    cbn [world_of fst snd self].
  - now apply (consistent_frame (c := self w)).
  - destruct Hc as [H1 H2 H3 H4]. split; fields; try assumption.
    + rewrite keys_set. now apply insert_key_nodup.
    + rewrite keys_set. intros x Hx. apply insert_key_In. right.
      now apply H3.
Qed.

Lemma init_consistent trigger compare_fn concurrency outputs params :
  consistent (__init__ trigger compare_fn concurrency outputs params).
Proof.
  split; cbn.
  - constructor.
  - constructor.
  - intros x [].
  - intros n T [].
Qed.

Lemma step_consistent w w' :
  step w w' -> consistent (self w) -> consistent (self w').
Proof.
  intros Hstep Hc. destruct Hstep.
  - now apply add_engine_consistent.
  - rewrite compare_setup_run. cbn [world_of fst snd self].
    now apply (consistent_frame (c := self w)).
  - now apply _compare_targets_consistent.
  - rewrite finalize_run. cbn [world_of fst snd self].
    now apply (consistent_frame (c := self w)).
  - rewrite barrier_abort_run.
    destruct (_barrier (self w)); cbn [world_of fst snd self];
      [|assumption].
    now apply (consistent_frame (c := self w)).
  - assumption.
Qed.

Lemma steps_consistent w w' :
  steps w w' -> consistent (self w) -> consistent (self w').
Proof.
  induction 1 as [|w1 w2 w3 _ IH Hstep]; [auto|].
  intros Hc. eapply step_consistent; eauto.
Qed.

Lemma reachable_consistent w : reachable w -> consistent (self w).
Proof.
  intros (w0 & Hinit & Hsteps).
  apply (steps_consistent Hsteps).
  destruct Hinit as (t & f & n & o & p & e & ->). apply init_consistent.
Qed.

Lemma consistent_size c :
  consistent c -> length (_targets c) <= length (_engines c).
Proof.
  intros [H1 H2 H3 _].
  rewrite <- (length_map fst (_targets c)), <- (length_map fst (_engines c)).
  now apply NoDup_incl_length.
Qed.

(** ** The fields that a callback leaves alone *)

Lemma capture_frame_refl c : capture_frame c c.
Proof.
  exists (_targets c), (_output_keys c), (_preprocessed_keys c).
  now destruct c.
Qed.

Lemma capture_frame_fields c c' :
  capture_frame c c' ->
  _engine_type c' = _engine_type c /\ _engines c' = _engines c /\
  _compare_fn c' = _compare_fn c /\ _param_keys c' = _param_keys c /\
  _finalized c' = _finalized c /\ _concurrency c' = _concurrency c /\
  _barrier c' = _barrier c /\ _semaphore c' = _semaphore c /\
  _trigger c' = _trigger c.
Proof. intros (T & o & p & ->). repeat split. Qed.

Lemma _add_target_frame {H} (handle : _ComparableHandler H) ms outputs w :
  capture_frame (self w) (self (world_of (_add_target handle ms outputs w))).
Proof.
  destruct (_add_target handle ms outputs w) as [[r w1] ev] eqn:Hrun.
  destruct (_add_target_spec _ _ _ _ Hrun) as (o & p & _ & _ & _ & Hself).
  cbn [world_of fst snd]. cbv zeta in Hself. destruct r as [[]|e].
  - destruct Hself as (oks & pks & T & _ & _ & _ & ->).
    now exists (PyDict.set (name handle) T (_targets (self w))), o, p.
  - rewrite Hself. exists (_targets (self w)), o, p. now destruct (self w).
Qed.

Lemma capture_capture_frame {H} (handle : _ComparableHandler H) ms outputs w :
  capture_frame (self w) (self (world_of (capture handle ms outputs w))).
Proof.
  pose proof (_add_target_frame handle ms outputs w) as (T & o & p & Hf).
  destruct (capture_world handle ms outputs w) as [-> | ->].
  - now exists T, o, p.
  - unfold cleared. cbn [self]. rewrite Hf. now exists [], o, p.
Qed.

Lemma capture_ext {H} (handle : _ComparableHandler H) ms outputs w :
  ext (world_of (capture handle ms outputs w)) = ext w.
Proof.
  assert (He : ext (world_of (_add_target handle ms outputs w)) = ext w).
  { destruct (_add_target handle ms outputs w) as [[r w1] ev] eqn:Hrun.
    now destruct (_add_target_spec _ _ _ _ Hrun) as (o & p & _ & _ & He & _). }
  destruct (capture_world handle ms outputs w) as [-> | ->]; exact He.
Qed.

Lemma _compare_targets_frame {H} (handle : _ComparableHandler H) ms idx
    outputs w :
  capture_frame (self w)
    (self (world_of (_compare_targets handle ms idx outputs w))).
Proof.
  rewrite _compare_targets_run.
  destruct (PyDict.get (name handle) (_engines (self w))) as [entry|];
    [|apply capture_frame_refl].
  cbv zeta. destruct (manager (fst (fst entry))) as [m|].
  - destruct (trigger_call _ _ _) as [[[|]|e] x]; cbn [fst snd world_of];
      try apply capture_frame_refl.
    fold (world_of (A:=Val)). rewrite rest_world.
    apply (capture_capture_frame handle ms outputs {| self := self w; ext := x |}).
  - rewrite rest_world. apply capture_capture_frame.
Qed.

Lemma step_engine_type w w' t :
  step w w' ->
  _engine_type (self w) = Some t -> _engine_type (self w') = Some t.
Proof.
  intros Hstep Ht. destruct Hstep.
  - rewrite add_engine_run. cbv zeta. rewrite Ht.
    destruct (negb (supported _)); [assumption|].
    destruct (negb (engine_type_eqb _ _)); [assumption|].
    now destruct (PyDict.mem _ _).
  - now rewrite compare_setup_run.
  - destruct (capture_frame_fields
                (_compare_targets_frame handle models0 batch_idx outputs w))
      as (-> & _). assumption.
  - now rewrite finalize_run.
  - rewrite barrier_abort_run. now destruct (_barrier (self w)).
  - assumption.
Qed.

Lemma steps_engine_type w w' t :
  steps w w' ->
  _engine_type (self w) = Some t -> _engine_type (self w') = Some t.
Proof.
  induction 1 as [|w1 w2 w3 _ IH Hstep]; [auto|].
  intros Ht. eapply step_engine_type; eauto.
Qed.

(** ** The calls of a round, up to the first failure *)

Lemma compare_one_run backend1 backend2 val_name t1 t2 out1 out2 w :
  PyDict.get backend1 (_targets (self w)) = Some t1 ->
  PyDict.get backend2 (_targets (self w)) = Some t2 ->
  PyDict.get val_name t1 = Some out1 ->
  PyDict.get val_name t2 = Some out2 ->
  (c <- get_self ;;
   t1 <- lift (PyDict.getitem backend1 (_targets c)) ;;
   out1 <- lift (PyDict.getitem val_name t1) ;;
   t2 <- lift (PyDict.getitem backend2 (_targets c)) ;;
   out2 <- lift (PyDict.getitem val_name t2) ;;
   call_compare_fn backend1 backend2 val_name out1 out2) w
  = (match _compare_fn (self w) backend1 backend2 val_name out1 out2 with
     | None => Ok tt
     | Some e => Raise e
     end, w, [EvCompareFn backend1 backend2 val_name out1 out2]).
Proof.
  intros H1 H2 Ho1 Ho2. unfold PyDict.getitem.
  msimpl. rewrite H1. msimpl. rewrite Ho1. msimpl. rewrite H2. msimpl.
  rewrite Ho2. msimpl. unfold call_compare_fn. rewrite bind_emit. msimpl.
  now destruct (_compare_fn (self w) backend1 backend2 val_name out1 out2).
Qed.

Lemma run_calls_cons fn ev l :
  (exists b1 b2 k v1 v2 e,
      ev = EvCompareFn b1 b2 k v1 v2 /\ fn b1 b2 k v1 v2 = Some e /\
      run_calls fn (ev :: l) = (Raise e, [ev])) \/
  run_calls fn (ev :: l) = (fst (run_calls fn l), ev :: snd (run_calls fn l)).
Proof.
  destruct ev as [p| |b1 b2 k v1 v2| | | | | |]; try (right; reflexivity).
  cbn [run_calls]. destruct (fn b1 b2 k v1 v2) as [e|] eqn:Hfn.
  - left. now exists b1, b2, k, v1, v2, e.
  - now right.
Qed.

Lemma run_calls_app fn l1 l2 :
  run_calls fn (l1 ++ l2)
  = match fst (run_calls fn l1) with
    | Ok _ => (fst (run_calls fn l2),
               snd (run_calls fn l1) ++ snd (run_calls fn l2))
    | Raise e => run_calls fn l1
    end.
Proof.
  induction l1 as [|ev l1 IH]; [cbn; now destruct (run_calls fn l2)|].
  cbn [app].
  destruct ev; cbn [run_calls];
    try match goal with
        | |- context [fn ?a ?b ?c ?d ?e] =>
            destruct (fn a b c d e); [reflexivity|]
        end;
    rewrite IH; destruct (run_calls fn l1) as [[[]|e] s]; reflexivity.
Qed.

Lemma run_calls_prefix fn calls :
  exists rest,
    calls = snd (run_calls fn calls) ++ rest /\
    (fst (run_calls fn calls) = Ok tt -> rest = []) /\
    (forall e, fst (run_calls fn calls) = Raise e ->
       exists made b1 b2 k v1 v2,
         snd (run_calls fn calls) = made ++ [EvCompareFn b1 b2 k v1 v2] /\
         fn b1 b2 k v1 v2 = Some e).
Proof.
  induction calls as [|ev calls (rest & Heq & Hok & Hraise)].
  - exists []. cbn. repeat split; discriminate.
  - destruct (run_calls_cons fn ev calls)
      as [(b1 & b2 & k & v1 & v2 & e & -> & Hfn & Hrun)|Hrun]; rewrite Hrun;
      cbn [fst snd].
    + exists calls. split; [reflexivity|]. split; [discriminate|].
      intros e0 [= <-]. now exists [], b1, b2, k, v1, v2.
    + exists rest. split; [cbn; now rewrite <- Heq|]. split; [assumption|].
      intros e He.
      destruct (Hraise e He) as (made & b1 & b2 & k & v1 & v2 & Hm & Hfn).
      exists (ev :: made), b1, b2, k, v1, v2. cbn. now rewrite Hm.
Qed.

Lemma inner_loop_run w backend1 others t1 backend2 (ks : list string) :
  round_ready (self w) backend1 others t1 ->
  In backend2 others ->
  (forall k, In k ks -> In k (PyDict.keys t1)) ->
  let calls := flat_map (compare_event (self w) backend1 backend2) ks in
  for_ ks (fun val_name =>
    c <- get_self ;;
    t1 <- lift (PyDict.getitem backend1 (_targets c)) ;;
    out1 <- lift (PyDict.getitem val_name t1) ;;
    t2 <- lift (PyDict.getitem backend2 (_targets c)) ;;
    out2 <- lift (PyDict.getitem val_name t2) ;;
    call_compare_fn backend1 backend2 val_name out1 out2) w
  = (fst (run_calls (_compare_fn (self w)) calls), w,
     snd (run_calls (_compare_fn (self w)) calls)).
Proof.
  intros Hready Hb2. induction ks as [|k ks IH]; intros Hks; [reflexivity|].
  cbv zeta. cbn [for_ flat_map].
  destruct (compare_event_ready _ _ Hready Hb2 (Hks k (or_introl eq_refl)))
    as (t2 & out1 & out2 & Hg2 & Ho1 & Ho2 & Hev).
  rewrite bind_run.
  rewrite (@compare_one_run backend1 backend2 k t1 t2 out1 out2 w
             (proj1 (proj2 Hready)) Hg2 Ho1 Ho2).
  cbn [result_of world_of events_of fst snd]. rewrite Hev.
  cbn [app run_calls].
  destruct (_compare_fn (self w) backend1 backend2 k out1 out2);
    [reflexivity|].
  cbv zeta. rewrite IH; [reflexivity|]. intros k' Hk'. apply Hks. now right.
Qed.

Lemma outer_loop_run w backend1 others t1 (bs : list string) :
  round_ready (self w) backend1 others t1 ->
  (forall b, In b bs -> In b others) ->
  let calls :=
    flat_map (fun backend2 =>
                flat_map (compare_event (self w) backend1 backend2)
                  (PyDict.keys t1)) bs in
  for_ bs (fun backend2 =>
    c <- get_self ;;
    reference <- lift (PyDict.getitem backend1 (_targets c)) ;;
    for_ (PyDict.keys reference) (fun val_name =>
      c <- get_self ;;
      t1 <- lift (PyDict.getitem backend1 (_targets c)) ;;
      out1 <- lift (PyDict.getitem val_name t1) ;;
      t2 <- lift (PyDict.getitem backend2 (_targets c)) ;;
      out2 <- lift (PyDict.getitem val_name t2) ;;
      call_compare_fn backend1 backend2 val_name out1 out2)) w
  = (fst (run_calls (_compare_fn (self w)) calls), w,
     snd (run_calls (_compare_fn (self w)) calls)).
Proof.
  intros Hready. induction bs as [|b bs IH]; intros Hbs; [reflexivity|].
  cbv zeta. cbn [for_ flat_map]. rewrite bind_run.
  assert (Hinner :
    (c <- get_self ;;
     reference <- lift (PyDict.getitem backend1 (_targets c)) ;;
     for_ (PyDict.keys reference) (fun val_name =>
       c <- get_self ;;
       t1 <- lift (PyDict.getitem backend1 (_targets c)) ;;
       out1 <- lift (PyDict.getitem val_name t1) ;;
       t2 <- lift (PyDict.getitem b (_targets c)) ;;
       out2 <- lift (PyDict.getitem val_name t2) ;;
       call_compare_fn backend1 b val_name out1 out2)) w
    = (fst (run_calls (_compare_fn (self w))
              (flat_map (compare_event (self w) backend1 b)
                 (PyDict.keys t1))), w,
       snd (run_calls (_compare_fn (self w))
              (flat_map (compare_event (self w) backend1 b)
                 (PyDict.keys t1))))).
  { msimpl. unfold PyDict.getitem at 1. rewrite (proj1 (proj2 Hready)).
    msimpl.
    apply (@inner_loop_run w backend1 others t1 b (PyDict.keys t1) Hready
             (Hbs b (or_introl eq_refl))).
    auto. }
  rewrite Hinner. cbn [result_of world_of events_of fst snd].
  rewrite run_calls_app.
  destruct (fst (run_calls _ (flat_map (compare_event (self w) backend1 b)
                                (PyDict.keys t1)))) as [[]|e] eqn:Hfst.
  - cbv zeta. rewrite IH; [reflexivity|].
    intros b' Hb'. apply Hbs. now right.
  - rewrite <- Hfst.
    now destruct (run_calls _ (flat_map (compare_event (self w) backend1 b)
                                 (PyDict.keys t1))).
Qed.

Lemma run_calls_first_failure fn calls :
  match fst (run_calls fn calls) with
  | Ok _ =>
      snd (run_calls fn calls) = calls /\ Forall (call_passes fn) calls
  | Raise e =>
      exists made b1 b2 k v1 v2 rest,
        snd (run_calls fn calls) = made ++ [EvCompareFn b1 b2 k v1 v2] /\
        calls = made ++ EvCompareFn b1 b2 k v1 v2 :: rest /\
        Forall (call_passes fn) made /\
        fn b1 b2 k v1 v2 = Some e
  end.
Proof.
  induction calls as [|ev calls IH]; [cbn; auto|].
  assert (Hcase :
    (exists b1 b2 k v1 v2 e,
        ev = EvCompareFn b1 b2 k v1 v2 /\ fn b1 b2 k v1 v2 = Some e) \/
    (call_passes fn ev /\
     run_calls fn (ev :: calls)
     = (fst (run_calls fn calls), ev :: snd (run_calls fn calls)))).
  { destruct ev as [p| |b1 b2 k v1 v2| | | | | |];
      try (right; split; [exact I|reflexivity]).
    cbn [run_calls call_passes].
    destruct (fn b1 b2 k v1 v2) as [e|] eqn:Hfn.
    - left. now exists b1, b2, k, v1, v2, e.
    - right. now split. }
  destruct Hcase as [(b1 & b2 & k & v1 & v2 & e & -> & Hfn)|[Hp Hrun]].
  - cbn [run_calls]. rewrite Hfn. cbn [fst snd].
    exists [], b1, b2, k, v1, v2, calls. repeat split; auto.
  - rewrite Hrun. cbn [fst snd].
    destruct (fst (run_calls fn calls)) as [[]|e].
    + destruct IH as [Hs Hall]. split; [now rewrite Hs|now constructor].
    + destruct IH as (made & b1 & b2 & k & v1 & v2 & rest & Hs & Hc & Hall
                      & Hfn).
      exists (ev :: made), b1, b2, k, v1, v2, rest. cbn [app].
      split; [now rewrite Hs|]. split; [now rewrite <- Hc|].
      split; [now constructor|assumption].
Qed.

Lemma _compare_outs_run w backend1 others t1 :
  round_ready (self w) backend1 others t1 ->
  _compare_outs w
  = (fst (run_calls (_compare_fn (self w)) (round_calls (self w))), w,
     EvCompareOuts
     :: snd (run_calls (_compare_fn (self w)) (round_calls (self w)))).
Proof.
  intros Hready. pose proof Hready as (Hnames & Hg1 & _).
  assert (Hcalls : round_calls (self w)
                   = flat_map (fun backend2 =>
                                 flat_map (compare_event (self w) backend1
                                             backend2) (PyDict.keys t1))
                       others).
  { unfold round_calls. now rewrite Hnames, Hg1. }
  unfold _compare_outs. rewrite bind_emit. msimpl.
  rewrite Hnames. msimpl. cbn [tl].
  rewrite (@outer_loop_run w backend1 others t1 others Hready); [|auto].
  cbv zeta. now rewrite <- Hcalls.
Qed.

(** ** The claims about the Comparer *)

(** C1, as the code has it.  In a comparison round in which every
    registered engine has a Target Set, the calls of the round are the
    (N - 1) x K pairs of another engine and a key of the Target Set of the
    first-registered engine, each on the name of the first engine, the name
    of the other engine, the key, and the values of the two engines at that
    key.  [_compare_outs] makes them in order and stops at the first one
    that raises: when none raises it returns, having made exactly these
    (N - 1) x K calls; when one raises it raises the same exception, having
    made the calls before it, which all returned, and that call, so at least
    one call and at most (N - 1) x K. *)
Theorem compare_round_invocations w backend1 others :
  consistent (self w) ->
  PyDict.keys (_engines (self w)) = backend1 :: others ->
  (forall n, In n (PyDict.keys (_engines (self w))) ->
             In n (PyDict.keys (_targets (self w)))) ->
  exists t1 calls,
    PyDict.get backend1 (_targets (self w)) = Some t1 /\
    length calls
    = (length (PyDict.keys (_engines (self w))) - 1)
      * length (PyDict.keys t1) /\
    Forall (fun ev =>
              exists backend2 val_name t2 out1 out2,
                ev = EvCompareFn backend1 backend2 val_name out1 out2 /\
                In backend2 others /\
                PyDict.get val_name t1 = Some out1 /\
                PyDict.get backend2 (_targets (self w)) = Some t2 /\
                PyDict.get val_name t2 = Some out2)
           calls /\
    (forall backend2 val_name,
        In backend2 others -> In val_name (PyDict.keys t1) ->
        exists out1 out2,
          In (EvCompareFn backend1 backend2 val_name out1 out2) calls) /\
    (round_passes (self w) backend1 others ->
     _compare_outs w = (Ok tt, w, EvCompareOuts :: calls)) /\
    (result_of (_compare_outs w) = Ok tt ->
     _compare_outs w = (Ok tt, w, EvCompareOuts :: calls) /\
     Forall (call_passes (_compare_fn (self w))) calls) /\
    (forall e,
        result_of (_compare_outs w) = Raise e ->
        exists made b1 b2 k v1 v2 rest,
          calls = made ++ EvCompareFn b1 b2 k v1 v2 :: rest /\
          _compare_outs w
          = (Raise e, w,
             EvCompareOuts :: made ++ [EvCompareFn b1 b2 k v1 v2]) /\
          Forall (call_passes (_compare_fn (self w))) made /\
          _compare_fn (self w) b1 b2 k v1 v2 = Some e /\
          1 <= length (made ++ [EvCompareFn b1 b2 k v1 v2])
            <= (length (PyDict.keys (_engines (self w))) - 1)
               * length (PyDict.keys t1)).
Proof.
  intros Hc Hnames Hall.
  destruct (consistent_round_ready Hc Hnames Hall) as [t1 Hready].
  exists t1, (round_calls (self w)).
  pose proof (round_calls_length Hready) as Hlen.
  pose proof (run_calls_first_failure (_compare_fn (self w))
                (round_calls (self w))) as Hff.
  split; [apply Hready|].
  split; [exact Hlen|].
  split; [now apply round_calls_shape|].
  split; [intros backend2 val_name Hb2 Hk;
          now apply round_calls_cover with (1 := Hready)|].
  split; [intros Hfn; now apply _compare_outs_ok with (1 := Hready)|].
  rewrite (@_compare_outs_run w backend1 others t1 Hready).
  cbn [result_of fst].
  split.
  - intros Hok. rewrite Hok in Hff |- *. destruct Hff as [Hs Hp].
    rewrite Hs. now split.
  - intros e He. rewrite He in Hff |- *.
    destruct Hff as (made & b1 & b2 & k & v1 & v2 & rest & Hs & Hcalls & Hp
                     & Hfn).
    exists made, b1, b2, k, v1, v2, rest. rewrite Hs.
    split; [exact Hcalls|]. split; [reflexivity|].
    split; [exact Hp|]. split; [exact Hfn|].
    rewrite <- Hlen, Hcalls, !length_app. cbn [length]. lia.
Qed.

(** C3.  When the engine of the calling handler has a manager, the callback
    calls the trigger on a proxy of that manager whose iteration is the
    manager's plus one; when the trigger answers false the callback returns
    at once: the Comparer (Target Sets, finalized flag, barrier, semaphore)
    is what it was, and the trigger call is the only event. *)
Theorem untriggered_step_is_noop {H} (handle : _ComparableHandler H) ms idx
    outputs w entry m e' :
  PyDict.get (name handle) (_engines (self w)) = Some entry ->
  manager (fst (fst entry)) = Some m ->
  trigger_call (_trigger (self w)) {| _manager := m |} (ext w)
  = (Ok false, e') ->
  _compare_targets handle ms idx outputs w
  = (Ok py_None, {| self := self w; ext := e' |},
     [EvTrigger {| _manager := m |}]) /\
  (forall e, _ManagerProxy_iteration {| _manager := m |} e
             = (manager_iteration m e + 1)%Z) /\
  let w' := world_of (_compare_targets handle ms idx outputs w) in
  _targets (self w') = _targets (self w) /\
  _finalized (self w') = _finalized (self w) /\
  _barrier (self w') = _barrier (self w) /\
  _semaphore (self w') = _semaphore (self w).
Proof.
  intros Hg Hm Ht.
  assert (Hrun : _compare_targets handle ms idx outputs w
                 = (Ok py_None, {| self := self w; ext := e' |},
                    [EvTrigger {| _manager := m |}])).
  { rewrite _compare_targets_run, Hg. cbv zeta. rewrite Hm, Ht.
    reflexivity. }
  split; [exact Hrun|]. split; [reflexivity|].
  rewrite Hrun. cbn. repeat split.
Qed.


(** ** The worker *)

Lemma semaphore_release_run w :
  semaphore_release w
  = match _semaphore (self w) with
    | None => (Raise (AttributeError "release"), w, [])
    | Some _ => (Ok tt, w, [EvSemRelease])
    end.
Proof.
  unfold semaphore_release. msimpl. now destruct (_semaphore (self w)).
Qed.

Lemma semaphore_acquire_run w :
  semaphore_acquire w
  = match _semaphore (self w) with
    | None => (Raise (AttributeError "acquire"), w, [])
    | Some _ => (Ok tt, w, [EvSemAcquire])
    end.
Proof.
  unfold semaphore_acquire. msimpl. now destruct (_semaphore (self w)).
Qed.

Lemma barrier_wait_run w :
  barrier_wait w
  = match _barrier (self w) with
    | None => (Raise (AttributeError "wait"), w, [])
    | Some b =>
        (if broken b then Raise BrokenBarrierError else Ok tt, w,
         [EvBarrierWait])
    end.
Proof.
  unfold barrier_wait. msimpl.
  destruct (_barrier (self w)) as [b|]; [|reflexivity].
  rewrite bind_emit. now destruct (broken b).
Qed.

(** The three ways out of [run_engine], given the outcome of its [try]
    block. *)
Lemma run_engine_exits engine args kwargs w r1 w1 ev1 b s :
  (semaphore_acquire ;;; engine_run engine args kwargs ;;; finalize) w
  = (r1, w1, ev1) ->
  _barrier (self w1) = Some b ->
  _semaphore (self w1) = Some s ->
  run_engine engine args kwargs w
  = match r1 with
    | Ok _ => (r1, w1, ev1 ++ [EvSemRelease])
    | Raise e =>
        if is_Exception e
        then (Raise e, aborted b w1, ev1 ++ [EvBarrierAbort; EvSemRelease])
        else (Raise e, w1, ev1 ++ [EvSemRelease])
    end.
Proof.
  intros Hbody Hb Hs. unfold run_engine, try_finally, try_except_Exception.
  rewrite Hbody. destruct r1 as [[]|e].
  - now rewrite semaphore_release_run, Hs.
  - destruct (is_Exception e).
    + rewrite barrier_abort_run, Hb, semaphore_release_run.
      cbn [self set_barrier _semaphore]. rewrite Hs.
      now rewrite <- app_assoc.
    + now rewrite semaphore_release_run, Hs.
Qed.

(** C7, as the code has it.  When the [try] block of the worker raises an
    instance of [Exception] (from the engine's run or from the finalization
    assertion), the barrier is aborted, then the semaphore released, and the
    same exception leaves the worker; on the other two exit paths (normal
    return, or an exception that is not an instance of [Exception]) the
    barrier is left alone; on all three the release of the semaphore is the
    last thing the worker does. *)
Theorem run_engine_abort_and_release engine args kwargs w r1 w1 ev1 b s :
  (semaphore_acquire ;;; engine_run engine args kwargs ;;; finalize) w
  = (r1, w1, ev1) ->
  _barrier (self w1) = Some b ->
  _semaphore (self w1) = Some s ->
  let x := run_engine engine args kwargs w in
  result_of x = r1 /\
  (exists evs, events_of x = ev1 ++ evs ++ [EvSemRelease] /\
     forall e, r1 = Raise e ->
       if is_Exception e
       then evs = [EvBarrierAbort] /\
            _barrier (self (world_of x))
            = Some {| parties := parties b; broken := true |}
       else evs = [] /\ _barrier (self (world_of x)) = Some b) /\
  (r1 = Ok tt -> events_of x = ev1 ++ [EvSemRelease] /\ world_of x = w1).
Proof.
  intros Hbody Hb Hs x. subst x.
  rewrite (run_engine_exits _ _ _ _ Hbody Hb Hs).
  destruct r1 as [[]|e].
  - split; [reflexivity|]. split.
    + exists []. split; [reflexivity|]. discriminate.
    + intros _. now split.
  - destruct (is_Exception e) eqn:Ee.
    + split; [reflexivity|]. split; [|discriminate].
      exists [EvBarrierAbort]. split; [reflexivity|].
      intros e0 [= <-]. rewrite Ee. now split.
    + split; [reflexivity|]. split; [|discriminate].
      exists []. split; [reflexivity|].
      intros e0 [= <-]. rewrite Ee. now split.
Qed.


(** ** Key resolution *)

Lemma scan_keys_spec tc_k sd_keys acc matched :
  scan_keys tc_k sd_keys acc matched
  = (acc ++ filter (re_match tc_k) sd_keys,
     matched || existsb (re_match tc_k) sd_keys).
Proof.
  revert acc matched. induction sd_keys as [|k ks IH]; intros acc matched.
  - cbn. now rewrite app_nil_r, orb_false_r.
  - cbn. destruct (re_match tc_k k).
    + rewrite IH, <- app_assoc. cbn. now rewrite orb_true_r.
    + now rewrite IH.
Qed.

Lemma scan_patterns_unmatched patterns sd_keys acc tc_k :
  In tc_k patterns ->
  existsb (re_match tc_k) sd_keys = false ->
  exists p, In p patterns /\ existsb (re_match p) sd_keys = false /\
            scan_patterns patterns sd_keys acc = Raise (no_match_error p).
Proof.
  revert acc. induction patterns as [|q qs IH]; intros acc Hin Hno;
    [contradiction|].
  cbn [scan_patterns]. rewrite scan_keys_spec. cbn [orb].
  destruct (existsb (re_match q) sd_keys) eqn:Eq.
  - destruct Hin as [->|Hin]; [congruence|].
    destruct (IH (acc ++ filter (re_match q) sd_keys) Hin Hno)
      as (p & Hp & Hnp & Hrun).
    exists p. split; [now right|]. now split.
  - exists q. split; [now left|]. now split.
Qed.

Lemma scan_patterns_matched patterns sd_keys acc :
  (forall p, In p patterns -> existsb (re_match p) sd_keys = true) ->
  scan_patterns patterns sd_keys acc
  = Ok (acc ++ flat_map (fun p => filter (re_match p) sd_keys) patterns).
Proof.
  revert acc. induction patterns as [|q qs IH]; intros acc Hall.
  - cbn. now rewrite app_nil_r.
  - cbn [scan_patterns]. rewrite scan_keys_spec. cbn [orb].
    rewrite (Hall q (or_introl eq_refl)), IH.
    + cbn. now rewrite <- app_assoc.
    + intros p Hp. apply Hall. now right.
Qed.

Lemma _add_target_unmatched {H} (handle : _ComparableHandler H) ms outputs w
    patterns main tc_k :
  _param_keys (self w) = SelKeys patterns ->
  _preprocessed_keys (self w) = None ->
  PyDict.get "main" ms = Some main ->
  In tc_k patterns ->
  existsb (re_match tc_k) (PyDict.keys (state_dict main)) = false ->
  exists p,
    In p patterns /\
    existsb (re_match p) (PyDict.keys (state_dict main)) = false /\
    result_of (_add_target handle ms outputs w) = Raise (no_match_error p) /\
    _targets (self (world_of (_add_target handle ms outputs w)))
    = _targets (self w) /\
    _preprocessed_keys (self (world_of (_add_target handle ms outputs w)))
    = None.
Proof.
  intros Hpk Hpre Hmain Hin Hno.
  destruct (@scan_patterns_unmatched patterns _ [] tc_k Hin Hno)
    as (p & Hp & Hnp & Hscan).
  exists p. split; [assumption|]. split; [assumption|].
  unfold _add_target, PyDict.getitem, _preprocess_keys. msimpl.
  destruct (_output_keys (self w)); msimpl;
    rewrite Hpre; msimpl; rewrite Hmain; msimpl; rewrite Hpk, Hscan;
    msimpl; cbn; auto.
Qed.

(** C6, as the code has it.  When the parameter keys are still unresolved
    and one of the configured patterns matches no key of the state
    dictionary of the main model, the capture raises the configuration
    error for the first such pattern while it resolves the keys: no Target
    Set is stored, nothing is compared, the keys stay unresolved, and the
    rest of the callback raises the same error without entering the
    handshake. *)
Theorem unmatched_pattern_raises_in_capture {H}
    (handle : _ComparableHandler H) ms outputs w patterns main tc_k :
  _param_keys (self w) = SelKeys patterns ->
  _preprocessed_keys (self w) = None ->
  PyDict.get "main" ms = Some main ->
  In tc_k patterns ->
  (forall sd_k, In sd_k (PyDict.keys (state_dict main)) ->
                re_match tc_k sd_k = false) ->
  exists p,
    In p patterns /\
    (forall sd_k, In sd_k (PyDict.keys (state_dict main)) ->
                  re_match p sd_k = false) /\
    let y := capture handle ms outputs w in
    result_of y = Raise (no_match_error p) /\
    events_of y = [EvLockAcquire; EvLockRelease] /\
    _targets (self (world_of y)) = _targets (self w) /\
    _preprocessed_keys (self (world_of y)) = None /\
    (capture handle ms outputs ;;; synchronize ;;; ret py_None) w
    = (Raise (no_match_error p), world_of y, events_of y).
Proof.
  intros Hpk Hpre Hmain Hin Hno.
  assert (Hno' : existsb (re_match tc_k) (PyDict.keys (state_dict main))
                 = false).
  { destruct (existsb _ _) eqn:E; [|reflexivity].
    apply existsb_exists in E. destruct E as (k & Hk & Hm).
    rewrite (Hno k Hk) in Hm. discriminate. }
  destruct (@_add_target_unmatched H handle ms outputs w patterns main tc_k
              Hpk Hpre Hmain Hin Hno')
    as (p & Hp & Hnp & Hres & Htg & Hpre').
  exists p. split; [assumption|]. split.
  { intros k Hk. destruct (re_match p k) eqn:E; [|reflexivity].
    assert (existsb (re_match p) (PyDict.keys (state_dict main)) = true)
      by (apply existsb_exists; eauto).
    congruence. }
  assert (Hcap : capture handle ms outputs w
                 = (Raise (no_match_error p),
                    world_of (_add_target handle ms outputs w),
                    [EvLockAcquire; EvLockRelease])).
  { rewrite capture_run. cbv zeta. now rewrite Hres. }
  cbv zeta. rewrite Hcap. cbn [result_of world_of events_of fst snd].
  repeat split; try assumption.
  rewrite bind_run, Hcap. reflexivity.
Qed.

(** C2, as the code has it.  [add_engine] raises exactly when the class of
    the engine is neither of the two supported ones, or the accepted engine
    kind is already fixed and is not the class of the engine, or the name is
    registered; what it raises is a [ValueError].  The accepted kind is
    fixed to [Trainer] by the constructor when a trigger is given, and by
    the first registration otherwise; once fixed, no step changes it. *)
Theorem add_engine_raises_iff nm engine args kwargs w :
  let x := add_engine nm engine args kwargs w in
  (is_Ok (result_of x) = false <->
   (engine_class engine <> Trainer /\ engine_class engine <> Evaluator) \/
   (exists t, _engine_type (self w) = Some t /\ t <> engine_class engine) \/
   In nm (PyDict.keys (_engines (self w)))) /\
  (forall e, result_of x = Raise e -> exists msg, e = ValueError msg) /\
  (forall trigger compare_fn concurrency outputs params,
      _engine_type (__init__ trigger compare_fn concurrency outputs params)
      = match trigger with None => None | Some _ => Some Trainer end) /\
  (_engine_type (self w) = None -> result_of x = Ok tt ->
   _engine_type (self (world_of x)) = Some (engine_class engine)) /\
  (forall t w', _engine_type (self w) = Some t -> steps w w' ->
                _engine_type (self w') = Some t).
Proof.
  cbv zeta. rewrite add_engine_run. cbv zeta.
  assert (Hsup := supported_iff (engine_class engine)).
  assert (Hmem := mem_In nm (_engines (self w))).
  split; [|split; [|split; [|split]]].
  - destruct (supported (engine_class engine)) eqn:Es; cbn [negb].
    + destruct (_engine_type (self w)) as [t|] eqn:Et.
      * destruct (engine_type_eqb (engine_class engine) t) eqn:Eeq; cbn [negb].
        -- apply engine_type_eqb_eq in Eeq.
           destruct (PyDict.mem nm (_engines (self w)));
             cbn [result_of fst is_Ok]; split.
           ++ intros _. right. right. now apply Hmem.
           ++ reflexivity.
           ++ discriminate.
           ++ intros [[Hn1 Hn2]|[(t' & [= <-] & Hne)|Hin]].
              ** destruct (proj1 Hsup eq_refl); contradiction.
              ** now subst.
              ** apply Hmem in Hin. discriminate.
        -- cbn [result_of fst is_Ok]. split; [|reflexivity].
           intros _. right. left. exists t. split; [reflexivity|].
           intros ->. rewrite (proj2 (engine_type_eqb_eq _ _) eq_refl) in Eeq.
           discriminate.
      * rewrite (proj2 (engine_type_eqb_eq _ _) eq_refl). cbn [negb].
        destruct (PyDict.mem nm (_engines (self w)));
          cbn [result_of fst is_Ok]; split.
        -- intros _. right. right. now apply Hmem.
        -- reflexivity.
        -- discriminate.
        -- intros [[Hn1 Hn2]|[(t' & [=] & _)|Hin]].
           ++ destruct (proj1 Hsup eq_refl); contradiction.
           ++ apply Hmem in Hin. discriminate.
    + cbn [result_of fst is_Ok]. split; [|reflexivity].
      intros _. left. split; intros E; rewrite E in Es; discriminate.
  - intros e.
    destruct (negb (supported _)); [intros [= <-]; eauto|].
    destruct (negb (engine_type_eqb _ _)); [intros [= <-]; eauto|].
    destruct (PyDict.mem _ _); [intros [= <-]; eauto|discriminate].
  - now intros [t|].
  - intros Et. rewrite Et.
    destruct (negb (supported _)); [discriminate|].
    destruct (negb (engine_type_eqb _ _)); [discriminate|].
    now destruct (PyDict.mem _ _).
  - intros t w' Ht Hsteps. now apply (steps_engine_type Hsteps).
Qed.

(** ** Events of a capture *)

Lemma emits_ret P {A} (a : A) : emits P (ret a).
Proof. intros w. constructor. Qed.

Lemma emits_raise P {A} (e : exn) : emits P (raise (A:=A) e).
Proof. intros w. constructor. Qed.

Lemma emits_lift P {A} (r : result A) : emits P (lift r).
Proof. intros w. constructor. Qed.

Lemma emits_get_self P : emits P get_self.
Proof. intros w. constructor. Qed.

Lemma emits_modify P f : emits P (modify f).
Proof. intros w. constructor. Qed.

Lemma emits_emit (P : Event -> Prop) e : P e -> emits P (emit e).
Proof. intros He w. now repeat constructor. Qed.

Lemma emits_bind P {A B} (c : M A) (k : A -> M B) :
  emits P c -> (forall a, emits P (k a)) -> emits P (bind c k).
Proof.
  intros Hc Hk w. rewrite bind_run. specialize (Hc w).
  destruct (result_of (c w)) as [a|e]; [|exact Hc].
  cbv zeta. cbn [events_of snd]. apply Forall_app. split; [exact Hc|].
  apply Hk.
Qed.

Lemma emits_for P {A} (l : list A) (body : A -> M unit) :
  (forall x, emits P (body x)) -> emits P (for_ l body).
Proof.
  intros Hbody. induction l as [|x l IH]; simpl; [apply emits_ret|].
  apply emits_bind; [apply Hbody|intros _; exact IH].
Qed.

Lemma emits__compare_outs : emits not_trigger _compare_outs.
Proof.
  unfold _compare_outs, call_compare_fn.
  repeat first
    [ apply emits_bind; [|intro]
    | apply emits_for; intro
    | apply emits_emit; exact I
    | apply emits_get_self
    | apply emits_lift
    | match goal with
      | |- emits _ (match ?x with _ => _ end) => destruct x
      end
    | apply emits_raise
    | apply emits_ret ].
Qed.

Lemma emits_capture {H} (handle : _ComparableHandler H) ms outputs :
  emits not_trigger (capture handle ms outputs).
Proof.
  intros w. rewrite capture_run. cbv zeta.
  pose proof (emits__compare_outs (world_of (_add_target handle ms outputs w)))
    as Hcmp.
  assert (Hall : Forall not_trigger
                   (EvLockAcquire
                    :: events_of (_compare_outs
                                    (world_of (_add_target handle ms outputs w)))
                    ++ [EvLockRelease])).
  { constructor; [exact I|]. apply Forall_app. split; [exact Hcmp|].
    now repeat constructor. }
  assert (Hlock : Forall not_trigger [EvLockAcquire; EvLockRelease])
    by now repeat constructor.
  destruct (result_of _); [|exact Hlock].
  destruct (full _); [|exact Hlock].
  destruct (result_of _); exact Hall.
Qed.

Lemma synchronize_run w s b :
  _semaphore (self w) = Some s -> _barrier (self w) = Some b ->
  synchronize w
  = (if broken b then Raise BrokenBarrierError else Ok tt, w,
     EvSemRelease :: EvBarrierWait
     :: (if broken b then [] else [EvSemAcquire])).
Proof.
  intros Hs Hb. unfold synchronize.
  rewrite bind_run, semaphore_release_run, Hs.
  cbn [result_of world_of events_of fst snd]. cbv zeta.
  rewrite bind_run, barrier_wait_run, Hb.
  cbn [result_of world_of events_of fst snd].
  destruct (broken b); [reflexivity|].
  cbv zeta. rewrite semaphore_acquire_run, Hs. reflexivity.
Qed.

Lemma emits_synchronize : emits not_trigger synchronize.
Proof.
  unfold synchronize, semaphore_release, barrier_wait, semaphore_acquire.
  repeat first
    [ apply emits_bind; [|intro]
    | apply emits_emit; exact I
    | apply emits_get_self
    | match goal with
      | |- emits _ (match ?x with _ => _ end) => destruct x
      end
    | apply emits_raise
    | apply emits_ret ].
Qed.

Lemma _add_target_stores {H} (handle : _ComparableHandler H) ms outputs w :
  result_of (_add_target handle ms outputs w) = Ok tt ->
  exists T,
    PyDict.get (name handle)
      (_targets (self (world_of (_add_target handle ms outputs w))))
    = Some T.
Proof.
  destruct (_add_target handle ms outputs w) as [[r w1] ev] eqn:Hrun.
  destruct (_add_target_spec _ _ _ _ Hrun) as (o & p & _ & _ & _ & Hself).
  cbn [result_of world_of fst snd]. intros ->. cbv zeta in Hself.
  destruct Hself as (oks & pks & T & _ & _ & _ & ->).
  exists T. cbn [_targets set_targets]. apply get_set_same.
Qed.

(** ** The handler wrapper *)

Section WrapperFacts.
Context {H : Type} `{BaseHandler H}.
Variable cb :
  _ComparableHandler H -> pydict Model -> Z -> pydict Tensor -> M Val.

Lemma delegate_forwards {A} (m : meth H A) : forwards (delegate m) m.
Proof.
  intros this w. unfold delegate.
  now destruct (m (_handler this) w) as [[[r w1] ev] h].
Qed.

Lemma post_step_forwards (m : meth H Val) engine batch_idx outputs :
  forwards_then_calls_back cb (post_step cb m engine batch_idx outputs) m
    engine batch_idx outputs.
Proof.
  intros this w. unfold post_step.
  destruct (m (_handler this) w) as [[[[v|e] w1] ev] h]; [|reflexivity].
  cbv zeta. unfold incr_iteration, set_handler. cbn [_handler name iteration].
  now destruct (cb _ (models engine) batch_idx outputs w1) as [[r w2] ev2].
Qed.

(** C8.  Every hook of the wrapper other than the two post-step hooks
    passes its arguments to the same hook of the wrapped handler and returns
    its result; [train_post_step] and [eval_post_step] first do the same,
    then add one to the iteration counter of the wrapper, then return the
    result of the callback on (the wrapper, the models of the engine, the
    batch index, the outputs). *)
Theorem wrapper_delegates :
  let W := ComparableHandler_BaseHandler cb in
  (forall args,
      forwards (@convert_batch _ W args) (convert_batch args)) /\
  (forall trainer loader,
      forwards (@train_setup _ W trainer loader)
        (train_setup trainer loader)) /\
  (forall trainer loader,
      forwards (@train_epoch_begin _ W trainer loader)
        (train_epoch_begin trainer loader)) /\
  (forall trainer,
      forwards (@train_epoch_end _ W trainer) (train_epoch_end trainer)) /\
  (forall evaluator,
      forwards (@train_validation_begin _ W evaluator)
        (train_validation_begin evaluator)) /\
  (forall trainer evaluator,
      forwards (@train_validation_end _ W trainer evaluator)
        (train_validation_end trainer evaluator)) /\
  (forall trainer batch_idx batch complete_fn,
      forwards (@train_step _ W trainer batch_idx batch complete_fn)
        (train_step trainer batch_idx batch complete_fn)) /\
  (forall evaluator,
      forwards (@eval_loop_begin _ W evaluator)
        (eval_loop_begin evaluator)) /\
  (forall evaluator batch_idx batch complete_fn,
      forwards (@eval_step _ W evaluator batch_idx batch complete_fn)
        (eval_step evaluator batch_idx batch complete_fn)) /\
  (forall evaluator,
      forwards (@eval_loop_end _ W evaluator) (eval_loop_end evaluator)) /\
  (forall trainer batch_idx batch outputs,
      forwards_then_calls_back cb
        (@train_post_step _ W trainer batch_idx batch outputs)
        (train_post_step trainer batch_idx batch outputs)
        trainer batch_idx outputs) /\
  (forall evaluator batch_idx batch outputs,
      forwards_then_calls_back cb
        (@eval_post_step _ W evaluator batch_idx batch outputs)
        (eval_post_step evaluator batch_idx batch outputs)
        evaluator batch_idx outputs).
Proof.
  cbv zeta. repeat split; intros;
    first [apply delegate_forwards | apply post_step_forwards].
Qed.
End WrapperFacts.

(** ** Further properties of the key resolution *)

Lemma comprehension_ok {V} (ks : list string) (src acc : pydict V) :
  (forall k, In k ks -> In k (PyDict.keys src)) ->
  exists d, PyDict.comprehension ks src acc = Ok d.
Proof.
  revert acc. induction ks as [|k ks IH]; intros acc Hall; cbn.
  - eauto.
  - destruct (In_keys_get _ _ (Hall k (or_introl eq_refl))) as [v Hv].
    unfold PyDict.getitem. rewrite Hv. apply IH.
    intros k' Hk'. apply Hall. now right.
Qed.

Lemma comprehension_missing {V} (ks : list string) (src acc : pydict V) k :
  In k ks -> PyDict.get k src = None ->
  exists k0, In k0 ks /\ PyDict.get k0 src = None /\
             PyDict.comprehension ks src acc = Raise (KeyError k0).
Proof.
  revert acc. induction ks as [|k1 ks IH]; intros acc Hin Hk; [contradiction|].
  cbn. unfold PyDict.getitem.
  destruct (PyDict.get k1 src) as [v|] eqn:Hk1.
  - destruct Hin as [->|Hin]; [congruence|].
    destruct (IH (PyDict.set k1 v acc) Hin Hk) as (k0 & H0 & Hn & Hrun).
    exists k0. split; [now right|]. now split.
  - exists k1. split; [now left|]. now split.
Qed.

Lemma scan_patterns_incl patterns sd_keys acc ks :
  scan_patterns patterns sd_keys acc = Ok ks ->
  (forall k, In k acc -> In k sd_keys) ->
  forall k, In k ks -> In k sd_keys.
Proof.
  revert acc. induction patterns as [|p ps IH]; intros acc Hrun Hacc.
  - cbn in Hrun. now injection Hrun as <-.
  - cbn [scan_patterns] in Hrun. rewrite scan_keys_spec in Hrun.
    cbn [orb] in Hrun.
    destruct (existsb (re_match p) sd_keys); [|discriminate].
    apply (IH _ Hrun). intros k Hk. apply in_app_iff in Hk.
    destruct Hk as [Hk|Hk]; [now apply Hacc|].
    now apply filter_In in Hk.
Qed.

Lemma scan_patterns_all_or_none (patterns sd_keys : list string) :
  (forall p, In p patterns -> existsb (re_match p) sd_keys = true) \/
  (exists p, In p patterns /\ existsb (re_match p) sd_keys = false).
Proof.
  induction patterns as [|q qs IH]; [left; intros p []|].
  destruct (existsb (re_match q) sd_keys) eqn:Eq.
  - destruct IH as [Hall|(p & Hp & Hno)].
    + left. intros p [<-|Hp]; auto.
    + right. exists p. split; [now right|assumption].
  - right. exists q. split; [now left|assumption].
Qed.

(** X1.  With patterns for the parameters, [_preprocess_keys] returns, when
    every pattern matches some key of the state dictionary, the matching
    keys pattern by pattern, each group in the order of the state
    dictionary; it raises exactly when some pattern matches no key. *)
Theorem preprocess_keys_patterns c model patterns :
  _param_keys c = SelKeys patterns ->
  let sd_keys := PyDict.keys (state_dict model) in
  ((forall p, In p patterns -> existsb (re_match p) sd_keys = true) ->
   _preprocess_keys c model
   = Ok (flat_map (fun p => filter (re_match p) sd_keys) patterns)) /\
  (is_Ok (_preprocess_keys c model) = false <->
   exists p, In p patterns /\
             forall sd_k, In sd_k sd_keys -> re_match p sd_k = false).
Proof.
  intros Hpk sd_keys. unfold _preprocess_keys. rewrite Hpk. fold sd_keys.
  split.
  - intros Hall. now rewrite (scan_patterns_matched _ _ [] Hall).
  - split.
    + intros Hfail.
      destruct (scan_patterns_all_or_none patterns sd_keys)
        as [Hall|(p & Hp & Hno)].
      * rewrite (scan_patterns_matched _ _ [] Hall) in Hfail. discriminate.
      * exists p. split; [assumption|]. intros k Hk.
        destruct (re_match p k) eqn:E; [|reflexivity].
        assert (existsb (re_match p) sd_keys = true)
          by (apply existsb_exists; eauto).
        congruence.
    + intros (p & Hp & Hno).
      assert (Hno' : existsb (re_match p) sd_keys = false).
      { destruct (existsb _ _) eqn:E; [|reflexivity].
        apply existsb_exists in E. destruct E as (k & Hk & Hm).
        rewrite (Hno k Hk) in Hm. discriminate. }
      destruct (@scan_patterns_unmatched patterns sd_keys [] p Hp Hno')
        as (q & _ & _ & ->).
      reflexivity.
Qed.

(** X2.  Whatever the parameter selection (all, none, or patterns), the keys
    that [_preprocess_keys] resolves from a model are keys of its state
    dictionary, so selecting them from that state dictionary never raises. *)
Theorem preprocess_keys_resolvable c model ks :
  _preprocess_keys c model = Ok ks ->
  (forall k, In k ks -> In k (PyDict.keys (state_dict model))) /\
  exists params, PyDict.comprehension ks (state_dict model) [] = Ok params.
Proof.
  intros Hrun.
  assert (Hin : forall k, In k ks -> In k (PyDict.keys (state_dict model))).
  { unfold _preprocess_keys in Hrun. destruct (_param_keys c) as [| |pats].
    - now injection Hrun as <-.
    - injection Hrun as <-. intros k [].
    - apply (scan_patterns_incl _ _ _ Hrun). intros k []. }
  split; [exact Hin|]. now apply comprehension_ok.
Qed.

(** ** Further properties of the capture *)

(** What [_add_target] stores when it returns: the selection of the outputs,
    updated by the selection of the parameters when there are any. *)
Lemma _add_target_built {H} (handle : _ComparableHandler H)
    (ms : pydict Model) (outputs : pydict Tensor) w w1 ev :
  _add_target handle ms outputs w = (Ok tt, w1, ev) ->
  exists oks pks selected T,
    _output_keys (self w1) = SelKeys oks /\
    _preprocessed_keys (self w1) = Some pks /\
    PyDict.comprehension oks outputs [] = Ok selected /\
    (if (0 <? length pks)%nat
     then exists main params,
         PyDict.get "main" ms = Some main /\
         PyDict.comprehension pks (state_dict main) [] = Ok params /\
         T = PyDict.update (PyDict.update [] selected) params
     else T = PyDict.update [] selected) /\
    _targets (self w1) = PyDict.set (name handle) T (_targets (self w)).
Proof.
  unfold _add_target. intros Hrun. mrun Hrun.
  repeat (mcase Hrun; mrun Hrun).
  all: unfold modify, ret in Hrun; fields.
  all: try discriminate.
  all: injection Hrun as Hw Hev; subst w1 ev; fields.
  all: destruct w as [c x]; destruct c; fields; subst; cbn [iter_keys] in *.
  all: repeat match goal with
             | E : Ok _ = Ok _ |- _ => injection E as <-
             | E : Some _ = Some _ |- _ => injection E as <-
             end.
  all: unfold PyDict.getitem in *.
  all: do 4 eexists; split; [reflexivity|]; split; [reflexivity|];
    split; [eassumption|]; split; [|reflexivity].
  all: match goal with E : (0 <? _)%nat = _ |- _ => rewrite E end.
  all: try reflexivity.
  all: match goal with
       | E : match PyDict.get "main" ?m with _ => _ end = Ok _ |- _ =>
           destruct (PyDict.get "main" m) eqn:Hmain; [|discriminate];
           injection E as <-
       end.
  all: do 2 eexists; split; [reflexivity|]; split; [eassumption|reflexivity].
Qed.

Lemma get_comprehension {V} (ks : list string) (src acc d : pydict V) k :
  PyDict.comprehension ks src acc = Ok d ->
  PyDict.get k d
  = if existsb (String.eqb k) ks then PyDict.get k src else PyDict.get k acc.
Proof.
  revert acc. induction ks as [|k1 ks IH]; intros acc Hrun; cbn in Hrun.
  - now injection Hrun as <-.
  - unfold PyDict.getitem in Hrun.
    destruct (PyDict.get k1 src) as [v1|] eqn:Hk1; [|discriminate].
    rewrite (IH _ Hrun). cbn [existsb].
    destruct (existsb (String.eqb k) ks); [now rewrite orb_true_r|].
    rewrite orb_false_r. destruct (String.eqb k k1) eqn:E.
    + apply String.eqb_eq in E. subst k1. now rewrite get_set_same.
    + apply get_set_other. intros ->. now rewrite String.eqb_refl in E.
Qed.

Lemma get_not_in_keys {V} (d : pydict V) k :
  ~ In k (PyDict.keys d) -> PyDict.get k d = None.
Proof.
  intros Hn. destruct (PyDict.get k d) eqn:E; [|reflexivity].
  exfalso. apply Hn. now apply get_In_keys in E.
Qed.

Lemma get_update {V} (d e : pydict V) k :
  NoDup (PyDict.keys e) ->
  PyDict.get k (PyDict.update d e)
  = match PyDict.get k e with
    | Some v => Some v
    | None => PyDict.get k d
    end.
Proof.
  unfold PyDict.update. revert d.
  induction e as [|[k1 v1] e IH]; intros d Hnd; [reflexivity|].
  inversion Hnd as [|? ? Hnotin Hnd']; subst. cbn [fold_left fst snd].
  rewrite (IH _ Hnd'). cbn [PyDict.get].
  destruct (String.eqb k k1) eqn:E.
  - apply String.eqb_eq in E. subst k1.
    now rewrite (get_not_in_keys _ _ Hnotin), get_set_same.
  - destruct (PyDict.get k e); [reflexivity|].
    apply get_set_other. intros ->. now rewrite String.eqb_refl in E.
Qed.

Lemma insert_keys_nodup new ks :
  NoDup ks -> NoDup (PyDict.insert_keys new ks).
Proof.
  unfold PyDict.insert_keys. revert ks.
  induction new as [|k new IH]; intros ks Hnd; [assumption|].
  cbn. apply IH. now apply insert_key_nodup.
Qed.

Lemma comprehension_nodup {V} (ks : list string) (src d : pydict V) :
  PyDict.comprehension ks src [] = Ok d -> NoDup (PyDict.keys d).
Proof.
  intros Hrun. rewrite (comprehension_keys _ _ _ Hrun).
  apply insert_keys_nodup. constructor.
Qed.

(** X3.  The Target Set that [_add_target] stores under the name of the
    handle maps every resolved parameter key to its value in the state
    dictionary of the main model, every other resolved output key to its
    value in the outputs, and holds no other key: on a key that is both, the
    parameter wins. *)
Theorem add_target_contents {H} (handle : _ComparableHandler H)
    (ms : pydict Model) (outputs : pydict Tensor) w w1 ev :
  _add_target handle ms outputs w = (Ok tt, w1, ev) ->
  exists oks pks T,
    _output_keys (self w1) = SelKeys oks /\
    _preprocessed_keys (self w1) = Some pks /\
    PyDict.get (name handle) (_targets (self w1)) = Some T /\
    forall k,
      PyDict.get k T
      = if existsb (String.eqb k) pks then
          match PyDict.get "main" ms with
          | Some main => PyDict.get k (state_dict main)
          | None => None
          end
        else if existsb (String.eqb k) oks then PyDict.get k outputs
        else None.
Proof.
  intros Hrun.
  destruct (_add_target_built _ _ _ _ Hrun)
    as (oks & pks & selected & T & Ho & Hp & Hsel & HT & Htg).
  exists oks, pks, T. split; [assumption|]. split; [assumption|].
  split; [rewrite Htg; apply get_set_same|].
  intros k.
  assert (Hbase : PyDict.get k (PyDict.update [] selected)
                  = if existsb (String.eqb k) oks then PyDict.get k outputs
                    else None).
  { rewrite (get_update _ _ _ (comprehension_nodup _ _ Hsel)).
    rewrite (get_comprehension _ _ _ k Hsel). cbn [PyDict.get].
    destruct (existsb (String.eqb k) oks); [|reflexivity].
    now destruct (PyDict.get k outputs). }
  destruct pks as [|p pks'].
  - cbn in HT. subst T. exact Hbase.
  - cbn [length Nat.ltb Nat.leb] in HT.
    destruct HT as (main & params & Hmain & Hpar & ->).
    rewrite (get_update _ _ _ (comprehension_nodup _ _ Hpar)).
    rewrite (get_comprehension _ _ _ k Hpar), Hmain. cbn [PyDict.get].
    destruct (existsb (String.eqb k) (p :: pks')) eqn:Ein.
    + apply existsb_eqb_In in Ein.
      destruct (comprehension_ok (p :: pks') (state_dict main) [])
        as [d Hd]; [|clear Hd].
      { intros k' Hk'.
        destruct (PyDict.get k' (state_dict main)) eqn:Hg;
          [now apply get_In_keys in Hg|].
        destruct (comprehension_missing _ _ [] _ Hk' Hg) as (k0 & _ & _ & Hx).
        rewrite Hx in Hpar. discriminate. }
      destruct (PyDict.get k (state_dict main)) eqn:Hg; [reflexivity|].
      destruct (comprehension_missing _ _ [] _ Ein Hg) as (k0 & _ & _ & Hx).
      rewrite Hx in Hpar. discriminate.
    + exact Hbase.
Qed.

(** X4.  Once the keys are resolved, a capture whose outputs lack one of the
    resolved output keys raises [KeyError] on the first such key and leaves
    the world exactly as it was: no Target Set is stored. *)
Theorem add_target_missing_output {H} (handle : _ComparableHandler H)
    (ms : pydict Model) (outputs : pydict Tensor) w oks pks k :
  _output_keys (self w) = SelKeys oks ->
  _preprocessed_keys (self w) = Some pks ->
  In k oks -> PyDict.get k outputs = None ->
  exists k0,
    In k0 oks /\ PyDict.get k0 outputs = None /\
    _add_target handle ms outputs w = (Raise (KeyError k0), w, []).
Proof.
  intros Ho Hp Hin Hk.
  destruct (comprehension_missing oks outputs [] k Hin Hk)
    as (k0 & H0 & Hn & Hrun).
  exists k0. split; [assumption|]. split; [assumption|].
  unfold _add_target. msimpl. rewrite Ho. msimpl. rewrite Hp. msimpl.
  rewrite Ho. fields. msimpl. rewrite Hrun. msimpl. reflexivity.
Qed.

(** X5.  While the parameter keys are unresolved, a capture needs a model
    named "main" whatever the parameter selection is (even none): without
    one it raises [KeyError] and stores nothing.  Once they are resolved to
    no key at all, a capture does not look at the models. *)
Theorem add_target_main_model {H} (handle : _ComparableHandler H)
    (ms ms' : pydict Model) (outputs : pydict Tensor) w :
  (_preprocessed_keys (self w) = None -> PyDict.get "main" ms = None ->
   result_of (_add_target handle ms outputs w) = Raise (KeyError "main") /\
   _targets (self (world_of (_add_target handle ms outputs w)))
   = _targets (self w)) /\
  (_preprocessed_keys (self w) = Some [] ->
   _add_target handle ms outputs w = _add_target handle ms' outputs w).
Proof.
  split.
  - intros Hp Hmain. unfold _add_target, PyDict.getitem. msimpl.
    destruct (_output_keys (self w)); msimpl; rewrite Hp; msimpl;
      rewrite Hmain; msimpl; now cbn.
  - intros Hp. unfold _add_target. msimpl.
    destruct (_output_keys (self w)); msimpl; rewrite ?Hp; fields; msimpl;
      try match goal with
          | |- context [PyDict.comprehension ?a ?b ?c] =>
              destruct (PyDict.comprehension a b c)
          end; msimpl; rewrite ?Hp; msimpl; reflexivity.
Qed.

(** ** Further properties of rounds *)

Lemma _add_target_refines {H} (handle : _ComparableHandler H) ms outputs w :
  let c1 := self (world_of (_add_target handle ms outputs w)) in
  refines_sel (self w) (_output_keys c1) (_preprocessed_keys c1).
Proof.
  destruct (_add_target handle ms outputs w) as [[r w1] ev] eqn:Hrun.
  destruct (_add_target_spec _ _ _ _ Hrun) as (o & p & Href & _ & _ & Hself).
  cbn [world_of fst snd]. cbv zeta in Hself |- *. destruct r as [[]|e].
  - destruct Hself as (oks & pks & T & _ & _ & _ & ->). exact Href.
  - rewrite Hself. exact Href.
Qed.

Lemma capture_refines {H} (handle : _ComparableHandler H) ms outputs w :
  let c1 := self (world_of (capture handle ms outputs w)) in
  refines_sel (self w) (_output_keys c1) (_preprocessed_keys c1).
Proof.
  cbv zeta.
  pose proof (_add_target_refines handle ms outputs w) as Href.
  destruct (capture_world handle ms outputs w) as [-> | ->]; exact Href.
Qed.

Lemma _compare_targets_refines {H} (handle : _ComparableHandler H) ms idx
    outputs w :
  let c1 := self (world_of (_compare_targets handle ms idx outputs w)) in
  refines_sel (self w) (_output_keys c1) (_preprocessed_keys c1).
Proof.
  cbv zeta. rewrite _compare_targets_run.
  destruct (PyDict.get (name handle) (_engines (self w))) as [entry|];
    [|now split].
  cbv zeta. destruct (manager (fst (fst entry))) as [m|].
  - destruct (trigger_call _ _ _) as [[[|]|e] x]; cbn [fst snd world_of];
      try (now split).
    fold (world_of (A:=Val)). rewrite rest_world.
    apply (capture_refines handle ms outputs {| self := self w; ext := x |}).
  - rewrite rest_world. apply capture_refines.
Qed.

Lemma step_refines w w' :
  step w w' ->
  refines_sel (self w) (_output_keys (self w')) (_preprocessed_keys (self w')).
Proof.
  intros Hstep. destruct Hstep.
  - rewrite add_engine_run. cbv zeta.
    destruct (negb (supported _)); [now split|].
    destruct (negb (engine_type_eqb _ _)); [now split|].
    now destruct (PyDict.mem _ _).
  - rewrite compare_setup_run. now split.
  - apply _compare_targets_refines.
  - rewrite finalize_run. now split.
  - rewrite barrier_abort_run. now destruct (_barrier (self w)).
  - now split.
Qed.

(** X6.  The key selections are resolved once: whatever steps the Comparer
    takes afterwards (registrations, callbacks of any engine with any
    outputs and models, finalization), a resolved list of output keys and a
    resolved list of parameter keys stay what they are. *)
Theorem resolved_keys_are_fixed w w' :
  steps w w' ->
  (forall oks, _output_keys (self w) = SelKeys oks ->
               _output_keys (self w') = SelKeys oks) /\
  (forall pks, _preprocessed_keys (self w) = Some pks ->
               _preprocessed_keys (self w') = Some pks).
Proof.
  induction 1 as [|w1 w2 w3 _ [IHo IHp] Hstep]; [now split|].
  destruct (step_refines Hstep) as [Ho Hp]. split.
  - intros oks E. apply Ho. now apply IHo.
  - intros pks E. apply Hp. now apply IHp.
Qed.

Lemma full_iff w :
  full w = true
  <-> length (_targets (self w)) = length (_engines (self w)).
Proof. unfold full, PyDict.keys. rewrite !length_map. apply Nat.eqb_eq. Qed.

(** X7.  A capture by a registered engine that returns normally never
    leaves a full collection behind: afterwards the number of waiting Target
    Sets is strictly below the number of registered engines. *)
Theorem capture_leaves_room {H} (handle : _ComparableHandler H) ms outputs w :
  consistent (self w) ->
  In (name handle) (PyDict.keys (_engines (self w))) ->
  result_of (capture handle ms outputs w) = Ok tt ->
  let w' := world_of (capture handle ms outputs w) in
  length (_targets (self w')) < length (_engines (self w')).
Proof.
  intros Hc Hn Hok. cbv zeta.
  pose proof (_add_target_consistent handle ms outputs w Hc Hn) as Hc1.
  pose proof (_add_target_engines handle ms outputs w) as He1.
  rewrite capture_run in Hok |- *. cbv zeta in Hok |- *.
  set (w1 := world_of (_add_target handle ms outputs w)) in *.
  assert (Hpos : 0 < length (_engines (self w1))).
  { rewrite He1. destruct (_engines (self w)); [contradiction|cbn; lia]. }
  destruct (result_of (_add_target handle ms outputs w)) as [[]|e];
    [|discriminate].
  destruct (full w1) eqn:Ef.
  - destruct (result_of (_compare_outs w1)) as [[]|e]; [|discriminate].
    cbn [world_of fst snd cleared self set_targets _targets _engines length].
    exact Hpos.
  - cbn [world_of fst snd].
    pose proof (consistent_size Hc1) as Hle.
    assert (length (_targets (self w1)) <> length (_engines (self w1))).
    { intros E. apply full_iff in E. congruence. }
    lia.
Qed.

(** X8.  When the comparison of a full round raises, the capture raises the
    same exception with the lock released, the collection stays full (it is
    not reset), and the callback ends there: no release of the semaphore,
    no wait on the barrier. *)
Theorem failed_round_is_left_full {H} (handle : _ComparableHandler H) ms
    outputs w e :
  result_of (_add_target handle ms outputs w) = Ok tt ->
  let w1 := world_of (_add_target handle ms outputs w) in
  full w1 = true ->
  result_of (_compare_outs w1) = Raise e ->
  capture handle ms outputs w
  = (Raise e, w1,
     EvLockAcquire :: events_of (_compare_outs w1) ++ [EvLockRelease]) /\
  length (_targets (self w1)) = length (_engines (self w1)) /\
  (capture handle ms outputs ;;; synchronize ;;; ret py_None) w
  = (Raise e, w1,
     EvLockAcquire :: events_of (_compare_outs w1) ++ [EvLockRelease]) /\
  Forall (fun ev => ev <> EvSemRelease /\ ev <> EvBarrierWait
                    /\ ev <> EvSemAcquire)
    (EvLockAcquire :: events_of (_compare_outs w1) ++ [EvLockRelease]).
Proof.
  intros Hadd w1 Hfull Hcmp.
  assert (Hcap : capture handle ms outputs w
                 = (Raise e, w1,
                    EvLockAcquire :: events_of (_compare_outs w1)
                    ++ [EvLockRelease])).
  { rewrite capture_run. cbv zeta. fold w1. now rewrite Hadd, Hfull, Hcmp. }
  split; [exact Hcap|]. split; [now apply full_iff|].
  split; [rewrite bind_run, Hcap; reflexivity|].
  assert (Hev : emits (fun ev => ev <> EvSemRelease /\ ev <> EvBarrierWait
                                 /\ ev <> EvSemAcquire) _compare_outs).
  { unfold _compare_outs, call_compare_fn.
    repeat first
      [ apply emits_bind; [|intro]
      | apply emits_for; intro
      | apply emits_emit; repeat split; discriminate
      | apply emits_get_self
      | apply emits_lift
      | match goal with
        | |- emits _ (match ?x with _ => _ end) => destruct x
        end
      | apply emits_raise
      | apply emits_ret ]. }
  constructor; [repeat split; discriminate|].
  apply Forall_app. split; [apply Hev|].
  constructor; [repeat split; discriminate|constructor].
Qed.

(** ** Order and first failure of the comparisons *)

(** X9.  In a round where every engine has a Target Set with the keys of
    the first one, [_compare_outs] goes through the other engines in the
    order of registration and, for each, through the keys in the order of
    the first engine's Target Set; it stops at the first call that raises
    and raises what that call raised, and makes every call when none
    raises.  It changes nothing of the world. *)
Theorem compare_outs_order_and_first_failure w backend1 others t1 :
  round_ready (self w) backend1 others t1 ->
  exists calls,
    Forall2 (fun ev bk =>
               exists out1 out2,
                 ev = EvCompareFn backend1 (fst bk) (snd bk) out1 out2)
      calls (list_prod others (PyDict.keys t1)) /\
    _compare_outs w
    = (fst (run_calls (_compare_fn (self w)) calls), w,
       EvCompareOuts :: snd (run_calls (_compare_fn (self w)) calls)) /\
    exists rest,
      calls = snd (run_calls (_compare_fn (self w)) calls) ++ rest /\
      (result_of (_compare_outs w) = Ok tt -> rest = []) /\
      (forall e, result_of (_compare_outs w) = Raise e ->
         exists made b1 b2 k v1 v2,
           snd (run_calls (_compare_fn (self w)) calls)
           = made ++ [EvCompareFn b1 b2 k v1 v2] /\
           _compare_fn (self w) b1 b2 k v1 v2 = Some e).
Proof.
  intros Hready. pose proof Hready as (Hnames & Hg1 & _).
  exists (round_calls (self w)).
  assert (Hcalls : round_calls (self w)
                   = flat_map (fun backend2 =>
                                 flat_map (compare_event (self w) backend1
                                             backend2) (PyDict.keys t1))
                       others).
  { unfold round_calls. now rewrite Hnames, Hg1. }
  assert (Hrun : _compare_outs w
                 = (fst (run_calls (_compare_fn (self w))
                           (round_calls (self w))), w,
                    EvCompareOuts
                    :: snd (run_calls (_compare_fn (self w))
                              (round_calls (self w))))).
  { unfold _compare_outs. rewrite bind_emit. msimpl.
    rewrite Hnames. msimpl. cbn [tl].
    rewrite (@outer_loop_run w backend1 others t1 others Hready); [|auto].
    cbv zeta. now rewrite <- Hcalls. }
  split; [|split; [exact Hrun|]].
  - rewrite Hcalls. clear Hcalls Hrun.
    assert (Hsub : forall b, In b others -> In b others) by auto.
    revert Hsub. generalize others at 1 3 4 as bs.
    induction bs as [|b bs IH]; intros Hsub; [constructor|].
    cbn [flat_map list_prod]. apply Forall2_app.
    + assert (Hks : forall k, In k (PyDict.keys t1) -> In k (PyDict.keys t1))
        by auto.
      revert Hks. generalize (PyDict.keys t1) at 1 3 4 as ks.
      induction ks as [|k ks IHk]; intros Hks; [constructor|].
      cbn [flat_map map].
      destruct (compare_event_ready _ _ Hready (Hsub b (or_introl eq_refl))
                  (Hks k (or_introl eq_refl)))
        as (t2 & out1 & out2 & _ & _ & _ & ->).
      cbn [app]. constructor; [now exists out1, out2|].
      apply IHk. intros k' Hk'. apply Hks. now right.
    + apply IH. intros b' Hb'. apply Hsub. now right.
  - rewrite Hrun. cbn [result_of fst].
    apply run_calls_prefix.
Qed.

(** X10.  With no engine registered a comparison round raises [IndexError];
    with a single engine it compares nothing and returns, whatever the
    Target Set collection holds (it is not even read). *)
Theorem compare_outs_few_engines w :
  (PyDict.keys (_engines (self w)) = [] ->
   _compare_outs w = (Raise IndexError, w, [EvCompareOuts])) /\
  (forall backend1,
      PyDict.keys (_engines (self w)) = [backend1] ->
      forall targets,
        _compare_outs {| self := set_targets targets (self w); ext := ext w |}
        = (Ok tt, {| self := set_targets targets (self w); ext := ext w |},
           [EvCompareOuts])).
Proof.
  split.
  - intros Hnames. unfold _compare_outs. rewrite bind_emit. msimpl.
    now rewrite Hnames.
  - intros backend1 Hnames targets. unfold _compare_outs.
    rewrite bind_emit. msimpl. now rewrite Hnames.
Qed.

Lemma full_all_reported c :
  consistent c ->
  length (_targets c) = length (_engines c) ->
  forall n, In n (PyDict.keys (_engines c)) -> In n (PyDict.keys (_targets c)).
Proof.
  intros [H1 H2 H3 _] Hlen.
  apply NoDup_length_incl; [assumption| |assumption].
  unfold PyDict.keys. rewrite !length_map. lia.
Qed.

(** X11.  The capture that completes a round (the collection is full once
    its Target Set is stored), on a Comparer that is not finalized and when
    no comparison raises, takes the lock, makes the (N - 1) x K comparison
    calls of the round, empties the collection, releases the lock and
    returns. *)
Theorem completing_capture {H} (handle : _ComparableHandler H) ms outputs w
    backend1 others :
  consistent (self w) ->
  In (name handle) (PyDict.keys (_engines (self w))) ->
  _finalized (self w) = false ->
  result_of (_add_target handle ms outputs w) = Ok tt ->
  let w1 := world_of (_add_target handle ms outputs w) in
  full w1 = true ->
  PyDict.keys (_engines (self w1)) = backend1 :: others ->
  round_passes (self w1) backend1 others ->
  exists t1,
    PyDict.get backend1 (_targets (self w1)) = Some t1 /\
    capture handle ms outputs w
    = (Ok tt, cleared w1,
       EvLockAcquire :: EvCompareOuts :: round_calls (self w1)
       ++ [EvLockRelease]) /\
    length (round_calls (self w1))
    = (length (_engines (self w1)) - 1) * length (PyDict.keys t1) /\
    _targets (self (world_of (capture handle ms outputs w))) = [].
Proof.
  intros Hc Hn Hfin Hadd w1 Hfull Hnames Hpass.
  pose proof (_add_target_consistent handle ms outputs w Hc Hn) as Hc1.
  fold w1 in Hc1.
  destruct (consistent_round_ready Hc1 Hnames
              (full_all_reported Hc1 (proj1 (full_iff w1) Hfull)))
    as [t1 Hready].
  exists t1. split; [apply Hready|].
  assert (Hfin1 : _finalized (self w1) = false).
  { destruct (capture_frame_fields (_add_target_frame handle ms outputs w))
      as (_ & _ & _ & _ & Hf & _).
    subst w1. now rewrite Hf. }
  assert (Hcap : capture handle ms outputs w
                 = (Ok tt, cleared w1,
                    EvLockAcquire :: EvCompareOuts :: round_calls (self w1)
                    ++ [EvLockRelease])).
  { rewrite capture_run. cbv zeta. fold w1. rewrite Hadd, Hfull.
    rewrite (@_compare_outs_ok w1 backend1 others t1 Hready Hpass).
    cbn [result_of events_of fst snd]. now rewrite Hfin1. }
  split; [exact Hcap|]. split.
  - rewrite (round_calls_length Hready). unfold PyDict.keys at 1.
    now rewrite length_map.
  - now rewrite Hcap.
Qed.

Lemma step_finalized w w' :
  step w w' -> _finalized (self w) = true -> _finalized (self w') = true.
Proof.
  intros Hstep Hf. destruct Hstep.
  - rewrite add_engine_run. cbv zeta.
    destruct (negb (supported _)); [assumption|].
    destruct (negb (engine_type_eqb _ _)); [assumption|].
    now destruct (PyDict.mem _ _).
  - now rewrite compare_setup_run.
  - destruct (capture_frame_fields
                (_compare_targets_frame handle models0 batch_idx outputs w))
      as (_ & _ & _ & _ & -> & _). assumption.
  - now rewrite finalize_run.
  - rewrite barrier_abort_run. now destruct (_barrier (self w)).
  - assumption.
Qed.

(** X12.  The finalized flag is never reset: once a worker has finalized the
    Comparer, it stays finalized through every later step, and no capture
    made afterwards returns normally. *)
Theorem finalized_is_permanent w w' :
  steps w w' ->
  _finalized (self w) = true ->
  _finalized (self w') = true /\
  forall H (handle : _ComparableHandler H) ms outputs,
    is_Ok (result_of (capture handle ms outputs w')) = false.
Proof.
  intros Hsteps Hf.
  assert (Hf' : _finalized (self w') = true).
  { induction Hsteps as [|w1 w2 w3 _ IH Hstep]; [assumption|].
    eapply step_finalized; eauto. }
  split; [exact Hf'|].
  intros H handle ms outputs. rewrite capture_run. cbv zeta.
  assert (Hf1 : _finalized
                  (self (world_of (_add_target handle ms outputs w')))
                = true).
  { destruct (capture_frame_fields (_add_target_frame handle ms outputs w'))
      as (_ & _ & _ & _ & -> & _). assumption. }
  destruct (result_of (_add_target handle ms outputs w')); [|reflexivity].
  destruct (full _).
  - destruct (result_of (_compare_outs _)); [|reflexivity].
    now rewrite Hf1.
  - now rewrite Hf1.
Qed.

(** ** The semaphore and the barrier *)

Lemma sem_balance_app l1 l2 :
  sem_balance (l1 ++ l2) = (sem_balance l1 + sem_balance l2)%Z.
Proof.
  unfold sem_balance.
  induction l1 as [|ev l1 IH]; cbn [app fold_right]; [reflexivity|].
  rewrite IH. lia.
Qed.

Lemma sem_balance_neutral evs :
  Forall (fun ev => sem_delta ev = 0%Z) evs -> sem_balance evs = 0%Z.
Proof.
  unfold sem_balance.
  induction 1 as [|ev evs Hev _ IH]; cbn [fold_right]; [reflexivity|].
  rewrite IH, Hev. reflexivity.
Qed.

Lemma capture_sem_neutral {H} (handle : _ComparableHandler H) ms outputs w :
  sem_balance (events_of (capture handle ms outputs w)) = 0%Z.
Proof.
  apply sem_balance_neutral. rewrite capture_run. cbv zeta.
  assert (Hcmp : emits (fun ev => sem_delta ev = 0%Z) _compare_outs).
  { unfold _compare_outs, call_compare_fn.
    repeat first
      [ apply emits_bind; [|intro]
      | apply emits_for; intro
      | apply emits_emit; reflexivity
      | apply emits_get_self
      | apply emits_lift
      | match goal with
        | |- emits _ (match ?x with _ => _ end) => destruct x
        end
      | apply emits_raise
      | apply emits_ret ]. }
  set (w1 := world_of (_add_target handle ms outputs w)).
  assert (Hall : Forall (fun ev => sem_delta ev = 0%Z)
                   (EvLockAcquire :: events_of (_compare_outs w1)
                    ++ [EvLockRelease])).
  { constructor; [reflexivity|]. apply Forall_app. split; [apply Hcmp|].
    now repeat constructor. }
  assert (Hlock : Forall (fun ev => sem_delta ev = 0%Z)
                    [EvLockAcquire; EvLockRelease])
    by now repeat constructor.
  destruct (result_of _); [|exact Hlock].
  destruct (full _); [|exact Hlock].
  destruct (result_of _); exact Hall.
Qed.

Lemma synchronize_cases w :
  (result_of (synchronize w) = Ok tt /\
   sem_balance (events_of (synchronize w)) = 0%Z) \/
  (result_of (synchronize w) = Raise (AttributeError "release") /\
   _semaphore (self w) = None /\ events_of (synchronize w) = []) \/
  ((result_of (synchronize w) = Raise BrokenBarrierError \/
    result_of (synchronize w) = Raise (AttributeError "wait")) /\
   sem_balance (events_of (synchronize w)) = 1%Z).
Proof.
  unfold synchronize. rewrite bind_run, semaphore_release_run.
  destruct (_semaphore (self w)) as [s|] eqn:Hs;
    [|right; left; now repeat split].
  cbn [result_of world_of events_of fst snd]. cbv zeta.
  rewrite bind_run, barrier_wait_run.
  destruct (_barrier (self w)) as [b|];
    [|right; right; split; [now right|reflexivity]].
  cbn [result_of world_of events_of fst snd].
  destruct (broken b); [right; right; split; [now left|reflexivity]|].
  cbv zeta. rewrite semaphore_acquire_run, Hs. left. now split.
Qed.

(** X13.  A callback that returns leaves the semaphore as it found it: it
    makes as many acquisitions as releases.  A callback that raises has
    released at most once more than it has acquired, and exactly when the
    wait on the barrier failed (broken barrier, or no barrier at all). *)
Theorem callback_semaphore_balance {H} (handle : _ComparableHandler H) ms idx
    outputs w :
  let x := _compare_targets handle ms idx outputs w in
  (is_Ok (result_of x) = true -> sem_balance (events_of x) = 0%Z) /\
  (sem_balance (events_of x) = 0%Z \/
   (sem_balance (events_of x) = 1%Z /\
    (result_of x = Raise BrokenBarrierError \/
     result_of x = Raise (AttributeError "wait")))).
Proof.
  cbv zeta. rewrite _compare_targets_run.
  assert (Hrest : forall w0,
    let r := (capture handle ms outputs ;;; synchronize ;;; ret py_None) w0 in
    (is_Ok (result_of r) = true -> sem_balance (events_of r) = 0%Z) /\
    (sem_balance (events_of r) = 0%Z \/
     (sem_balance (events_of r) = 1%Z /\
      (result_of r = Raise BrokenBarrierError \/
       result_of r = Raise (AttributeError "wait"))))).
  { intros w0. cbv zeta. rewrite bind_run.
    pose proof (capture_sem_neutral handle ms outputs w0) as Hcap.
    destruct (result_of (capture handle ms outputs w0)) as [[]|e];
      [|cbn [result_of events_of fst snd is_Ok]; split; [discriminate|now left]].
    cbv zeta. cbn [result_of events_of fst snd]. rewrite sem_balance_app, Hcap.
    rewrite bind_run.
    destruct (synchronize_cases (world_of (capture handle ms outputs w0)))
      as [[Hr Hb]|[(Hr & _ & Hev)|[Hr Hb]]].
    - rewrite Hr. cbv zeta. cbn [result_of events_of fst snd].
      rewrite app_nil_r, Hb. split; [reflexivity|now left].
    - rewrite Hr, Hev. cbn. split; [discriminate|now left].
    - destruct Hr as [Hr|Hr]; rewrite Hr;
        cbn [result_of events_of fst snd is_Ok]; rewrite Hb;
        (split; [discriminate|right; split; [reflexivity|auto]]). }
  destruct (PyDict.get (name handle) (_engines (self w))) as [entry|];
    [|cbn; split; [discriminate|now left]].
  cbv zeta. destruct (manager (fst (fst entry))) as [m|]; [|apply Hrest].
  destruct (trigger_call _ _ _) as [[[|]|e] x]; cbn [fst snd];
    try (cbn; split; [reflexivity || discriminate|now left]).
  specialize (Hrest {| self := self w; ext := x |}). cbv zeta in Hrest.
  cbn [result_of events_of fst snd sem_balance fold_right sem_delta].
  fold (sem_balance
          (events_of ((capture handle ms outputs ;;; synchronize ;;;
                       ret py_None) {| self := self w; ext := x |}))).
  rewrite Z.add_0_l. exact Hrest.
Qed.

Lemma step_primitives w w' :
  step w w' ->
  (_barrier (self w) <> None -> _barrier (self w') <> None) /\
  (_semaphore (self w) <> None -> _semaphore (self w') <> None).
Proof.
  intros Hstep. destruct Hstep.
  - rewrite add_engine_run. cbv zeta.
    destruct (negb (supported _)); [now split|].
    destruct (negb (engine_type_eqb _ _)); [now split|].
    now destruct (PyDict.mem _ _).
  - rewrite compare_setup_run. cbn. split; discriminate.
  - destruct (capture_frame_fields
                (_compare_targets_frame handle models0 batch_idx outputs w))
      as (_ & _ & _ & _ & _ & _ & -> & -> & _). now split.
  - rewrite finalize_run. now split.
  - rewrite barrier_abort_run. destruct (_barrier (self w)); cbn;
      split; auto; discriminate.
  - now split.
Qed.

Lemma steps_primitives w w' :
  steps w w' ->
  _barrier (self w) <> None /\ _semaphore (self w) <> None ->
  _barrier (self w') <> None /\ _semaphore (self w') <> None.
Proof.
  induction 1 as [|w1 w2 w3 _ IH Hstep]; [tauto|].
  intros H0. destruct (IH H0) as [Hb Hs].
  destruct (step_primitives Hstep) as [Hb' Hs']. split; auto.
Qed.

(** X14.  [compare] creates a barrier for as many parties as there are
    registered engines, not broken, and a semaphore of the configured
    concurrency, or of as many permits as there are engines when none is
    configured; and no later step takes the barrier or the semaphore away:
    the callbacks and workers that follow never find them missing. *)
Theorem compare_setup_primitives w w' :
  steps (world_of (compare_setup w)) w' ->
  _barrier (self (world_of (compare_setup w)))
  = Some {| parties := length (_engines (self w)); broken := false |} /\
  _semaphore (self (world_of (compare_setup w)))
  = Some {| sem_value := match _concurrency (self w) with
                         | None => length (_engines (self w))
                         | Some k => k
                         end |} /\
  _barrier (self w') <> None /\ _semaphore (self w') <> None.
Proof.
  intros Hsteps. rewrite compare_setup_run in Hsteps |- *.
  cbn [world_of fst snd self set_semaphore set_barrier _barrier _semaphore].
  split; [reflexivity|]. split; [reflexivity|].
  apply (steps_primitives Hsteps). cbn. split; discriminate.
Qed.

(** X15.  Before [compare] has created the semaphore, a callback that gets
    as far as the capture stores its Target Set and then raises
    [AttributeError] on the release of the semaphore: the rest of the
    callback ends there, with the events of the capture only. *)
Theorem callback_before_compare {H} (handle : _ComparableHandler H) ms
    outputs w :
  _semaphore (self w) = None ->
  result_of (capture handle ms outputs w) = Ok tt ->
  (capture handle ms outputs ;;; synchronize ;;; ret py_None) w
  = (Raise (AttributeError "release"),
     world_of (capture handle ms outputs w),
     events_of (capture handle ms outputs w)).
Proof.
  intros Hs Hok. rewrite bind_run, Hok. cbv zeta.
  assert (Hs1 : _semaphore (self (world_of (capture handle ms outputs w)))
                = None).
  { destruct (capture_frame_fields (capture_capture_frame handle ms outputs w))
      as (_ & _ & _ & _ & _ & _ & _ & -> & _). assumption. }
  rewrite bind_run. unfold synchronize.
  rewrite bind_run, semaphore_release_run, Hs1.
  cbn [result_of world_of events_of fst snd]. now rewrite app_nil_r.
Qed.

(** X16.  The two guards of the callback: a handler whose name is not
    registered gets [KeyError] and nothing happens; and when the trigger
    itself raises, the callback raises the same exception having done
    nothing but call the trigger: no capture, no handshake. *)
Theorem callback_guards {H} (handle : _ComparableHandler H) ms idx outputs w :
  (PyDict.get (name handle) (_engines (self w)) = None ->
   _compare_targets handle ms idx outputs w
   = (Raise (KeyError (name handle)), w, [])) /\
  (forall entry m e x,
      PyDict.get (name handle) (_engines (self w)) = Some entry ->
      manager (fst (fst entry)) = Some m ->
      trigger_call (_trigger (self w)) {| _manager := m |} (ext w)
      = (Raise e, x) ->
      _compare_targets handle ms idx outputs w
      = (Raise e, {| self := self w; ext := x |},
         [EvTrigger {| _manager := m |}])).
Proof.
  split.
  - intros Hg. now rewrite _compare_targets_run, Hg.
  - intros entry m e x Hg Hm Ht.
    rewrite _compare_targets_run, Hg. cbv zeta. now rewrite Hm, Ht.
Qed.

(** ** Registration of the engines *)

Lemma set_absent {V} k (v : V) (d : pydict V) :
  PyDict.mem k d = false -> PyDict.set k v d = d ++ [(k, v)].
Proof.
  unfold PyDict.mem.
  induction d as [|[k' v'] d IH]; simpl; [reflexivity|].
  destruct (String.eqb k k'); [discriminate|].
  intros Hm. now rewrite IH.
Qed.

(** X17.  A registration that returns appends the engine at the end of the
    registry, under its name, with its handler wrapped and the run arguments
    as given; the class of the engine is supported and is from then on the
    accepted kind; the name was not registered before; and nothing else
    happens: no Target Set is touched and no event is emitted. *)
Theorem add_engine_registers nm engine args kwargs w :
  result_of (add_engine nm engine args kwargs w) = Ok tt ->
  let w' := world_of (add_engine nm engine args kwargs w) in
  _engines (self w')
  = _engines (self w) ++ [(nm, (wrap_handler nm engine, args, kwargs))] /\
  PyDict.get nm (_engines (self w')) = Some (wrap_handler nm engine, args, kwargs) /\
  PyDict.get nm (_engines (self w)) = None /\
  _engine_type (self w') = Some (engine_class engine) /\
  supported (engine_class engine) = true /\
  _targets (self w') = _targets (self w) /\
  ext w' = ext w /\
  events_of (add_engine nm engine args kwargs w) = [].
Proof.
  rewrite add_engine_run. cbv zeta.
  destruct (supported (engine_class engine)) eqn:Hsup; cbn [negb];
    [|discriminate].
  destruct (engine_type_eqb _ _) eqn:Heq; cbn [negb]; [|discriminate].
  apply engine_type_eqb_eq in Heq.
  destruct (PyDict.mem nm (_engines (self w))) eqn:Hmem; [discriminate|].
  intros _. cbn [world_of events_of fst snd self ext].
  destruct w as [c x]. destruct c. fields.
  repeat split.
  - now apply set_absent.
  - apply get_set_same.
  - unfold PyDict.mem in Hmem. now destruct (PyDict.get nm _).
  - f_equal. symmetry. exact Heq.
Qed.

Lemma add_engine_same_kind nm engine args kwargs w :
  same_kind (self w) ->
  same_kind (self (world_of (add_engine nm engine args kwargs w))).
Proof.
  intros Hk. rewrite add_engine_run. cbv zeta.
  destruct (supported (engine_class engine)) eqn:Hsup; cbn [negb];
    [|assumption].
  destruct (engine_type_eqb _ _) eqn:Heq; cbn [negb]; [|assumption].
  apply engine_type_eqb_eq in Heq.
  destruct (PyDict.mem nm (_engines (self w))) eqn:Hmem;
    cbn [world_of fst snd self]; destruct w as [c x]; destruct c; fields;
    intros n entry Hin; fields.
  - destruct (Hk n entry Hin) as [Ht Hs]. fields. split; [|assumption].
    now rewrite Ht.
  - apply In_set in Hin. destruct Hin as [[-> ->]|Hin].
    + cbn [fst engine_class wrap_handler]. split; [|assumption].
      f_equal. symmetry. exact Heq.
    + destruct (Hk n entry Hin) as [Ht Hs]. fields. split; [|assumption].
      now rewrite Ht.
Qed.

Lemma add_engine_named nm engine args kwargs w :
  named_wrappers (self w) ->
  named_wrappers (self (world_of (add_engine nm engine args kwargs w))).
Proof.
  intros Hn. rewrite add_engine_run. cbv zeta.
  destruct (negb (supported _)); [assumption|].
  destruct (negb (engine_type_eqb _ _)); [assumption|].
  destruct (PyDict.mem nm (_engines (self w)));
    cbn [world_of fst snd self]; destruct w as [c x]; destruct c; fields;
    intros n entry Hin; fields.
  - now apply Hn.
  - apply In_set in Hin. destruct Hin as [[-> ->]|Hin]; [|now apply Hn].
    cbn [fst handler wrap_handler]. eexists. split; reflexivity.
Qed.

Lemma frame_same_kind c c' :
  _engines c' = _engines c -> _engine_type c' = _engine_type c ->
  same_kind c /\ named_wrappers c -> same_kind c' /\ named_wrappers c'.
Proof.
  intros He Ht. unfold same_kind, named_wrappers. rewrite He, Ht. tauto.
Qed.

Lemma step_same_kind w w' :
  step w w' ->
  same_kind (self w) /\ named_wrappers (self w) ->
  same_kind (self w') /\ named_wrappers (self w').
Proof.
  intros Hstep Hkn. destruct Hstep.
  - destruct Hkn as [Hk Hn].
    split; [now apply add_engine_same_kind|now apply add_engine_named].
  - rewrite compare_setup_run. cbn [world_of fst snd self].
    now apply (@frame_same_kind (self w) _).
  - destruct (capture_frame_fields
                (_compare_targets_frame handle models0 batch_idx outputs w))
      as (Ht & He & _).
    now apply (@frame_same_kind (self w) _).
  - rewrite finalize_run. cbn [world_of fst snd self].
    now apply (@frame_same_kind (self w) _).
  - rewrite barrier_abort_run.
    destruct (_barrier (self w)); cbn [world_of fst snd self];
      [|assumption].
    now apply (@frame_same_kind (self w) _).
  - assumption.
Qed.

Lemma steps_same_kind w w' :
  steps w w' ->
  same_kind (self w) /\ named_wrappers (self w) ->
  same_kind (self w') /\ named_wrappers (self w').
Proof.
  induction 1 as [|w1 w2 w3 _ IH Hstep]; [auto|].
  intros H0. eapply step_same_kind; eauto.
Qed.

(** X18.  Whatever has been called on a Comparer since its construction,
    the engines of its registry are all of one class, the accepted kind,
    which is one of the two supported classes; and each has in its handler
    slot the wrapper that carries the name it is registered under. *)
Theorem registry_invariant w :
  reachable w ->
  same_kind (self w) /\ named_wrappers (self w) /\
  (forall n1 e1 n2 e2,
      In (n1, e1) (_engines (self w)) -> In (n2, e2) (_engines (self w)) ->
      engine_class (fst (fst e1)) = engine_class (fst (fst e2))).
Proof.
  intros (w0 & Hinit & Hsteps).
  assert (H0 : same_kind (self w) /\ named_wrappers (self w)).
  { apply (steps_same_kind Hsteps).
    destruct Hinit as (t & f & n & o & p & e & ->).
    split; intros nm entry; cbn; destruct t; cbn; contradiction. }
  destruct H0 as [Hk Hn]. split; [assumption|]. split; [assumption|].
  intros n1 e1 n2 e2 H1 H2.
  destruct (Hk n1 e1 H1) as [T1 _]. destruct (Hk n2 e2 H2) as [T2 _].
  congruence.
Qed.

(** X19.  A registration that is refused leaves the Comparer as it was,
    provided its registry is of one kind, as that of every reachable
    Comparer is: nothing is registered, the accepted kind is not changed,
    no event is emitted. *)
Theorem refused_add_engine_changes_nothing nm engine args kwargs w :
  same_kind (self w) ->
  is_Ok (result_of (add_engine nm engine args kwargs w)) = false ->
  world_of (add_engine nm engine args kwargs w) = w /\
  events_of (add_engine nm engine args kwargs w) = [].
Proof.
  intros Hk. rewrite add_engine_run. cbv zeta.
  destruct (negb (supported _)); [now split|].
  destruct (negb (engine_type_eqb _ _)); [now split|].
  destruct (PyDict.mem nm (_engines (self w))) eqn:Hmem; [|discriminate].
  intros _. cbn [world_of events_of fst snd]. split; [|reflexivity].
  unfold PyDict.mem in Hmem.
  destruct (PyDict.get nm (_engines (self w))) as [entry|] eqn:Hg;
    [|discriminate].
  apply get_Some_In in Hg. destruct (Hk nm entry Hg) as [Ht _].
  rewrite Ht. destruct w as [c x]. destruct c. fields. now subst.
Qed.

(** ** The worker *)

(** X20.  A worker that runs on a Comparer whose [compare] has not created
    the semaphore and the barrier never runs its engine: the acquisition
    fails, the abort of the missing barrier fails in the handler, the
    release of the missing semaphore fails in the [finally] block, and it is
    this last [AttributeError] that leaves the worker, with the Comparer as
    it was. *)
Theorem run_engine_before_compare engine args kwargs w :
  _semaphore (self w) = None ->
  (_barrier (self w) = None ->
   run_engine engine args kwargs w = (Raise (AttributeError "release"), w, [])) /\
  (forall b, _barrier (self w) = Some b ->
   run_engine engine args kwargs w
   = (Raise (AttributeError "release"), aborted b w, [EvBarrierAbort])).
Proof.
  intros Hs.
  assert (Hbody : (semaphore_acquire ;;; engine_run engine args kwargs ;;;
                   finalize) w = (Raise (AttributeError "acquire"), w, [])).
  { rewrite bind_run, semaphore_acquire_run, Hs. reflexivity. }
  split; [intros Hb|intros b Hb];
    unfold run_engine, try_finally, try_except_Exception;
    rewrite Hbody; cbn [is_Exception];
    rewrite barrier_abort_run, Hb, semaphore_release_run;
    cbn [self set_barrier _semaphore]; now rewrite Hs.
Qed.

(** X21.  The clean exit of a worker: when the semaphore exists, the engine
    returns and no Target Set is left pending, the worker returns, the
    Comparer is finalized and otherwise as the engine left it, and the events
    are the acquisition, those of the engine, the lock taken and released
    around the finalization, and the release; the barrier is not touched. *)
Theorem run_engine_clean_exit engine args kwargs w w1 ev s :
  _semaphore (self w) = Some s ->
  engine_run engine args kwargs w = (Ok tt, w1, ev) ->
  _semaphore (self w1) <> None ->
  _targets (self w1) = [] ->
  run_engine engine args kwargs w
  = (Ok tt, {| self := set_finalized true (self w1); ext := ext w1 |},
     EvSemAcquire :: ev ++ [EvLockAcquire; EvLockRelease; EvSemRelease]).
Proof.
  intros Hs Hrun Hs1 Ht.
  assert (Hbody : (semaphore_acquire ;;; engine_run engine args kwargs ;;;
                   finalize) w
                  = (Ok tt,
                     {| self := set_finalized true (self w1); ext := ext w1 |},
                     EvSemAcquire :: ev ++ [EvLockAcquire; EvLockRelease])).
  { rewrite bind_run, semaphore_acquire_run, Hs. cbv zeta.
    cbn [result_of world_of events_of fst snd].
    rewrite bind_run, Hrun. cbv zeta. cbn [result_of world_of events_of fst snd].
    rewrite finalize_run, Ht. reflexivity. }
  unfold run_engine, try_finally, try_except_Exception. rewrite Hbody.
  rewrite semaphore_release_run. cbn [self set_finalized _semaphore].
  destruct (_semaphore (self w1)) as [s1|] eqn:Hs1'; [|contradiction].
  destruct w1 as [c1 x1]. destruct c1. fields. rewrite Hs1'.
  cbn [app]. now rewrite <- app_assoc.
Qed.

(** ** What a capture that fails has already done *)

(** X22.  The selections are resolved before the Target Set is built, and a
    capture that raises afterwards does not undo it: outputs selected by
    [True] become the keys of the outputs of this very capture, outputs
    selected by [False] the empty list; unresolved parameter keys become
    what [_preprocess_keys] returns on the main model, and stay unresolved
    exactly when there is no main model or when [_preprocess_keys] raises,
    and then the capture raises that same exception. *)
Theorem add_target_resolves_selection {H} (handle : _ComparableHandler H)
    ms outputs w :
  let x := _add_target handle ms outputs w in
  (_output_keys (self w) = SelTrue ->
   _output_keys (self (world_of x)) = SelKeys (PyDict.keys outputs)) /\
  (_output_keys (self w) = SelFalse ->
   _output_keys (self (world_of x)) = SelKeys []) /\
  (_preprocessed_keys (self w) = None ->
   match PyDict.get "main" ms with
   | None =>
       _preprocessed_keys (self (world_of x)) = None /\
       result_of x = Raise (KeyError "main")
   | Some main =>
       match _preprocess_keys (self w) main with
       | Ok ks => _preprocessed_keys (self (world_of x)) = Some ks
       | Raise e =>
           _preprocessed_keys (self (world_of x)) = None /\
           result_of x = Raise e
       end
   end).
Proof.
  cbv zeta.
  destruct (_add_target handle ms outputs w) as [[r w1] ev] eqn:Hrun.
  cbn [world_of result_of fst snd].
  unfold _add_target in Hrun. mrun Hrun.
  repeat (mcase Hrun; mrun Hrun).
  all: unfold modify, ret, raise in Hrun; fields.
  all: injection Hrun as Hr Hw Hev; subst r w1 ev.
  all: destruct w as [c x]; destruct c; fields; subst.
  all: unfold _preprocess_keys, PyDict.getitem in *; fields.
  all: repeat split; intros; try congruence.
  all: repeat match goal with
         | E : match ?t with _ => _ end = _ |- _ => destruct t eqn:?
         | |- context [match ?t with _ => _ end] => destruct t eqn:?
         end; try congruence; try (split; congruence).
Qed.

(** X23.  A handler that reports again before the round is complete
    replaces its own pending Target Set: the names that have reported, and
    their order, stay as they were, so the round is no nearer to completion,
    and the Target Sets of the other engines are not touched. *)
Theorem repeated_capture_replaces {H} (handle : _ComparableHandler H) ms
    outputs w T0 :
  PyDict.get (name handle) (_targets (self w)) = Some T0 ->
  result_of (_add_target handle ms outputs w) = Ok tt ->
  let w1 := world_of (_add_target handle ms outputs w) in
  PyDict.keys (_targets (self w1)) = PyDict.keys (_targets (self w)) /\
  full w1 = full w /\
  forall n, n <> name handle ->
    PyDict.get n (_targets (self w1)) = PyDict.get n (_targets (self w)).
Proof.
  intros Hg Hok. cbv zeta.
  destruct (_add_target handle ms outputs w) as [[r w1] ev] eqn:Hrun.
  cbn [world_of result_of fst snd] in *. subst r.
  destruct (_add_target_spec _ _ _ _ Hrun) as (o & p & _ & _ & _ & Hself).
  cbv zeta in Hself. destruct Hself as (oks & pks & T & _ & _ & _ & Hself).
  assert (Hk : PyDict.keys (_targets (self w1))
               = PyDict.keys (_targets (self w))).
  { rewrite Hself. fields. rewrite keys_set. unfold PyDict.insert_key.
    apply get_In_keys, existsb_eqb_In in Hg.
    match goal with
    | |- (if ?b then _ else _) = _ =>
        replace b with true by (symmetry; exact Hg)
    end.
    reflexivity. }
  split; [exact Hk|]. split.
  - unfold full. rewrite Hk, Hself. fields. reflexivity.
  - intros n Hn. rewrite Hself. fields. now apply get_set_other.
Qed.
End Comparer.

(** ** The default comparison function *)

(** C9.  The comparison function that [get_default_comparer] builds passes
    to the assertion the two values moved to the CPU and then detached, the
    configured relative tolerance (1e-07 by default), absolute tolerance
    (0 by default) and NaN flag (true by default), and the configured
    message, or, when none is configured, the message
    " comparing <backend1> and <backend2> in <name>". *)
Theorem default_comparer_call (Tensor : Type) (cpu detach : Tensor -> Tensor)
    (assert_allclose : allclose_call Tensor -> option exn)
    (rtol atol : option pynum) (equal_nan : option bool)
    (msg : option string) (backend1 backend2 key : string)
    (val1 val2 : Tensor) :
  get_default_comparer cpu detach assert_allclose rtol atol equal_nan msg
    backend1 backend2 key val1 val2
  = assert_allclose
      {| actual := detach (cpu val1);
         expected := detach (cpu val2);
         rtol := match rtol with Some r => r | None => PyFloat 1e-07 end;
         atol := match atol with Some a => a | None => PyInt 0 end;
         equal_nan := match equal_nan with Some b => b | None => true end;
         msg := match msg with
                | None | Some "" =>
                    (" comparing " ++ backend1 ++ " and " ++ backend2
                     ++ " in " ++ key)%string
                | Some m => m
                end |} /\
  _default_comparer cpu detach assert_allclose backend1 backend2 key val1 val2
  = assert_allclose
      {| actual := detach (cpu val1);
         expected := detach (cpu val2);
         rtol := PyFloat 1e-07;
         atol := PyInt 0;
         equal_nan := true;
         msg := (" comparing " ++ backend1 ++ " and " ++ backend2
                 ++ " in " ++ key)%string |}.
Proof.
  split; [|reflexivity].
  unfold get_default_comparer, err_msg. now destruct msg as [[|c m]|].
Qed.

(** ** Engines without a manager *)

(** C10.  When the engine of the calling handler has no manager, the
    callback never calls the trigger: it emits no trigger event and does the
    same whatever the trigger would answer.  It always runs the capture,
    which begins by taking the lock and building the Target Set of the
    handler's name; when the capture returns it enters the handshake
    (release of the semaphore, wait on the barrier, acquisition of the
    semaphore unless the barrier is broken); when the capture raises, the
    callback raises the same exception. *)
Theorem no_manager_always_captures
    (Tensor Val UserHandler Manager Ext Trigger : Type) (py_None : Val)
    (re_match : string -> string -> bool)
    (trigger_call trigger_call' :
       Trigger -> _ManagerProxy Manager -> Ext -> result bool * Ext)
    (H : Type) (handle : _ComparableHandler H) (ms : pydict (Model Tensor))
    (idx : Z) (outputs : pydict Tensor)
    (w : World Tensor Val UserHandler Manager Ext Trigger) entry :
  PyDict.get (name handle) (_engines (self w)) = Some entry ->
  manager (fst (fst entry)) = None ->
  let x := _compare_targets py_None re_match trigger_call handle ms idx
             outputs w in
  let a := _add_target re_match handle ms outputs w in
  let y := capture re_match handle ms outputs w in
  (forall p, ~ In (EvTrigger Tensor p) (events_of x)) /\
  _compare_targets py_None re_match trigger_call' handle ms idx outputs w
  = x /\
  (exists evs, events_of x = EvLockAcquire Tensor Manager :: evs) /\
  (result_of a = Ok tt ->
   exists T, PyDict.get (name handle) (_targets (self (world_of a)))
             = Some T) /\
  (forall e, result_of y = Raise e ->
             x = (Raise e, world_of y, events_of y)) /\
  (result_of y = Ok tt ->
   forall s b,
     _semaphore (self (world_of y)) = Some s ->
     _barrier (self (world_of y)) = Some b ->
     x = (if broken b then Raise BrokenBarrierError else Ok py_None,
          world_of y,
          events_of y
          ++ EvSemRelease Tensor Manager :: EvBarrierWait Tensor Manager
             :: (if broken b then [] else [EvSemAcquire Tensor Manager]))).
Proof.
  intros Hentry Hmgr x a y.
  assert (Hx : forall tc,
             _compare_targets py_None re_match tc handle ms idx outputs w
             = bind (capture re_match handle ms outputs)
                 (fun _ => bind (synchronize (Trigger:=Trigger))
                             (fun _ => ret py_None)) w).
  { intros tc. rewrite _compare_targets_run, Hentry. cbv zeta.
    now rewrite Hmgr. }
  subst x. rewrite (Hx trigger_call), (Hx trigger_call'). clear Hx.
  split; [|split; [reflexivity|]]; [|split; [|split; [|split]]].
  - assert (Hem : emits (@not_trigger Tensor Manager)
                    (bind (capture (Val:=Val) (UserHandler:=UserHandler)
                             (Ext:=Ext) (Trigger:=Trigger)
                             re_match handle ms outputs)
                       (fun _ => bind (synchronize (Trigger:=Trigger))
                                   (fun _ => ret py_None)))).
    { apply emits_bind; [apply emits_capture|intros _].
      apply emits_bind; [apply emits_synchronize|intros _].
      apply emits_ret. }
    intros p Hin. specialize (Hem w).
    rewrite Forall_forall in Hem. exact (Hem _ Hin).
  - rewrite bind_run. fold y.
    assert (Hy : exists evs, events_of y = EvLockAcquire Tensor Manager :: evs).
    { subst y. rewrite capture_run. cbv zeta.
      destruct (result_of _); [|cbn; eauto].
      destruct (full _); [|cbn; eauto].
      destruct (result_of _); cbn; eauto. }
    destruct Hy as [evs Hy].
    destruct (result_of y); cbv zeta; cbn [events_of snd]; rewrite Hy;
      cbn; eauto.
  - apply _add_target_stores.
  - intros e He. rewrite bind_run. fold y. now rewrite He.
  - intros Hy s b Hs Hb. rewrite bind_run. fold y. rewrite Hy. cbv zeta.
    rewrite bind_run, (synchronize_run _ Hs Hb).
    cbn [result_of world_of events_of fst snd].
    now destruct (broken b).
Qed.

(** ** A worked instance

    Tensors are integers, compared for equality; the outside world is the
    iteration count of the one manager; a trigger is a period in
    iterations; a pattern matches the keys it is a prefix of. *)
Module Demo.

Definition Tensor : Type := Z.
Definition Manager : Type := unit.
Definition Trigger : Type := Z.

Definition manager_iteration (m : Manager) (e : Z) : Z := e.

Definition get_trigger (s : trigger_spec Trigger) : Trigger :=
  match s with
  | SpecInterval _ period _ => period
  | SpecTrigger t => t
  end.

Definition re_match (pattern s : string) : bool := String.prefix pattern s.

Definition trigger_call (period : Trigger) (p : _ManagerProxy Manager)
    (e : Z) : result bool * Z :=
  (Ok (_ManagerProxy_iteration manager_iteration p e mod period =? 0)%Z, e).

Definition str_engine (e : Engine Tensor unit Manager) : string := "<engine>".

Definition compare_fn : compare_fn_t Tensor :=
  fun backend1 backend2 name val1 val2 =>
    if (val1 =? val2)%Z then None else Some (AssertionError name).

Definition W : Type := World Tensor unit unit Manager Z Trigger.

Definition model (weight : Z) : Model Tensor :=
  {| state_dict := [("fc.weight", weight); ("fc.bias", 0%Z)] |}.

Definition trainer (weight : Z) : Engine Tensor unit Manager :=
  {| engine_class := Trainer;
     manager := Some tt;
     models := [("main", model weight)];
     handler := Plain tt |}.

Definition evaluator (weight : Z) : Engine Tensor unit Manager :=
  {| engine_class := Evaluator;
     manager := None;
     models := [("main", model weight)];
     handler := Plain tt |}.

Definition handle (nm : string) : _ComparableHandler unit :=
  {| _handler := tt; name := nm; iteration := 1 |}.

Definition outputs (loss : Z) : pydict Tensor :=
  [("loss", loss); ("acc", 1%Z)].

(** A Comparer of evaluators built with the defaults, but comparing the
    parameters too. *)
Definition w_init : W :=
  {| self := __init__ unit unit Manager get_trigger None compare_fn None
               (ArgBool true) (ArgBool true);
     ext := 0%Z |}.

Definition add (nm : string) (e : Engine Tensor unit Manager) (w : W) : W :=
  world_of (add_engine str_engine nm e [] tt w).

Definition post_step (nm : string) (loss : Z) (w : W) :=
  _compare_targets tt re_match trigger_call (handle nm)
    [("main", model 5)] 0 (outputs loss) w.

Definition w_registered : W :=
  world_of (compare_setup
              (add "c" (evaluator 5) (add "b" (evaluator 5)
                 (add "a" (evaluator 5) w_init)))).

(** The world after the first two engines of a round have reported, and the
    world in which the third engine has just stored its Target Set. *)
Definition w_two_reported : W :=
  world_of (post_step "b" 7 (world_of (post_step "a" 7 w_registered))).

Definition w_round : W :=
  world_of
    (_add_target re_match (handle "c") [("main", model 5)] (outputs 7)
       w_two_reported).

(** The same round when the third engine reports another loss. *)
Definition w_mismatch : W :=
  world_of
    (_add_target re_match (handle "c") [("main", model 5)] (outputs 8)
       w_two_reported).

(** A Comparer of trainers that compares every second iteration. *)
Definition w_train : W :=
  world_of
    (compare_setup
       (add "b" (trainer 5)
          (add "a" (trainer 5)
             {| self := __init__ unit unit Manager get_trigger
                          (Some (SpecInterval Trigger 2 "iteration"))
                          compare_fn None (ArgBool true) (ArgBool false);
                ext := 0%Z |}))).

(** A Comparer built with a trigger, before any registration. *)
Definition w_triggered : W :=
  {| self := __init__ unit unit Manager get_trigger
               (Some (SpecInterval Trigger 1 "iteration"))
               compare_fn None (ArgBool true) (ArgBool false);
     ext := 0%Z |}.

(** A Comparer whose parameter pattern matches no key of the model. *)
Definition w_conv_init : W :=
  {| self := __init__ unit unit Manager get_trigger None compare_fn None
               (ArgBool true) (ArgSeq ["conv"]);
     ext := 0%Z |}.

Definition w_conv : W :=
  world_of
    (compare_setup
       (add "b" (evaluator 5) (add "a" (evaluator 5) w_conv_init))).

(** Engines whose run raises at once. *)
Definition run_raising (e : exn)
  : Engine Tensor unit Manager -> list unit -> unit
    -> M Tensor unit unit Manager Z Trigger unit :=
  fun _ _ _ w => (Raise e, w, []).
End Demo.

Import Demo.

(** The statements below are about closed terms: no argument of theirs is
    to be inferred. *)
Unset Implicit Arguments.


Lemma w_registered_reachable :
  reachable tt get_trigger re_match trigger_call str_engine w_registered.
Proof.
  exists w_init. split.
  - unfold initial, w_init. repeat eexists.
  - unfold w_registered, add.
    eapply steps_step; [|apply step_compare_setup].
    eapply steps_step; [|apply step_add_engine].
    eapply steps_step; [|apply step_add_engine].
    eapply steps_step; [|apply step_add_engine].
    apply steps_refl.
Qed.

Lemma w_two_reported_reachable :
  reachable tt get_trigger re_match trigger_call str_engine w_two_reported.
Proof.
  destruct w_registered_reachable as (w0 & Hinit & Hsteps).
  exists w0. split; [assumption|].
  unfold w_two_reported, post_step.
  eapply steps_step; [|apply step_compare_targets].
  eapply steps_step; [|apply step_compare_targets].
  exact Hsteps.
Qed.

Lemma w_round_consistent : consistent (self w_round).
Proof.
  unfold w_round. apply _add_target_consistent.
  - apply (reachable_consistent w_two_reported_reachable).
  - vm_compute. auto.
Qed.

(** The round of three engines with four keys each: eight calls. *)
Lemma compare_round_invocations_witness :
  exists calls,
    _compare_outs w_round
    = (Ok tt, w_round, EvCompareOuts Tensor Manager :: calls) /\
    length calls = 8.
Proof.
  destruct (@compare_round_invocations _ _ _ _ _ _ w_round "a" ["b"; "c"])
    as (t1 & calls & Hg & Hlen & _ & _ & Hrun & _).
  - exact w_round_consistent.
  - reflexivity.
  - intros n Hn. vm_compute in Hn. vm_compute. tauto.
  - exists calls. split.
    + apply Hrun.
      intros b2 k t1' t2 o1 o2 Hb2 Hg1 Hg2 Ho1 Ho2.
      vm_compute in Hg1. injection Hg1 as Ht1. subst t1'.
      destruct Hb2 as [<-|[<-|[]]]; vm_compute in Hg2; injection Hg2 as Ht2;
        subst t2; unfold PyDict.get in Ho1, Ho2;
        repeat match type of Ho1 with
               | context [String.eqb k ?s] =>
                   destruct (String.eqb k s);
                   [injection Ho1 as <-; injection Ho2 as <-; reflexivity|]
               end; discriminate.
    + vm_compute in Hg. injection Hg as Ht1. subst t1. exact Hlen.
Defined.

(** Iteration 0 of the manager is reported as 1, which the trigger of
    period 2 refuses. *)
Lemma untriggered_step_is_noop_witness :
  _compare_targets tt re_match trigger_call (handle "a")
    [("main", model 5)] 0 (outputs 7) w_train
  = (Ok tt, w_train, [EvTrigger Tensor {| _manager := tt |}]).
Proof.
  refine (proj1 (untriggered_step_is_noop tt manager_iteration
                   re_match trigger_call (handle "a") [("main", model 5)]
                   0%Z (outputs 7) w_train
                   (entry := (wrap_handler "a" (trainer 5), [], tt))
                   (m := tt) (e' := 0%Z) _ _ _));
    reflexivity.
Defined.



(** The pattern "conv" matches neither "fc.weight" nor "fc.bias". *)
Lemma unmatched_pattern_raises_in_capture_witness :
  result_of (capture re_match (handle "a") [("main", model 5)] (outputs 7)
               w_conv)
  = Raise (no_match_error "conv") /\
  _targets (self (world_of
                    (capture re_match (handle "a") [("main", model 5)]
                       (outputs 7) w_conv)))
  = [].
Proof.
  destruct (unmatched_pattern_raises_in_capture tt re_match (handle "a")
              [("main", model 5)] (outputs 7) w_conv
              (patterns := ["conv"]) (main := model 5) (tc_k := "conv"))
    as (p & Hp & _ & Hres & _ & Htg & _).
  - reflexivity.
  - reflexivity.
  - reflexivity.
  - now left.
  - intros k [<-|[<-|[]]]; reflexivity.
  - destruct Hp as [<-|[]]. split; [exact Hres|exact Htg].
Defined.

(** An engine whose run raises an ordinary exception. *)
Lemma run_engine_abort_and_release_witness :
  let x := run_engine (run_raising (OtherException "RuntimeError"))
             (evaluator 5) [] tt w_registered in
  result_of x = Raise (OtherException "RuntimeError") /\
  events_of x
  = [EvSemAcquire Tensor Manager; EvBarrierAbort Tensor Manager;
     EvSemRelease Tensor Manager] /\
  _barrier (self (world_of x)) = Some {| parties := 3; broken := true |}.
Proof.
  cbv zeta.
  destruct (run_engine_abort_and_release
              (run_raising (OtherException "RuntimeError"))
              (evaluator 5) [] tt w_registered
              (r1 := Raise (OtherException "RuntimeError"))
              (w1 := w_registered)
              (ev1 := [EvSemAcquire Tensor Manager])
              (b := {| parties := 3; broken := false |})
              (s := {| sem_value := 3 |}))
    as (Hres & (evs & Hev & Hexc) & _).
  - reflexivity.
  - reflexivity.
  - reflexivity.
  - destruct (Hexc _ eq_refl) as [-> Hb].
    split; [exact Hres|]. split; [exact Hev|exact Hb].
Defined.

(** Evaluators have no manager: a trigger that always refuses changes
    nothing of the callback. *)
Lemma no_manager_always_captures_witness :
  _compare_targets tt re_match (fun _ _ e => (Ok false, e)) (handle "a")
    [("main", model 5)] 0 (outputs 7) w_registered
  = _compare_targets tt re_match trigger_call (handle "a")
      [("main", model 5)] 0 (outputs 7) w_registered.
Proof.
  refine (proj1 (proj2 (no_manager_always_captures tt re_match trigger_call
                          (fun _ _ e => (Ok false, e)) (handle "a")
                          [("main", model 5)] 0%Z (outputs 7) w_registered
                          (entry := (wrap_handler "a" (evaluator 5), [], tt))
                          _ _)));
    reflexivity.
Defined.

(** *** Where the specification and the code part *)

(** Counterexample to C1 as stated.  A round of three registered engines,
    all three with a Target Set of four keys, in which the loss of the third
    engine differs: the four comparisons with the second engine pass, the
    first with the third raises, and the round ends after five calls of the
    Comparison Function, not (3 - 1) x 4 = 8.  The capture of a reachable
    Comparer runs this very round. *)
Lemma failing_round_stops_early :
  PyDict.keys (_engines (self w_mismatch)) = ["a"; "b"; "c"] /\
  PyDict.keys (_targets (self w_mismatch)) = ["a"; "b"; "c"] /\
  PyDict.get "a" (_targets (self w_mismatch))
  = Some [("loss", 7%Z); ("acc", 1%Z); ("fc.weight", 5%Z); ("fc.bias", 0%Z)] /\
  _compare_outs w_mismatch
  = (Raise (AssertionError "loss"), w_mismatch,
     [EvCompareOuts Tensor Manager;
      EvCompareFn Manager "a" "b" "loss" 7%Z 7%Z;
      EvCompareFn Manager "a" "b" "acc" 1%Z 1%Z;
      EvCompareFn Manager "a" "b" "fc.weight" 5%Z 5%Z;
      EvCompareFn Manager "a" "b" "fc.bias" 0%Z 0%Z;
      EvCompareFn Manager "a" "c" "loss" 7%Z 8%Z]) /\
  capture re_match (handle "c") [("main", model 5)] (outputs 8)
    w_two_reported
  = (Raise (AssertionError "loss"), w_mismatch,
     EvLockAcquire Tensor Manager :: events_of (_compare_outs w_mismatch)
     ++ [EvLockRelease Tensor Manager]).
Proof. vm_compute. repeat split. Qed.

(** Counterexample to C2 as stated.  A Comparer built with a trigger holds
    no engine and yet refuses an evaluator under a fresh name: the
    constructor has already fixed the accepted kind. *)
Lemma add_engine_refuses_first_evaluator :
  _engines (self w_triggered) = [] /\
  supported (engine_class (evaluator 5)) = true /\
  result_of (add_engine str_engine "a" (evaluator 5) [] tt w_triggered)
  = Raise (ValueError "All the engines must be of the same type").
Proof. repeat split. Qed.

(** Counterexample to C6 as stated.  With a pattern that matches no key of
    the model, the construction, both registrations and the set-up of
    [compare] return normally; the error comes from the first post-step
    callback of a running engine. *)
Lemma unmatched_pattern_passes_registration :
  existsb (re_match "conv") (PyDict.keys (state_dict (model 5))) = false /\
  _param_keys (self w_conv_init) = SelKeys ["conv"] /\
  result_of (add_engine str_engine "a" (evaluator 5) [] tt w_conv_init)
  = Ok tt /\
  result_of (add_engine str_engine "b" (evaluator 5) [] tt
               (add "a" (evaluator 5) w_conv_init))
  = Ok tt /\
  result_of (compare_setup
               (add "b" (evaluator 5) (add "a" (evaluator 5) w_conv_init)))
  = Ok tt /\
  result_of (_compare_targets tt re_match trigger_call (handle "a")
               [("main", model 5)] 0 (outputs 7) w_conv)
  = Raise (no_match_error "conv").
Proof. repeat split. Qed.

(** Counterexample to C7 as stated.  The run of an engine raises
    [SystemExit]: the worker releases the
    semaphore and lets the exception through, and the barrier is not
    aborted. *)
Lemma system_exit_skips_abort :
  let x := run_engine (run_raising SystemExit) (evaluator 5) [] tt
             w_registered in
  result_of x = Raise SystemExit /\
  events_of x = [EvSemAcquire Tensor Manager; EvSemRelease Tensor Manager] /\
  ~ In (EvBarrierAbort Tensor Manager) (events_of x) /\
  _barrier (self (world_of x)) = Some {| parties := 3; broken := false |}.
Proof.
  cbv zeta. repeat split.
  cbn. intros [Hx|[Hx|[]]]; discriminate.
Qed.

(** *** Instances of the further properties *)

(** Two patterns over the keys "fc.weight" and "fc.bias": the matches are
    collected pattern by pattern, with repetition. *)
Lemma preprocess_keys_patterns_witness :
  _preprocess_keys re_match
    (__init__ unit unit Manager get_trigger None compare_fn None
       (ArgBool true) (ArgSeq ["fc."; "fc.b"]))
    (model 5)
  = Ok ["fc.weight"; "fc.bias"; "fc.bias"].
Proof.
  refine (proj1 (preprocess_keys_patterns re_match
                   (__init__ unit unit Manager get_trigger None compare_fn
                      None (ArgBool true) (ArgSeq ["fc."; "fc.b"]))
                   (model 5) (patterns := ["fc."; "fc.b"]) _) _).
  - reflexivity.
  - intros p [<-|[<-|[]]]; reflexivity.
Defined.

Lemma preprocess_keys_resolvable_witness :
  exists params,
    PyDict.comprehension ["fc.weight"; "fc.bias"] (state_dict (model 5)) []
    = Ok params.
Proof.
  refine (proj2 (preprocess_keys_resolvable re_match (self w_init) (model 5)
                   (ks := ["fc.weight"; "fc.bias"]) _)).
  reflexivity.
Defined.

(** The Target Set of the third engine of the round. *)
Lemma add_target_contents_witness :
  exists T,
    PyDict.get "c" (_targets (self w_round)) = Some T /\
    PyDict.get "loss" T = Some 7%Z /\
    PyDict.get "fc.weight" T = Some 5%Z /\
    PyDict.get "lr" T = None.
Proof.
  destruct (add_target_contents re_match (handle "c") [("main", model 5)]
              (outputs 7) w_two_reported (w1 := w_round) (ev := []))
    as (oks & pks & T & Ho & Hp & Hg & Hk).
  - reflexivity.
  - vm_compute in Ho. injection Ho as Ho. subst oks.
    vm_compute in Hp. injection Hp as Hp. subst pks.
    exists T. split; [exact Hg|].
    split; [|split]; rewrite Hk; reflexivity.
Defined.

(** The outputs of the third engine lack the key "acc". *)
Lemma add_target_missing_output_witness :
  exists k0,
    In k0 ["loss"; "acc"] /\
    PyDict.get k0 [("loss", 7%Z)] = None /\
    _add_target re_match (handle "c") [("main", model 5)] [("loss", 7%Z)]
      w_two_reported
    = (Raise (KeyError k0), w_two_reported, []).
Proof.
  refine (add_target_missing_output re_match (handle "c")
            [("main", model 5)] [("loss", 7%Z)] w_two_reported
            (oks := ["loss"; "acc"]) (pks := ["fc.weight"; "fc.bias"])
            "acc" _ _ _ _).
  - reflexivity.
  - reflexivity.
  - right. now left.
  - reflexivity.
Defined.

(** The keys resolved by the first capture are those of the second. *)
Lemma resolved_keys_are_fixed_witness :
  _output_keys (self w_two_reported) = SelKeys ["loss"; "acc"] /\
  _preprocessed_keys (self w_two_reported) = Some ["fc.weight"; "fc.bias"].
Proof.
  destruct (resolved_keys_are_fixed
              (py_None := tt) (re_match := re_match)
              (trigger_call := trigger_call) (str_engine := str_engine)
              (w := world_of (post_step "a" 7 w_registered))
              (w' := w_two_reported))
    as [Ho Hp].
  - unfold w_two_reported, post_step.
    eapply steps_step; [apply steps_refl|apply step_compare_targets].
  - split; [apply Ho|apply Hp]; reflexivity.
Defined.

Lemma capture_leaves_room_witness :
  let w' := world_of (capture re_match (handle "a") [("main", model 5)]
                        (outputs 7) w_registered) in
  length (_targets (self w')) < length (_engines (self w')).
Proof.
  refine (capture_leaves_room re_match (handle "a") [("main", model 5)]
            (outputs 7) w_registered _ _ _).
  - exact (reachable_consistent w_registered_reachable).
  - vm_compute. auto.
  - reflexivity.
Defined.

(** The third engine reports a different loss: the round fails on the first
    key, and the three Target Sets stay. *)
Lemma failed_round_is_left_full_witness :
  let w1 := world_of (_add_target re_match (handle "c") [("main", model 5)]
                        (outputs 8) w_two_reported) in
  result_of (capture re_match (handle "c") [("main", model 5)] (outputs 8)
               w_two_reported)
  = Raise (AssertionError "loss") /\
  length (_targets (self w1)) = 3.
Proof.
  cbv zeta.
  destruct (failed_round_is_left_full tt re_match (handle "c")
              [("main", model 5)] (outputs 8) w_two_reported
              (e := AssertionError "loss"))
    as (Hcap & Hlen & _).
  - reflexivity.
  - reflexivity.
  - reflexivity.
  - split; [now rewrite Hcap|exact Hlen].
Defined.

Lemma compare_outs_order_and_first_failure_witness :
  exists calls,
    Forall2 (fun ev bk =>
               exists out1 out2,
                 ev = EvCompareFn Manager "a" (fst bk) (snd bk) out1 out2)
      calls
      (list_prod ["b"; "c"] ["loss"; "acc"; "fc.weight"; "fc.bias"]) /\
    _compare_outs w_round
    = (fst (run_calls compare_fn calls), w_round,
       EvCompareOuts Tensor Manager :: snd (run_calls compare_fn calls)).
Proof.
  destruct (compare_outs_order_and_first_failure w_round
              (backend1 := "a") (others := ["b"; "c"])
              (t1 := [("loss", 7%Z); ("acc", 1%Z); ("fc.weight", 5%Z);
                      ("fc.bias", 0%Z)]))
    as (calls & HF & Hrun & _).
  - split; [reflexivity|]. split; [reflexivity|].
    intros b2 [<-|[<-|[]]]; eexists; (split; [reflexivity|]);
      intros k Hk; exact Hk.
  - exists calls. split; [exact HF|exact Hrun].
Defined.

(** The capture of the third engine completes the round of three engines
    with four keys each. *)
Lemma completing_capture_witness :
  exists calls,
    capture re_match (handle "c") [("main", model 5)] (outputs 7)
      w_two_reported
    = (Ok tt, cleared w_round,
       EvLockAcquire Tensor Manager :: EvCompareOuts Tensor Manager
       :: calls ++ [EvLockRelease Tensor Manager]) /\
    length calls = 8.
Proof.
  destruct (completing_capture re_match (handle "c") [("main", model 5)]
              (outputs 7) w_two_reported
              (backend1 := "a") (others := ["b"; "c"]))
    as (t1 & Hg & Hcap & Hlen & _).
  - exact (reachable_consistent w_two_reported_reachable).
  - vm_compute. auto.
  - reflexivity.
  - reflexivity.
  - reflexivity.
  - reflexivity.
  - intros b2 k t1 t2 o1 o2 Hb2 Hg1 Hg2 Ho1 Ho2.
    vm_compute in Hg1. injection Hg1 as Ht1. subst t1.
    destruct Hb2 as [<-|[<-|[]]]; vm_compute in Hg2; injection Hg2 as Ht2;
      subst t2; unfold PyDict.get in Ho1, Ho2;
      repeat match type of Ho1 with
             | context [String.eqb k ?s] =>
                 destruct (String.eqb k s);
                 [injection Ho1 as <-; injection Ho2 as <-; reflexivity|]
             end; discriminate.
  - exists (round_calls (self w_round)). split; [exact Hcap|].
    vm_compute in Hg. injection Hg as Ht1. subst t1. exact Hlen.
Defined.

(** A capture that arrives after a worker has finalized the Comparer. *)
Lemma finalized_is_permanent_witness :
  is_Ok (result_of
           (capture re_match (handle "a") [("main", model 5)] (outputs 7)
              (world_of (barrier_abort (world_of (finalize w_registered))))))
  = false.
Proof.
  refine (proj2 (finalized_is_permanent
                   (py_None := tt) (re_match := re_match)
                   (trigger_call := trigger_call) (str_engine := str_engine)
                   (w := world_of (finalize w_registered))
                   (w' := world_of (barrier_abort
                                      (world_of (finalize w_registered))))
                   _ _) unit (handle "a") [("main", model 5)] (outputs 7)).
  - eapply steps_step; [apply steps_refl|apply step_barrier_abort].
  - reflexivity.
Defined.

(** Three engines: a barrier of three parties, a semaphore of three
    permits, both still there after two callbacks. *)
Lemma compare_setup_primitives_witness :
  _barrier (self w_registered)
  = Some {| parties := 3; broken := false |} /\
  _semaphore (self w_registered) = Some {| sem_value := 3 |} /\
  _barrier (self w_two_reported) <> None /\
  _semaphore (self w_two_reported) <> None.
Proof.
  refine (compare_setup_primitives
            (py_None := tt) (re_match := re_match)
            (trigger_call := trigger_call) (str_engine := str_engine)
            (w := add "c" (evaluator 5) (add "b" (evaluator 5)
                    (add "a" (evaluator 5) w_init)))
            (w' := w_two_reported) _).
  unfold w_two_reported, post_step.
  eapply steps_step; [|apply step_compare_targets].
  eapply steps_step; [|apply step_compare_targets].
  apply steps_refl.
Defined.

(** One engine registered, [compare] not called: the capture completes a
    round of one, and the release of the semaphore fails. *)
Lemma callback_before_compare_witness :
  result_of
    (_compare_targets tt re_match trigger_call (handle "a")
       [("main", model 5)] 0 (outputs 7) (add "a" (evaluator 5) w_init))
  = Raise (AttributeError "release").
Proof.
  refine (f_equal (fun x => fst (fst x))
            (callback_before_compare tt re_match (handle "a")
               [("main", model 5)] (outputs 7)
               (add "a" (evaluator 5) w_init) _ _));
    reflexivity.
Defined.

Lemma add_engine_registers_witness :
  _engines (self (add "a" (evaluator 5) w_init))
  = [("a", (wrap_handler "a" (evaluator 5), [], tt))] /\
  _engine_type (self (add "a" (evaluator 5) w_init)) = Some Evaluator.
Proof.
  destruct (add_engine_registers str_engine "a" (evaluator 5) [] tt w_init)
    as (He & _ & _ & Ht & _).
  - reflexivity.
  - split; [exact He|exact Ht].
Defined.

Lemma registry_invariant_witness :
  same_kind (self w_registered) /\
  named_wrappers (self w_registered) /\
  (forall n1 e1 n2 e2,
      In (n1, e1) (_engines (self w_registered)) ->
      In (n2, e2) (_engines (self w_registered)) ->
      engine_class (fst (fst e1)) = engine_class (fst (fst e2))).
Proof.
  exact (registry_invariant w_registered_reachable).
Defined.

(** The name "a" is registered already. *)
Lemma refused_add_engine_changes_nothing_witness :
  world_of (add_engine str_engine "a" (evaluator 6) [] tt w_registered)
  = w_registered /\
  events_of (add_engine str_engine "a" (evaluator 6) [] tt w_registered)
  = [].
Proof.
  refine (refused_add_engine_changes_nothing str_engine "a" (evaluator 6)
            [] tt w_registered _ _).
  - intros nm entry Hin. vm_compute in Hin.
    destruct Hin as [[= <- <-]|[[= <- <-]|[[= <- <-]|[]]]];
      split; reflexivity.
  - reflexivity.
Defined.

(** A worker started on a Comparer whose [compare] was not called. *)
Lemma run_engine_before_compare_witness :
  run_engine (run_raising SystemExit) (evaluator 5) [] tt
    (add "a" (evaluator 5) w_init)
  = (Raise (AttributeError "release"), add "a" (evaluator 5) w_init, []).
Proof.
  refine (proj1 (run_engine_before_compare (run_raising SystemExit)
                   (evaluator 5) [] tt (add "a" (evaluator 5) w_init) _) _);
    reflexivity.
Defined.

(** An engine that returns at once, with no Target Set pending. *)
Lemma run_engine_clean_exit_witness :
  run_engine (fun _ _ _ => ret tt) (evaluator 5) [] tt w_registered
  = (Ok tt,
     {| self := set_finalized true (self w_registered);
        ext := ext w_registered |},
     [EvSemAcquire Tensor Manager; EvLockAcquire Tensor Manager;
      EvLockRelease Tensor Manager; EvSemRelease Tensor Manager]).
Proof.
  refine (run_engine_clean_exit (fun _ _ _ => ret tt) (evaluator 5) [] tt
            w_registered (w1 := w_registered) (ev := [])
            (s := {| sem_value := 3 |}) _ _ _ _).
  - reflexivity.
  - reflexivity.
  - discriminate.
  - reflexivity.
Defined.

(** The first engine reports a second time before the third has reported. *)
Lemma repeated_capture_replaces_witness :
  let w1 := world_of (_add_target re_match (handle "a") [("main", model 5)]
                        (outputs 9) w_two_reported) in
  PyDict.keys (_targets (self w1)) = ["a"; "b"] /\
  full w1 = false /\
  PyDict.get "b" (_targets (self w1))
  = PyDict.get "b" (_targets (self w_two_reported)).
Proof.
  cbv zeta.
  destruct (repeated_capture_replaces re_match (handle "a")
              [("main", model 5)] (outputs 9) w_two_reported
              (T0 := [("loss", 7%Z); ("acc", 1%Z); ("fc.weight", 5%Z);
                      ("fc.bias", 0%Z)]))
    as (Hk & Hf & Hg).
  - reflexivity.
  - reflexivity.
  - split; [exact Hk|]. split; [exact Hf|]. apply Hg. discriminate.
Defined.
